(** * VS_Seg: patch location, network assembly and checkpoint loading

    A shallow embedding of the parts of the VS_Seg repository that its
    specification talks about:

    - [VSparams]: the patch locator ([get_safe_bounds], [extract_patch]),
      the slice selector ([get_center_of_mass_slice]) and the two
      checkpoint loaders;
    - [UNet2d5_spvPA]: the recursive architecture builder, the forward
      hooks that fill the attention-map registry, and the forward pass;
    - [TransformerBottleneck3D]: the residual update of the refinement
      block.

    Python integers are unbounded and are modelled by [Z].  Definitions
    come first; the statements about them follow in the second half. *)

From stdpp Require gmap strings.
From Stdlib Require Import String ZArith QArith Qround Qabs Qpower Bool List.
From Stdlib Require Import Lia Lqa.
From Stdlib Require Import SpecFloat.
From Stdlib Require Import DecimalString DecimalNat.
From Stdlib Require Import Morphisms Setoid.
Import ListNotations.

Local Open Scope Z_scope.

(* ================================================================== *)
(** * Part I: definitions                                               *)
(* ================================================================== *)

(** ** Python exceptions and fallible computations *)

Module Py.

Inductive ExcClass :=
| AssertionError | IndexError | TypeError | AttributeError | RuntimeError
| NotImplementedError | FloatingPointError.

(** An exception object: its class and [str(e)].  A bare
    [assert cond] raises [AssertionError()] whose text is empty. *)
Record Exception := mkExc { exc_class : ExcClass; exc_text : string }.

Inductive Result (A : Type) :=
| Ok (a : A)
| Raise (e : Exception).
Arguments Ok {A} a.
Arguments Raise {A} e.

Definition bind {A B} (r : Result A) (k : A -> Result B) : Result B :=
  match r with
  | Ok a => k a
  | Raise e => Raise e
  end.

(** [seq[i]] for a non-negative literal index [i]. *)
Definition getitem {A} (l : list A) (i : nat) : Result A :=
  match nth_error l i with
  | Some a => Ok a
  | None => Raise (mkExc IndexError "tuple index out of range")
  end.

End Py.

Notation "x <- c1 ;; c2" := (Py.bind c1 (fun x => c2))
  (at level 100, c1 at next level, right associativity).

(** ** Further built-in exceptions

    The exception classes raised by the data handling and inference
    code, and the outcome of a call that can raise one of them. *)

Module PyErr.

Inductive ExcClass :=
| ValueError | KeyError | UnboundLocalError | ZeroDivisionError | IndexError
| AssertionError | Exception.

Inductive Outcome (A : Type) :=
| Return (a : A)
| Raises (cls : ExcClass) (text : string).
Arguments Return {A} a.
Arguments Raises {A} cls text.

Definition bind {A B} (r : Outcome A) (k : A -> Outcome B) : Outcome B :=
  match r with
  | Return a => k a
  | Raises cls text => Raises cls text
  end.

(** [str(n)] for a natural number: its decimal digits. *)
Definition str (n : nat) : string := NilEmpty.string_of_uint (Nat.to_uint n).

(** [l[i]] on a list, for a non-negative literal index [i]. *)
Definition getitem {A} (l : list A) (i : nat) : Outcome A :=
  match nth_error l i with
  | Some a => Return a
  | None => Raises IndexError "list index out of range"
  end.

End PyErr.

Notation "x <~ c1 ;; c2" := (PyErr.bind c1 (fun x => c2))
  (at level 100, c1 at next level, right associativity).

(** ** Binary floating-point rounding

    Floating-point numbers are modelled by the rationals they denote and
    an arithmetic operation by the exact operation followed by a
    rounding to the nearest number of the format, halves to the even
    neighbour.  Infinities and NaN have no counterpart in this model. *)

Module IEEE.
Local Open Scope Q_scope.

(** Round to the nearest integer, halves to the even neighbour:
    [x.round()] followed by [int]. *)
Definition round_half_even (q : Q) : Z :=
  let f := Qfloor q in
  match Qcompare (q - inject_Z f) (1 # 2) with
  | Lt => f
  | Gt => (f + 1)%Z
  | Eq => if Z.even f then f else (f + 1)%Z
  end.

(** The binary exponent of a positive rational: [2^d <= x < 2^(d+1)]. *)
Definition Qlog2 (x : Q) : Z :=
  let d := (Z.log2 (Qnum x) - Z.log2 (Zpos (Qden x)))%Z in
  if Qle_bool (2 ^ d) x then d else (d - 1)%Z.

(** Rounding to the binary format with [prec] bits of precision and
    least exponent [emin]: scale by the unit in the last place, round to
    an integer, scale back. *)
Definition round_float (prec emin : Z) (x : Q) : Q :=
  let a := Qabs x in
  if Qeq_bool a 0 then 0
  else
    let e := Z.max (Qlog2 a - (prec - 1)) emin in
    let r := inject_Z (round_half_even (a / 2 ^ e)) * 2 ^ e in
    if Qle_bool 0 x then r else - r.

Definition float64 : Q -> Q := round_float 53 (-1074).
Definition float32 : Q -> Q := round_float 24 (-149).

End IEEE.

(** ** VSparams: patch location and extraction *)

Module VSparams.

(** [get_safe_bounds(self, c, margin, axis)].  [margin] is accepted and
    never read, as in the source. *)
Definition get_safe_bounds (c margin axis : Z) : Z * Z :=
  let window_size := 96 in
  let half_window := window_size / 2 in
  (* Try to center the window around c *)
  let start := Z.max 0 (c - half_window) in
  let end_ := start + window_size in
  (* If window goes beyond axis, shift it left *)
  let '(start, end_) :=
    if end_ >? axis
    then (Z.max 0 (axis - window_size), axis)
    else (start, end_) in
  (* Final clamp *)
  let start := Z.max 0 (Z.min start (axis - window_size)) in
  let end_ := start + window_size in
  (start, end_ - 1).

(** A 3-D numpy array: its shape and its entries.  Extents are natural
    numbers; indices are Python integers. *)
Record ndarray3 (A : Type) := mkArray {
  shape : nat * nat * nat;
  item : Z -> Z -> Z -> A
}.
Arguments mkArray {A} shape item.
Arguments shape {A} n.
Arguments item {A} n i j k.

(** [slice(start, stop).indices(len)] with step 1: a negative index
    counts from the end, then both ends are clipped to [0, len]. *)
Definition slice_index (i len : Z) : Z :=
  if i <? 0 then Z.max (i + len) 0 else Z.min i len.

Definition slice_length (start stop len : Z) : Z :=
  Z.max 0 (slice_index stop len - slice_index start len).

(** Basic slicing [a[s0:e0, s1:e1, s2:e2]]. *)
Definition getslice {A} (a : ndarray3 A) (r0 r1 r2 : Z * Z) : ndarray3 A :=
  let '(n0, n1, n2) := shape a in
  let '(s0, e0) := r0 in
  let '(s1, e1) := r1 in
  let '(s2, e2) := r2 in
  mkArray
    (Z.to_nat (slice_length s0 e0 (Z.of_nat n0)),
     Z.to_nat (slice_length s1 e1 (Z.of_nat n1)),
     Z.to_nat (slice_length s2 e2 (Z.of_nat n2)))
    (fun i j k =>
       item a (slice_index s0 (Z.of_nat n0) + i)
              (slice_index s1 (Z.of_nat n1) + j)
              (slice_index s2 (Z.of_nat n2) + k)).

Definition Bounds : Type := (Z * Z) * (Z * Z) * (Z * Z).

(** The crop [volume[y1:y2+1, x1:x2+1, z1:z2+1]] shared by
    [extract_patch] and [crop_t2_data]. *)
Definition crop {A} (volume : ndarray3 A) (bounds : Bounds) : ndarray3 A :=
  let '((x1, x2), (y1, y2), (z1, z2)) := bounds in
  getslice volume (y1, y2 + 1) (x1, x2 + 1) (z1, z2 + 1).

(** [extract_patch(self, volume, center, margin=48)]. *)
Definition extract_patch {A} (volume : ndarray3 A) (center : Z * Z * Z)
    (margin : Z) : ndarray3 A * Bounds :=
  let '(x_max, y_max, z_max) := shape volume in
  let '(x, y, z) := center in
  let '(x1, x2) := get_safe_bounds x margin (Z.of_nat x_max) in
  let '(y1, y2) := get_safe_bounds y margin (Z.of_nat y_max) in
  let '(z1, z2) := get_safe_bounds z margin (Z.of_nat z_max) in
  let bounds := ((x1, x2), (y1, y2), (z1, z2)) in
  (crop volume bounds, bounds).

(** The two calls of [new_run_inference] that cut the prediction and the
    label around the same located voxel. *)
Definition new_run_inference_patches {A B} (c : ndarray3 A)
    (label : ndarray3 B) (x y max_slice_idx : Z) :=
  let '(patch, bounds) := extract_patch c (x, y, max_slice_idx) 48 in
  let '(label_patch, label_bounds) :=
    extract_patch label (x, y, max_slice_idx) 48 in
  (patch, label_patch, (bounds, label_bounds)).

(** *** The slice closest to the center of mass *)

Section CenterOfMass.
Local Open Scope Q_scope.

(** [rnd] rounds to float64 (it is [IEEE.float64]), [rnd_label] to the
    element type of the label tensor. *)
Variable rnd : Q -> Q.
Variable rnd_label : Q -> Q.

Definition fadd (a b : Q) : Q := rnd (a + b).
Definition fmul (a b : Q) : Q := rnd (a * b).
Definition of_int (k : Z) : Q := rnd (inject_Z k).

(** Python's built-in [sum]: start from the integer 0, add from left to
    right. *)
Definition py_sum (l : list Q) : Q := fold_left fadd l 0.

(** [label[:, :, z].sum()], accumulated in row-major order. *)
Definition slice_sum (label : ndarray3 Q) (z : nat) : Q :=
  let '(n0, n1, _) := shape label in
  fold_left
    (fun acc ij =>
       rnd_label
         (acc + item label (Z.of_nat (fst ij)) (Z.of_nat (snd ij))
                  (Z.of_nat z)))
    (list_prod (seq 0 n0) (seq 0 n1)) 0.

(** Element-wise division of an array by a scalar.  numpy signals a
    zero divisor (a warning, or [FloatingPointError] under
    [np.errstate(divide="raise")]) and stores inf or nan; as those values
    are not represented, a zero divisor is reported as the error. *)
Definition np_divide (a : list Q) (d : Q) : Py.Result (list Q) :=
  match a with
  | [] => Py.Ok []
  | _ =>
      if Qeq_bool d 0 then
        Py.Raise (Py.mkExc Py.FloatingPointError
                    "divide by zero encountered in true_divide")
      else Py.Ok (map (fun v => rnd (v / d)) a)
  end.

(** [get_center_of_mass_slice(label)]. *)
Definition get_center_of_mass_slice (label : ndarray3 Q) : Py.Result Z :=
  let num_slices := snd (shape label) in
  let slice_masses :=
    map (fun z => rnd (slice_sum label z)) (seq 0 num_slices) in
  slice_weights <-
    (if Qeq_bool (py_sum slice_masses) 0 then
       (* no label: give all slices equal weight *)
       np_divide (repeat 1 num_slices) (of_int (Z.of_nat num_slices))
     else np_divide slice_masses (py_sum slice_masses)) ;;
  let products :=
    map (fun wk => fmul (fst wk) (of_int (Z.of_nat (snd wk))))
      (combine slice_weights (seq 0 num_slices)) in
  match products with
  | [] =>
      (* the built-in sum of nothing is the integer 0 *)
      Py.Raise (Py.mkExc Py.AttributeError
                  "'int' object has no attribute 'round'")
  | _ => Py.Ok (IEEE.round_half_even (py_sum products))
  end.

(** [get_center_of_mass_slice] from the filled [slice_masses] on: what
    the function does with the masses once the loop has stored them as
    float64 numbers, whatever the order in which the entries of a slice
    have been added.  [get_center_of_mass_slice] above is
    [slice_of_masses] on the masses that [slice_sum] gives. *)
Definition slice_of_masses (slice_masses : list Q) : Py.Result Z :=
  let num_slices := length slice_masses in
  slice_weights <-
    (if Qeq_bool (py_sum slice_masses) 0 then
       (* no label: give all slices equal weight *)
       np_divide (repeat 1 num_slices) (of_int (Z.of_nat num_slices))
     else np_divide slice_masses (py_sum slice_masses)) ;;
  let products :=
    map (fun wk => fmul (fst wk) (of_int (Z.of_nat (snd wk))))
      (combine slice_weights (seq 0 num_slices)) in
  match products with
  | [] =>
      (* the built-in sum of nothing is the integer 0 *)
      Py.Raise (Py.mkExc Py.AttributeError
                  "'int' object has no attribute 'round'")
  | _ => Py.Ok (IEEE.round_half_even (py_sum products))
  end.

End CenterOfMass.

(** A label volume whose entries are all zero, and the simplest one. *)
Definition all_zero (label : ndarray3 Q) : Prop :=
  let '(n0, n1, n2) := shape label in
  forall i j k : nat,
    (i < n0)%nat -> (j < n1)%nat -> (k < n2)%nat ->
    (item label (Z.of_nat i) (Z.of_nat j) (Z.of_nat k) == 0)%Q.

Definition zero_label (shape : nat * nat * nat) : ndarray3 Q :=
  mkArray shape (fun _ _ _ => 0%Q).

(** *** Locating the patch center in [new_run_inference]

    The entries of the prediction are the rationals the floats denote,
    as in [get_center_of_mass_slice]: there is no NaN among them. *)

Definition Qlt_bool (a b : Q) : bool := negb (Qle_bool b a).

(** [c[c < 0] = 0]. *)
Definition clamp_negative (c : ndarray3 Q) : ndarray3 Q :=
  mkArray (shape c)
    (fun i j k => if Qlt_bool (item c i j k) 0 then 0%Q else item c i j k).

(** [np.argmax] of a flat array: the index of the first greatest entry.
    The scan keeps the best entry so far and replaces it only by a
    strictly greater one. *)
Fixpoint argmax_from (best : Q) (best_i i : nat) (a : list Q) : nat :=
  match a with
  | [] => best_i
  | v :: a' =>
      if Qlt_bool best v then argmax_from v i (S i) a'
      else argmax_from best best_i (S i) a'
  end.

Definition np_argmax (a : list Q) : PyErr.Outcome nat :=
  match a with
  | [] =>
      PyErr.Raises PyErr.ValueError
        "attempt to get argmax of an empty sequence"
  | v :: a' => PyErr.Return (argmax_from v 0 1 a')
  end.

(** [np.unravel_index(index, shape)] for a two-dimensional shape, in
    row-major order. *)
Definition np_unravel_index (index : nat) (shape2 : nat * nat)
    : PyErr.Outcome (Z * Z) :=
  let '(n0, n1) := shape2 in
  if (index <? n0 * n1)%nat then
    PyErr.Return
      (Z.of_nat index / Z.of_nat n1, Z.of_nat index mod Z.of_nat n1)
  else
    PyErr.Raises PyErr.ValueError
      ("index " ++ PyErr.str index ++ " is out of bounds for array with size "
       ++ PyErr.str (n0 * n1)).

(** The voxel [new_run_inference] cuts the patch around:
    [max_slice_idx = np.argmax(np.sum(c, axis=(0, 1)), axis=-1)], then
    the greatest entry of that slice, its flat index turned into
    [(y, x)].  [np_sum c] stands for [np.sum(c, axis=(0, 1))], the
    array of the sums of the slices: the order in which numpy adds the
    entries of a slice, and with it the rounding of each sum, is left
    open.  The returned triple is the [center] handed to
    [extract_patch]. *)
Definition locate (np_sum : ndarray3 Q -> list Q) (c : ndarray3 Q)
    : PyErr.Outcome (Z * Z * Z) :=
  let '(n0, n1, n2) := shape c in
  max_slice_idx <~ np_argmax (np_sum c) ;;
  let max_slice :=
    map (fun ij => item c (Z.of_nat (fst ij)) (Z.of_nat (snd ij))
                     (Z.of_nat max_slice_idx))
      (list_prod (seq 0 n0) (seq 0 n1)) in
  max_idx <~ np_argmax max_slice ;;
  yx <~ np_unravel_index max_idx (n0, n1) ;;
  let '(y, x) := yx in
  PyErr.Return (x, y, Z.of_nat max_slice_idx).

(** An array of any rank, for the label as the loader hands it over:
    its shape and its entries, by index. *)
Record ndarray (A : Type) := mkNd {
  nd_shape : list nat;
  nd_item : list Z -> A
}.
Arguments mkNd {A} nd_shape nd_item.
Arguments nd_shape {A} n.
Arguments nd_item {A} n index.

(** [np.squeeze(a)]: the axes of extent 1 are dropped; an entry of the
    result is the entry of [a] with the index 0 put back on the dropped
    axes. *)
Fixpoint unsqueeze (shape : list nat) (index : list Z) : list Z :=
  match shape with
  | [] => []
  | n :: shape' =>
      if (n =? 1)%nat then 0 :: unsqueeze shape' index
      else
        match index with
        | i :: index' => i :: unsqueeze shape' index'
        | [] => []
        end
  end.

Definition np_squeeze {A} (a : ndarray A) : ndarray A :=
  mkNd (filter (fun n => negb (n =? 1)%nat) (nd_shape a))
    (fun index => nd_item a (unsqueeze (nd_shape a) index)).

(** [x_max, y_max, z_max = volume.shape], the first statement of
    [extract_patch], on an array of any rank. *)
Definition unpack_volume {A} (volume : ndarray A)
    : PyErr.Outcome (ndarray3 A) :=
  match nd_shape volume with
  | [x_max; y_max; z_max] =>
      PyErr.Return
        (mkArray (x_max, y_max, z_max)
           (fun i j k => nd_item volume [i; j; k]))
  | shape =>
      PyErr.Raises PyErr.ValueError
        (if (length shape <? 3)%nat then
           "not enough values to unpack (expected 3, got " ++
           PyErr.str (length shape) ++ ")"
         else "too many values to unpack (expected 3)")%string
  end.

(** One round of the loop of [new_run_inference], from the first
    channel [patient_mask[0]] of the prediction and from
    [data['label'].numpy()]: squeeze the label, clamp the prediction,
    locate, cut both patches.  The inference before these steps and the
    two calls of [write_nifti] after them are not part of it. *)
Definition new_run_inference_case {B} (np_sum : ndarray3 Q -> list Q)
    (patient_mask0 : ndarray3 Q) (data_label : ndarray B) :=
  let label := np_squeeze data_label in
  let c := clamp_negative patient_mask0 in
  xyz <~ locate np_sum c ;;
  let '(x, y, max_slice_idx) := xyz in
  label <~ unpack_volume label ;;
  PyErr.Return (new_run_inference_patches c label x y max_slice_idx).

(** *** Reading the split file

    [load_samples] and [load_T1_or_T2_data] read the rows of the split
    file, as [csv.reader] hands them over (a list of fields per row, the
    empty list for a blank line), and build the three lists of
    image/label paths.  The file system is seen through [isfile]; the
    logger is taken to be set up and its output is not modelled. *)

Fixpoint endswith_sep (s : string) : bool :=
  match s with
  | EmptyString => false
  | String _ EmptyString => (s =? "/")%string
  | String _ s' => endswith_sep s'
  end.

(** One step of [os.path.join] (posixpath): an absolute component
    replaces what came before, any other is appended after a separator
    unless the path is empty or ends with one. *)
Definition join_step (path b : string) : string :=
  if prefix "/" b then b
  else if (path =? "")%string || endswith_sep path then path ++ b
  else path ++ "/" ++ b.

Definition os_path_join (a : string) (p : list string) : string :=
  fold_left join_step p a.

(** The dictionary [{"image": image_name, "label": label_name}]. *)
Record FileDict := mkFileDict { fd_image : string; fd_label : string }.

Definition Split : Type := list FileDict * list FileDict * list FileDict.

(** The body of the loop over the rows.  [names] holds the local
    variables [image_name] and [label_name], which are bound together
    or not at all: [None] before the first assignment.  The text of the
    [UnboundLocalError] is the one of Python up to 3.10; later versions
    word it differently. *)
Definition read_row (data_root t : string)
    (st : Split * option (string * string)) (row : list string)
    : PyErr.Outcome (Split * option (string * string)) :=
  let '((train_files, val_files, test_files), names) := st in
  names <~
    (if (t =? "T1")%string then
       r0 <~ PyErr.getitem row 0 ;;
       PyErr.Return
         (Some (os_path_join data_root
                  ["input_data"%string; r0; "vs_gk_t1_refT1.nii.gz"%string],
                os_path_join data_root
                  ["input_data"%string; r0; "vs_gk_seg_refT1.nii.gz"%string]))
     else if (t =? "T2")%string then
       r0 <~ PyErr.getitem row 0 ;;
       PyErr.Return
         (Some (os_path_join data_root
                  ["input_data"%string; r0; "vs_gk_t2_refT2.nii.gz"%string],
                os_path_join data_root
                  ["input_data"%string; r0; "vs_gk_seg_refT2.nii.gz"%string]))
     else PyErr.Return names) ;;
  r1 <~ PyErr.getitem row 1 ;;
  let file_dict :=
    match names with
    | Some (image_name, label_name) =>
        PyErr.Return (mkFileDict image_name label_name)
    | None =>
        PyErr.Raises PyErr.UnboundLocalError
          "local variable 'image_name' referenced before assignment"
    end in
  if (r1 =? "training")%string then
    fd <~ file_dict ;;
    PyErr.Return ((train_files ++ [fd], val_files, test_files), names)
  else if (r1 =? "validation")%string then
    fd <~ file_dict ;;
    PyErr.Return ((train_files, val_files ++ [fd], test_files), names)
  else if (r1 =? "test")%string then
    fd <~ file_dict ;;
    PyErr.Return ((train_files, val_files, test_files ++ [fd]), names)
  else PyErr.Return ((train_files, val_files, test_files), names).

Definition read_rows (data_root t : string) (rows : list (list string))
    : PyErr.Outcome (Split * option (string * string)) :=
  fold_left (fun acc row => st <~ acc ;; read_row data_root t st row) rows
    (PyErr.Return (([], [], []), None)).

(** [l[:n]]. *)
Definition slice_to {A} (n : Z) (l : list A) : list A :=
  firstn (Z.to_nat (slice_index n (Z.of_nat (length l)))) l.

(** The two assertions on every entry of
    [train_files + val_files + test_files]. *)
Fixpoint check_files (isfile : string -> bool) (l : list FileDict)
    : PyErr.Outcome unit :=
  match l with
  | [] => PyErr.Return tt
  | file_dict :: l' =>
      if negb (isfile (fd_image file_dict)) then
        PyErr.Raises PyErr.AssertionError
          (" " ++ fd_image file_dict ++ " is not a file")
      else if negb (isfile (fd_label file_dict)) then
        PyErr.Raises PyErr.AssertionError
          (" " ++ fd_label file_dict ++ " is not a file")
      else check_files isfile l'
  end.

(** [load_samples(self, n=None, t="T1")], on the rows of
    [self.split_csv]. *)
Definition load_samples (isfile : string -> bool) (data_root : string)
    (rows : list (list string)) (n : option Z) (t : string)
    : PyErr.Outcome Split :=
  st <~ read_rows data_root t rows ;;
  let '((train_files, val_files, test_files), _) := st in
  let '(train_files, val_files, test_files) :=
    match n with
    | Some n =>
        (slice_to n train_files, slice_to n val_files, slice_to n test_files)
    | None => (train_files, val_files, test_files)
    end in
  _ <~ check_files isfile (train_files ++ val_files ++ test_files) ;;
  PyErr.Return (train_files, val_files, test_files).

(** [load_T1_or_T2_data(self)]: the same loop, steered by
    [self.dataset], without the limit. *)
Definition load_T1_or_T2_data (isfile : string -> bool)
    (data_root dataset : string) (rows : list (list string))
    : PyErr.Outcome Split :=
  st <~ read_rows data_root dataset rows ;;
  let '((train_files, val_files, test_files), _) := st in
  _ <~ check_files isfile (train_files ++ val_files ++ test_files) ;;
  PyErr.Return (train_files, val_files, test_files).

(** The entry a row stands for under [t], and the rows of one role. *)
Definition file_dict_of (data_root t : string) (row : list string)
    : FileDict :=
  let r0 := nth 0 row ""%string in
  if (t =? "T1")%string then
    mkFileDict
      (os_path_join data_root
         ["input_data"%string; r0; "vs_gk_t1_refT1.nii.gz"%string])
      (os_path_join data_root
         ["input_data"%string; r0; "vs_gk_seg_refT1.nii.gz"%string])
  else
    mkFileDict
      (os_path_join data_root
         ["input_data"%string; r0; "vs_gk_t2_refT2.nii.gz"%string])
      (os_path_join data_root
         ["input_data"%string; r0; "vs_gk_seg_refT2.nii.gz"%string]).

Definition has_role (role : string) (row : list string) : bool :=
  (nth 1 row "" =? role)%string.

(** Whether the second field of a row is one of the three roles. *)
Definition known_role (row : list string) : bool :=
  has_role "training" row || has_role "validation" row || has_role "test" row.

Definition entries (data_root t role : string) (rows : list (list string))
    : list FileDict :=
  map (file_dict_of data_root t) (filter (has_role role) rows).

Definition limit {A} (n : option Z) (l : list A) : list A :=
  match n with
  | Some n => slice_to n l
  | None => l
  end.

Definition files_exist (isfile : string -> bool) (l : list FileDict) : Prop :=
  Forall (fun fd => isfile (fd_image fd) = true /\ isfile (fd_label fd) = true)
    l.

(** *** The training loop

    [run_training_algorithm] and [plot_loss_curve_and_mean_dice]. *)

Section Training.

(** [rnd] rounds to float64 (it is [IEEE.float64]).  The network with
    its optimizer state ([Weights]) and the batches are left abstract:
    [train_step w lrs batch_data] is one pass of the inner training
    loop, from [optimizer.zero_grad()] to [optimizer.step()], run with
    the learning rates [lrs] of the parameter groups, and gives the new
    weights and [loss.item()]; [evaluate w val_data] gives
    [dice_score.sum().item()] and [loss.item()] for one validation
    batch, [dice_score] being the one-entry tensor of
    [compute_dice_score]; [train_loader epoch] lists the batches the
    shuffling loader yields in an epoch.  The loaders are taken to
    have a batch size, as every [DataLoader] built by this class has, so
    that the progress line logged in the first epoch can be formatted;
    of the log only the divisions that can fail are kept.  The values
    are the rationals the floats denote: no NaN, no infinity. *)
Variable rnd : Q -> Q.
Context {Weights Batch : Type}.
Variable train_step : Weights -> list Q -> Batch -> Weights * Q.
Variable evaluate : Weights -> Batch -> Q * Q.
Variable train_loader : nat -> list Batch.
Variable val_loader : list Batch.

(** [self.num_epochs], [self.val_interval], [self.epochs_with_const_lr]
    and [self.lr_divisor]. *)
Variables num_epochs val_interval epochs_with_const_lr : Z.
Variable lr_divisor : Q.

(** What the loop keeps between epochs: the network, the learning rate
    of every parameter group, the two lists it returns, the best mean
    Dice score so far with its epoch, the weights last written to
    [best_metric_model.pth] by this run, and the scalars handed to the
    TensorBoard writer, each with its step, the training loss, the
    validation loss and the mean Dice score. *)
Record TrainState := mkTrainState {
  weights : Weights;
  lr : list Q;
  epoch_loss_values : list Q;
  metric_values : list Q;
  best_metric : Q;
  best_metric_epoch : Z;
  best_metric_model : option Weights;
  tb_scalars : list (Z * Q * Q * Q)
}.

(** [a / b] for an integer [b]. *)
Definition truediv (text : string) (a : Q) (b : Z) : PyErr.Outcome Q :=
  if b =? 0 then PyErr.Raises PyErr.ZeroDivisionError text
  else PyErr.Return (rnd (a / of_int rnd b)%Q).

(** [a % b]. *)
Definition py_mod (a b : Z) : PyErr.Outcome Z :=
  if b =? 0 then
    PyErr.Raises PyErr.ZeroDivisionError
      "integer division or modulo by zero"
  else PyErr.Return (a mod b).

(** The loop over [train_loader]: the weights, [epoch_loss] and
    [step]. *)
Definition train_epoch (w : Weights) (lrs : list Q) (batches : list Batch)
    : Weights * Q * Z :=
  fold_left
    (fun '(w, epoch_loss, step) batch_data =>
       let step := step + 1 in
       let '(w, loss) := train_step w lrs batch_data in
       (w, fadd rnd epoch_loss loss, step))
    batches (w, 0%Q, 0).

(** The loop over [val_loader]: [metric_sum], [metric_count],
    [epoch_loss_val] and [step].  The three accumulations stand twice
    in the body of the loop. *)
Definition validation_epoch (w : Weights) : Q * Z * Q * Z :=
  fold_left
    (fun '(metric_sum, metric_count, epoch_loss_val, step) val_data =>
       let step := step + 1 in
       let '(dice_score, loss) := evaluate w val_data in
       let metric_count := metric_count + 1 in
       let metric_sum := fadd rnd metric_sum dice_score in
       let epoch_loss_val := fadd rnd epoch_loss_val loss in
       let metric_count := metric_count + 1 in
       let metric_sum := fadd rnd metric_sum dice_score in
       let epoch_loss_val := fadd rnd epoch_loss_val loss in
       (metric_sum, metric_count, epoch_loss_val, step))
    val_loader (0%Q, 0, 0%Q, 0).

(** The learning rate update, one parameter group after the other. *)
Fixpoint divide_learning_rates (lrs : list Q) : PyErr.Outcome (list Q) :=
  match lrs with
  | [] => PyErr.Return []
  | lr :: lrs' =>
      if Qeq_bool lr_divisor 0 then
        PyErr.Raises PyErr.ZeroDivisionError "float division by zero"
      else
        rest <~ divide_learning_rates lrs' ;;
        PyErr.Return (rnd (lr / lr_divisor)%Q :: rest)
  end.

(** The body of the loop over the epochs. *)
Definition run_epoch (st : TrainState) (epoch : nat)
    : PyErr.Outcome TrainState :=
  (* the average duration of the first epochs, for the log *)
  _ <~ (if (Z.of_nat epoch =? val_interval) && (val_interval =? 0) then
          PyErr.Raises PyErr.ZeroDivisionError "float division by zero"
        else PyErr.Return tt) ;;
  let '(w, epoch_loss, step) :=
    train_epoch (weights st) (lr st) (train_loader epoch) in
  (* calculate mean loss over current epoch *)
  epoch_loss <~ truediv "division by zero" epoch_loss step ;;
  let losses := epoch_loss_values st ++ [epoch_loss] in
  (* validation *)
  r <~ py_mod (Z.of_nat epoch + 1) val_interval ;;
  st1 <~
    (if r =? 0 then
       let '(metric_sum, metric_count, epoch_loss_val, step) :=
         validation_epoch w in
       metric <~ truediv "float division by zero" metric_sum metric_count ;;
       let metrics := metric_values st ++ [metric] in
       epoch_loss_val <~ truediv "division by zero" epoch_loss_val step ;;
       let scalars :=
         tb_scalars st ++
         [(Z.of_nat epoch, epoch_loss, epoch_loss_val, metric)] in
       if Qlt_bool (best_metric st) metric then
         (* the best Dice score so far: save the weights *)
         PyErr.Return
           (mkTrainState w (lr st) losses metrics metric
              (Z.of_nat epoch + 1) (Some w) scalars)
       else
         PyErr.Return
           (mkTrainState w (lr st) losses metrics (best_metric st)
              (best_metric_epoch st) (best_metric_model st) scalars)
     else
       PyErr.Return
         (mkTrainState w (lr st) losses (metric_values st) (best_metric st)
            (best_metric_epoch st) (best_metric_model st) (tb_scalars st))) ;;
  (* learning rate update *)
  r <~ py_mod (Z.of_nat epoch + 1) epochs_with_const_lr ;;
  if r =? 0 then
    lrs <~ divide_learning_rates (lr st1) ;;
    PyErr.Return
      (mkTrainState (weights st1) lrs (epoch_loss_values st1)
         (metric_values st1) (best_metric st1) (best_metric_epoch st1)
         (best_metric_model st1) (tb_scalars st1))
  else PyErr.Return st1.

(** The state before the first epoch, for the network [w] and an
    optimizer whose parameter groups have the learning rates [lrs]. *)
Definition initial_state (w : Weights) (lrs : list Q) : TrainState :=
  mkTrainState w lrs [] [] (-1) (-1) None [].

(** The first [k] rounds of [for epoch in range(num_epochs)]. *)
Definition run_epochs (w : Weights) (lrs : list Q) (k : nat)
    : PyErr.Outcome TrainState :=
  fold_left (fun acc epoch => st <~ acc ;; run_epoch st epoch) (seq 0 k)
    (PyErr.Return (initial_state w lrs)).

(** [run_training_algorithm], without the image grid written in debug
    mode before the loop: the returned pair
    [(epoch_loss_values, metric_values)] and the final state, whose
    weights are what [last_epoch_model.pth] receives. *)
Definition run_training_algorithm (w : Weights) (lrs : list Q)
    : PyErr.Outcome (list Q * list Q * TrainState) :=
  st <~ run_epochs w lrs (Z.to_nat num_epochs) ;;
  PyErr.Return (epoch_loss_values st, metric_values st, st).

End Training.

Arguments TrainState : clear implicits.

(** [plot_loss_curve_and_mean_dice]: the points of the two curves. *)
Definition plot_loss_curve_and_mean_dice (val_interval : Z)
    (epoch_loss_values metric_values : list Q)
    : list (Z * Q) * list (Z * Q) :=
  let x := map (fun i => Z.of_nat i + 1) (seq 0 (length epoch_loss_values)) in
  let y := epoch_loss_values in
  let loss_curve := combine x y in
  let x :=
    map (fun i => val_interval * (Z.of_nat i + 1))
      (seq 0 (length metric_values)) in
  let y := metric_values in
  (loss_curve, combine x y).

(** One learning rate update without a zero divisor, and the step and
    score of a logged scalar. *)
Definition divided (rnd : Q -> Q) (lr_divisor : Q) (lrs : list Q) : list Q :=
  map (fun lr => rnd (lr / lr_divisor)%Q) lrs.

Definition scalar_step (s : Z * Q * Q * Q) : Z := fst (fst (fst s)).

Definition scalar_metric (s : Z * Q * Q * Q) : Q := snd s.

(** A rounding and stand-ins for the network, for running the loop:
    the "weights" count the optimisation steps taken, the loss of a
    batch is the batch itself, and the Dice score falls with the
    number of steps. *)
Definition count_step (w : nat) (lrs : list Q) (batch_data : Q) : nat * Q :=
  (S w, batch_data).

Definition score_steps (w : nat) (val_data : Q) : Q * Q :=
  ((1 # Pos.of_nat (S w))%Q, val_data).

(** *** Writing masks to NIfTI files

    [save_mask_as_nifti], for a mask of shape [[N, C, D, H, W]].  The
    file system is not modelled: the function is given by the list of
    the files it hands to [write_nifti], in order, when nothing fails
    in [os.makedirs], [nib.load] and [write_nifti]; what these raise,
    for an output directory that cannot be made or a file that cannot
    be read or written, is not represented. *)

(** [f"{i:03d}"]: the decimal digits of [i], filled up with zeros on
    the left to three characters. *)
Fixpoint zeros (n : nat) : string :=
  match n with
  | O => ""
  | S n' => "0" ++ zeros n'
  end.

Definition format_03d (i : nat) : string :=
  let s := PyErr.str i in
  zeros (3 - String.length s) ++ s.

(** [f"{modality}"], for a string or [None]. *)
Definition format_modality (modality : option string) : string :=
  match modality with
  | Some s => s
  | None => "None"
  end.

(** One call of [write_nifti]: the file name, the indices [(i, c)] of
    the mask [mask[i, c]] that is written, and the reference file whose
    affine it gets, if any. *)
Record NiftiFile := mkNiftiFile {
  file_name : string;
  data : nat * nat;
  affine : option string
}.

(** The truth value of an optional list: [None] and the empty list are
    false. *)
Definition truthy {A} (l : option (list A)) : bool :=
  match l with
  | Some (_ :: _) => true
  | _ => false
  end.

Definition len {A} (l : option (list A)) : nat :=
  match l with
  | Some l => length l
  | None => 0
  end.

Definition item_of (l : option (list string)) (i : nat) : string :=
  match l with
  | Some l => nth i l ""%string
  | None => ""%string
  end.

Definition save_mask_as_nifti (mask_shape : nat * nat) (output_dir : string)
    (modality : option string) (file_prefix : string)
    (patient_ids reference_files : option (list string))
    : PyErr.Outcome (list NiftiFile) :=
  let '(num_patients, num_channels) := mask_shape in
  (* Define modality names based on channel count *)
  modality_names <~
    (if (num_channels =? 1)%nat then
       PyErr.Return [format_modality modality]
     else if (num_channels =? 2)%nat then
       PyErr.Return ["t1"%string; "t2"%string]
     else
       PyErr.Raises PyErr.ValueError
         ("Unexpected number of channels: " ++ PyErr.str num_channels ++
          ", expected 1 or 2")%string) ;;
  (* Process each patient *)
  PyErr.Return
    (flat_map
       (fun i =>
          let patient_id :=
            if truthy patient_ids && (i <? len patient_ids)%nat
            then item_of patient_ids i
            else (file_prefix ++ "_" ++ format_03d i)%string in
          let affine :=
            if truthy reference_files && (i <? len reference_files)%nat
            then Some (item_of reference_files i)
            else None in
          (* Process each channel *)
          map (fun c =>
                 let channel_modality := nth c modality_names ""%string in
                 let filename :=
                   os_path_join output_dir
                     [(patient_id ++ "_" ++ channel_modality ++
                       "_mask.nii.gz")%string] in
                 mkNiftiFile filename (i, c) affine)
            (seq 0 num_channels))
       (seq 0 num_patients)).

(** *** Loading trained parameters *)

Import stdpp.base stdpp.gmap stdpp.strings.

(** An entry of a state dict: the shape of the tensor and its entries
    in row-major order, which are only ever copied. *)
Record Entry := mkEntry { entry_shape : list nat; entry_data : list Z }.

(** The tensor torch compares with the own parameter [param] and
    copies into it: the saved tensor, or, for a zero-dimensional
    parameter and a one-dimensional saved tensor, the first entry of the
    saved tensor ([input_param = input_param[0]], kept by torch for
    checkpoints of its early versions).  Indexing an empty tensor
    raises.  No parameter of the network is lazy. *)
Definition input_param (param saved : Entry) : Py.Result Entry :=
  match entry_shape param, entry_shape saved with
  | [], [n] =>
      if bool_decide (n = 0%nat) then
        Py.Raise
          (Py.mkExc Py.IndexError
             "index 0 is out of bounds for dimension 0 with size 0")
      else Py.Ok (mkEntry [] (firstn 1 (entry_data saved)))
  | _, _ => Py.Ok saved
  end.

(** Whether taking the first entry of the tensor saved under the name
    of the own parameter [kv] raises. *)
Definition index_fails (state_dict : gmap string Entry)
    (kv : string * Entry) : bool :=
  match state_dict !! kv.1 with
  | Some q =>
      match input_param kv.2 q with
      | Py.Raise _ => true
      | Py.Ok _ => false
      end
  | None => false
  end.

(** Whether [state_dict] holds the name of the own parameter [kv] with
    another shape. *)
Definition shape_differs (state_dict : gmap string Entry)
    (kv : string * Entry) : bool :=
  match state_dict !! kv.1 with
  | Some q =>
      match input_param kv.2 q with
      | Py.Ok q' => negb (bool_decide (entry_shape q' = entry_shape kv.2))
      | Py.Raise _ => false
      end
  | None => false
  end.

Definition index_failures (own state_dict : gmap string Entry)
    : gmap string Entry :=
  filter (λ kv, index_fails state_dict kv = true) own.

Definition size_mismatches (own state_dict : gmap string Entry)
    : gmap string Entry :=
  filter (λ kv, shape_differs state_dict kv = true) own.

Definition missing_keys (own state_dict : gmap string Entry) : gset string :=
  dom own ∖ dom state_dict.

Definition unexpected_keys (own state_dict : gmap string Entry)
    : gset string :=
  dom state_dict ∖ dom own.

(** [Module.load_state_dict(state_dict, strict)] of torch, on the
    parameters [own] of the module; [state_dict] is a state dict as
    [state_dict()] gives and [torch.save] stores it.  Every own
    parameter whose name is in [state_dict] is compared with
    [input_param] and, with the same shape, overwritten in place; a name
    present with another shape is an error whatever [strict] says;
    names missing from [state_dict] and names it has in excess are
    errors only when [strict] holds.  With any error a [RuntimeError] is
    raised after the copies have been made: the result is then the
    parameters as they are left, and the error.  An [IndexError] of
    [input_param] leaves the loop at once; which parameters have been
    overwritten by then depends on the order of registration and is not
    represented.  The saved entries are dense tensors, between which a
    copy of the same shape does not fail, and the state dict carries
    the format versions of the torch at hand, so that no name is filled
    in while loading.  Of the text of the [RuntimeError], which goes on
    to list the names at fault, the beginning is kept. *)
Definition load_state_dict (own state_dict : gmap string Entry)
    (strict : bool)
    : Py.Result (gmap string Entry * option Py.Exception) :=
  if bool_decide (index_failures own state_dict = ∅) then
    let loaded :=
      map_imap
        (λ k p,
           Some match state_dict !! k with
                | Some q =>
                    match input_param p q with
                    | Py.Ok q' =>
                        if bool_decide (entry_shape q' = entry_shape p)
                        then q' else p
                    | Py.Raise _ => p
                    end
                | None => p
                end) own in
    let failed :=
      negb (bool_decide (size_mismatches own state_dict = ∅))
      || (strict
          && negb (bool_decide
                     (missing_keys own state_dict ∪
                      unexpected_keys own state_dict = ∅))) in
    Py.Ok
      (loaded,
       if failed then
         Some (Py.mkExc Py.RuntimeError "Error(s) in loading state_dict")
       else None)
  else
    Py.Raise
      (Py.mkExc Py.IndexError
         "index 0 is out of bounds for dimension 0 with size 0").

(** [load_trained_state_of_model(self, model)], on the parameters of
    [model] and on [blob], the state dict that [torch.load] has read
    from the checkpoint file: returns [model] after
    [load_state_dict(..., strict=False)]. *)
Definition load_trained_state_of_model (model blob : gmap string Entry)
    : Py.Result (gmap string Entry) :=
  match load_state_dict model blob false with
  | Py.Ok (model', None) => Py.Ok model'
  | Py.Ok (_, Some e) => Py.Raise e
  | Py.Raise e => Py.Raise e
  end.

(** [new_load_trained_state_of_model(self, model, model_path)]: the same
    with the default [strict=True]. *)
Definition new_load_trained_state_of_model (model blob : gmap string Entry)
    : Py.Result (gmap string Entry) :=
  match load_state_dict model blob true with
  | Py.Ok (model', None) => Py.Ok model'
  | Py.Ok (_, Some e) => Py.Raise e
  | Py.Raise e => Py.Raise e
  end.

(** The saved parameters do not fit the architecture: the names differ,
    or a tensor saved under a common name does not fit the parameter.
    It fits with the shape of the parameter, and also as a
    one-dimensional tensor that is not empty when the parameter is
    zero-dimensional. *)
Definition names_differ (model blob : gmap string Entry) : Prop :=
  dom model ≠ dom blob.

Definition fits (p q : Entry) : Prop :=
  entry_shape q = entry_shape p ∨
  (entry_shape p = [] ∧ ∃ n, entry_shape q = [S n]).

Definition shapes_differ (model blob : gmap string Entry) : Prop :=
  ∃ k p q, model !! k = Some p ∧ blob !! k = Some q ∧ ¬ fits p q.

(** An empty one-dimensional tensor is saved for a zero-dimensional
    parameter. *)
Definition empty_for_scalar (model blob : gmap string Entry) : Prop :=
  ∃ k p q, model !! k = Some p ∧ blob !! k = Some q ∧
           entry_shape p = [] ∧ entry_shape q = [0%nat].

(** The entry a parameter takes from a saved tensor that fits. *)
Definition taken (p q : Entry) : Entry :=
  match entry_shape p, entry_shape q with
  | [], [_] => mkEntry [] (firstn 1 (entry_data q))
  | _, _ => q
  end.

(** A model with a gate and a bottleneck, a checkpoint saved before
    the bottleneck existed, and one in which [gamma] is saved as a
    one-dimensional tensor. *)
Definition example_model : gmap string Entry :=
  {[ "gate.weight"%string := mkEntry [2; 2]%nat [0; 0; 0; 0]%Z;
     "bottleneck.gamma"%string := mkEntry []%nat [1]%Z ]}.

Definition example_blob : gmap string Entry :=
  {[ "gate.weight"%string := mkEntry [2; 2]%nat [7; 7; 7; 7]%Z ]}.

Definition example_blob_vector : gmap string Entry :=
  {[ "gate.weight"%string := mkEntry [2; 2]%nat [7; 7; 7; 7]%Z;
     "bottleneck.gamma"%string := mkEntry [1]%nat [5]%Z ]}.

End VSparams.

(** ** UNet2d5_spvPA: the architecture builder *)

Module UNet2d5_spvPA.
Import Py.

(** A kernel size or stride: one integer or a tuple of integers. *)
Inductive Size :=
| SInt (n : Z)
| STuple (t : list Z).

(** The module tree.  Leaves record the constructor arguments they were
    built with, [None] standing for an optional argument that the call
    does not pass; [forward_hooks] on an [AttentionBlock1] tells whether
    [hook_save_attention_map] has been registered on it.  The layer
    classes themselves ([Convolution], [ResidualUnit], [AttentionBlock1],
    [AttentionBlock2]) live outside the files at hand: only their
    constructor calls are embedded, and they are taken to be leaves,
    with no [AttentionBlock1] among their own submodules. *)
#[local] Unset Elimination Schemes.
Inductive nnModule :=
| Convolution (dimensions in_channels out_channels : Z)
    (strides kernel_size : Size) (act norm : option string) (dropout : Q)
    (is_transposed : option bool)
| ResidualUnit (dimensions in_channels out_channels : Z)
    (strides kernel_size : Size) (subunits : Z) (act norm : option string)
    (dropout : Q) (last_conv_only : option bool)
| AttentionBlock1 (dimensions in_channels out_channels : Z)
    (kernel_size : Size) (norm : option string) (dropout : Q)
    (forward_hooks : bool)
| AttentionBlock2 (dimensions in_channels out_channels : Z)
    (kernel_size : Size) (norm : option string) (dropout : Q)
| TransformerBottleneck3D (in_channels embed_dim num_heads hidden_dim : Z)
| Identity
| Sequential (children : list nnModule)
| SkipConnection (submodule : nnModule).
#[local] Set Elimination Schemes.

(** Induction over module trees: the children of a [Sequential] all
    satisfy the property. *)
Section nnModule_induction.
Variable P : nnModule -> Prop.
Hypothesis P_leaf :
  forall m,
    match m with
    | Sequential _ | SkipConnection _ => False
    | _ => True
    end -> P m.
Hypothesis P_Sequential : forall ms, Forall P ms -> P (Sequential ms).
Hypothesis P_SkipConnection : forall sub, P sub -> P (SkipConnection sub).

Fixpoint nnModule_ind (m : nnModule) : P m :=
  match m as m0 return P m0 with
  | Sequential ms =>
      P_Sequential ms
        ((fix all (l : list nnModule) : Forall P l :=
            match l with
            | [] => @Forall_nil _ P
            | m' :: l' => @Forall_cons _ P m' l' (nnModule_ind m') (all l')
            end) ms)
  | SkipConnection sub => P_SkipConnection sub (nnModule_ind sub)
  | Convolution d i o s k a n p t => P_leaf (Convolution d i o s k a n p t) I
  | ResidualUnit d i o s k u a n p l =>
      P_leaf (ResidualUnit d i o s k u a n p l) I
  | AttentionBlock1 d i o k n p h => P_leaf (AttentionBlock1 d i o k n p h) I
  | AttentionBlock2 d i o k n p => P_leaf (AttentionBlock2 d i o k n p) I
  | TransformerBottleneck3D i e h f =>
      P_leaf (TransformerBottleneck3D i e h f) I
  | Identity => P_leaf Identity I
  end.
End nnModule_induction.

(** A Python value handed to [nn.Sequential]: a module instance, or a
    class object such as [nn.Identity] written without the call. *)
Inductive PyObj :=
| Instance (m : nnModule)
| ClassObject (qualname : string).

(** [nn.Sequential] registers its arguments in order through
    [Module.add_module], which rejects anything that is not a module
    instance with a [TypeError]. *)
Fixpoint add_modules (args : list PyObj) : Result (list nnModule) :=
  match args with
  | [] => Ok []
  | Instance m :: rest => ms <- add_modules rest ;; Ok (m :: ms)
  | ClassObject name :: _ =>
      Raise (mkExc TypeError (name ++ " is not a Module subclass"))
  end.

Definition nn_Sequential (args : list PyObj) : Result nnModule :=
  ms <- add_modules args ;; Ok (Sequential ms).

(** The attributes [__init__] stores from its arguments. *)
Record Config := mkConfig {
  dimensions : Z;
  in_channels : Z;
  out_channels : Z;
  channels : list Z;
  strides : list Size;
  kernel_sizes : list Size;
  sample_kernel_sizes : list Size;
  num_res_units : Z;
  act : option string;
  norm : option string;
  dropout : Q;
  attention_module : bool
}.

Definition _get_att_layer (self : Config) (in_channels out_channels : Z)
    (kernel_size : Size) : Result nnModule :=
  let att1 := AttentionBlock1 (dimensions self) in_channels out_channels
                kernel_size None (dropout self) false in
  let att2 := AttentionBlock2 (dimensions self) in_channels out_channels
                kernel_size None (dropout self) in
  nn_Sequential [Instance att1; Instance att2].

Definition _get_down_layer (self : Config) (in_channels out_channels : Z)
    (kernel_size : Size) : nnModule :=
  if num_res_units self >? 0 then
    ResidualUnit (dimensions self) in_channels out_channels (SInt 1)
      kernel_size (num_res_units self) (act self) (norm self) (dropout self)
      None
  else
    Convolution (dimensions self) in_channels out_channels (SInt 1)
      kernel_size (act self) (norm self) (dropout self) None.

Definition _get_downsample_layer (self : Config)
    (in_channels out_channels : Z) (strides kernel_size : Size) : nnModule :=
  Convolution (dimensions self) in_channels out_channels strides kernel_size
    (act self) (norm self) (dropout self) (Some false).

Definition _get_bottom_layer (self : Config) (in_channels out_channels : Z)
    (kernel_size : Size) : Result nnModule :=
  let conv := _get_down_layer self in_channels out_channels kernel_size in
  modules <-
    (if attention_module self then
       att_layer <- _get_att_layer self in_channels in_channels kernel_size ;;
       Ok [Instance att_layer]
     else Ok []) ;;
  let transformer := TransformerBottleneck3D in_channels 96 4 192 in
  nn_Sequential (modules ++ [Instance transformer; Instance conv]).

Definition _get_upsample_layer (self : Config)
    (in_channels out_channels : Z) (strides up_kernel_size : Size)
    : nnModule :=
  Convolution (dimensions self) in_channels out_channels strides
    up_kernel_size (act self) (norm self) (dropout self) (Some true).

Definition _get_up_layer (self : Config) (in_channels out_channels : Z)
    (kernel_size : Size) (is_top : bool) : Result PyObj :=
  let ru := ResidualUnit (dimensions self) in_channels out_channels (SInt 1)
              kernel_size 1 (act self) (norm self) (dropout self)
              (Some is_top) in
  if attention_module self && (num_res_units self >? 0) then
    att_layer <- _get_att_layer self in_channels in_channels kernel_size ;;
    seq <- nn_Sequential [Instance att_layer; Instance ru] ;;
    Ok (Instance seq)
  else if attention_module self && negb (num_res_units self >? 0) then
    att_layer <- _get_att_layer self in_channels in_channels kernel_size ;;
    Ok (Instance att_layer)
  else if (num_res_units self >? 0) && negb (attention_module self) then
    Ok (Instance ru)
  else if negb (attention_module self) && negb (num_res_units self >? 0) then
    Ok (ClassObject "torch.nn.modules.linear.Identity")
  else
    Raise (mkExc NotImplementedError "").

(** The module tree [_get_bottom_layer] returns, written out; [hooks]
    tells whether the hook has been registered on its gate. *)
Definition bottom_block (self : Config) (c_in c_out : Z) (k : Size)
    (hooks : bool) : nnModule :=
  Sequential
    ((if attention_module self then
        [Sequential
           [AttentionBlock1 (dimensions self) c_in c_in k None (dropout self)
              hooks;
            AttentionBlock2 (dimensions self) c_in c_in k None (dropout self)]]
      else []) ++
     [TransformerBottleneck3D c_in 96 4 192;
      _get_down_layer self c_in c_out k]).

(** [_create_block]: [channels_1] is [channels[1:]]. *)
Fixpoint _create_block (self : Config) (inc outc : Z) (channels : list Z)
    (strides kernel_sizes sample_kernel_sizes : list Size) (is_top : bool)
    {struct channels} : Result nnModule :=
  match channels with
  | [] => Raise (mkExc IndexError "tuple index out of range")
  | c :: channels_1 =>
      s <- getitem strides 0 ;;
      k <- getitem kernel_sizes 0 ;;
      sk <- getitem sample_kernel_sizes 0 ;;
      (* create layer in downsampling path *)
      let down := _get_down_layer self inc c k in
      let downsample := _get_downsample_layer self c c s sk in
      subblock <-
        (if Z.of_nat (length channels) >? 2 then
           (* continue recursion down *)
           c1 <- getitem channels 1 ;;
           _create_block self c c1 channels_1 (tl strides)
             (tl kernel_sizes) (tl sample_kernel_sizes) false
         else
           (* the next layer is the bottom so stop recursion *)
           c1 <- getitem channels 1 ;;
           k1 <- getitem kernel_sizes 1 ;;
           _get_bottom_layer self c c1 k1) ;;
      c1 <- getitem channels 1 ;;
      let upsample := _get_upsample_layer self c1 c s sk in
      subblock_with_resampling <-
        nn_Sequential [Instance downsample; Instance subblock;
                       Instance upsample] ;;
      (* create layer in upsampling path *)
      up <- _get_up_layer self (2 * c) outc k is_top ;;
      nn_Sequential [Instance down;
                     Instance (SkipConnection subblock_with_resampling); up]
  end.

(** [layer.register_forward_hook(self.hook_save_attention_map)] for every
    [AttentionBlock1] met by [self.model.modules()]. *)
Fixpoint register_forward_hooks (m : nnModule) : nnModule :=
  match m with
  | AttentionBlock1 d i o k n p _ => AttentionBlock1 d i o k n p true
  | Sequential ms => Sequential (map register_forward_hooks ms)
  | SkipConnection sub => SkipConnection (register_forward_hooks sub)
  | _ => m
  end.

(** The chained comparison of the assertion in [__init__]. *)
Definition lengths_agree (self : Config) : bool :=
  (length (channels self) =? length (kernel_sizes self))%nat
  && (length (kernel_sizes self) =? length (strides self) + 1)%nat
  && (length (strides self) + 1 =? length (sample_kernel_sizes self) + 1)%nat.

(** One call of the hook on the registry: drop a full set, then append. *)
Definition store_map {T} (n_channels : nat) (att_maps : list T) (map : T)
    : list T :=
  (if (length att_maps =? n_channels)%nat then [] else att_maps) ++ [map].

Section Network.

(** Tensors and the arithmetic of the layers are left abstract:
    [leaf_forward m] is the forward function of the leaf layer [m],
    [cat x y] is [torch.cat([x, y], dim=1)] and [getitem0 outp] is
    [outp[0]]. *)
Variable Tensor : Type.
Variable leaf_forward : nnModule -> Tensor -> Tensor.
Variable cat : Tensor -> Tensor -> Tensor.
Variable getitem0 : Tensor -> Tensor.

(** The network object: its configuration, the assembled [model] and the
    attention-map registry [att_maps]. *)
Record UNet := mkUNet {
  config : Config;
  att_maps : list Tensor;
  model : nnModule
}.

Definition __init__ (cfg : Config) : Result UNet :=
  if negb (lengths_agree cfg) then Raise (mkExc AssertionError "")
  else
    model <- _create_block cfg (in_channels cfg) (out_channels cfg)
               (channels cfg) (strides cfg) (kernel_sizes cfg)
               (sample_kernel_sizes cfg) true ;;
    (* register forward hooks on all Attentionblock1 modules *)
    let model :=
      if attention_module cfg then register_forward_hooks model else model in
    Ok (mkUNet cfg [] model).

(** [hook_save_attention_map(self, module, inp, outp)], on the registry
    and [len(self.channels)]. *)
Definition hook_save_attention_map (n_channels : nat)
    (att_maps : list Tensor) (outp : Tensor) : list Tensor :=
  let att_maps :=
    if (length att_maps =? n_channels)%nat then [] else att_maps in
  att_maps ++ [getitem0 outp].

(** Calling a module: its forward function, then its forward hooks.
    The registry is threaded through the call. *)
Fixpoint call (n_channels : nat) (m : nnModule) (x : Tensor)
    (att_maps : list Tensor) {struct m} : Tensor * list Tensor :=
  match m with
  | Sequential ms =>
      (fix run (ms : list nnModule) (x : Tensor) (att_maps : list Tensor) :=
         match ms with
         | [] => (x, att_maps)
         | m :: ms' =>
             let '(y, att_maps') := call n_channels m x att_maps in
             run ms' y att_maps'
         end) ms x att_maps
  | SkipConnection sub =>
      let '(y, att_maps') := call n_channels sub x att_maps in
      (cat x y, att_maps')
  | Identity => (x, att_maps)
  | AttentionBlock1 _ _ _ _ _ _ hooks =>
      let outp := leaf_forward m x in
      (outp,
       if hooks then hook_save_attention_map n_channels att_maps outp
       else att_maps)
  | _ => (leaf_forward m x, att_maps)
  end.

(** [forward(self, x)]: returns [(x, self.att_maps)] and leaves the
    registry updated. *)
Definition forward (self : UNet) (x : Tensor) : (Tensor * list Tensor) * UNet :=
  let '(y, att_maps') :=
    call (length (channels (config self))) (model self) x (att_maps self) in
  ((y, att_maps'), mkUNet (config self) att_maps' (model self)).

(** Successive forward evaluations on the same network object. *)
Definition forward_all (self : UNet) (xs : list Tensor) : UNet :=
  fold_left (fun net x => snd (forward net x)) xs self.

(** What one evaluation feeds to the hooks: the first component of the
    output of every hooked gate, in the order the gates are run. *)
Fixpoint gate_maps (m : nnModule) (x : Tensor) {struct m}
    : Tensor * list Tensor :=
  match m with
  | Sequential ms =>
      (fix run (ms : list nnModule) (x : Tensor) :=
         match ms with
         | [] => (x, [])
         | m :: ms' =>
             let '(y, maps) := gate_maps m x in
             let '(z, maps') := run ms' y in
             (z, maps ++ maps')
         end) ms x
  | SkipConnection sub =>
      let '(y, maps) := gate_maps sub x in (cat x y, maps)
  | Identity => (x, [])
  | AttentionBlock1 _ _ _ _ _ _ hooks =>
      let outp := leaf_forward m x in
      (outp, if hooks then [getitem0 outp] else [])
  | _ => (leaf_forward m x, [])
  end.

End Network.

(** The number of first-stage gates carrying the hook. *)
Fixpoint count_gates (m : nnModule) : nat :=
  match m with
  | AttentionBlock1 _ _ _ _ _ _ hooks => if hooks then 1 else 0
  | Sequential ms => list_sum (map count_gates ms)
  | SkipConnection sub => count_gates sub
  | _ => 0
  end.

(** The number of modules of a tree that pass a test. *)
Fixpoint count_modules (test : nnModule -> bool) (m : nnModule) : nat :=
  (if test m then 1 else 0) +
  match m with
  | Sequential ms => list_sum (map (count_modules test) ms)
  | SkipConnection sub => count_modules test sub
  | _ => 0
  end.

Definition is_transformer (m : nnModule) : bool :=
  match m with TransformerBottleneck3D _ _ _ _ => true | _ => false end.

Definition is_downsampler (m : nnModule) : bool :=
  match m with
  | Convolution _ _ _ _ _ _ _ _ (Some false) => true
  | _ => false
  end.

(** The block at the bottom of the recursion: follow the sub-block
    inside every skip connection. *)
Fixpoint innermost (m : nnModule) : nnModule :=
  match m with
  | Sequential
      [_; SkipConnection (Sequential [_; subblock; _]); _] =>
      innermost subblock
  | _ => m
  end.



(** The invariant the specification puts on a configuration. *)
Definition length_invariant (cfg : Config) : Prop :=
  (length (channels cfg) = length (kernel_sizes cfg) /\
   length (kernel_sizes cfg) = length (strides cfg) + 1 /\
   length (strides cfg) + 1 = length (sample_kernel_sizes cfg) + 1)%nat.

(** Whether the text of an exception mentions [name]. *)
Definition mentions (name : string) (e : Exception) : bool :=
  match index 0 name (exc_text e) with
  | Some _ => true
  | None => false
  end.



(** The configuration of [VSparams.set_and_get_model]. *)
Definition default_config (attention : bool) (res_units : Z) : Config :=
  mkConfig 3 1 2 [16; 32; 48; 64; 80; 96]
    [STuple [2; 2; 1]; STuple [2; 2; 1]; STuple [2; 2; 2]; STuple [2; 2; 2];
     STuple [2; 2; 2]]
    [STuple [3; 3; 1]; STuple [3; 3; 1]; STuple [3; 3; 3]; STuple [3; 3; 3];
     STuple [3; 3; 3]; STuple [3; 3; 3]]
    [STuple [3; 3; 1]; STuple [3; 3; 1]; STuple [3; 3; 3]; STuple [3; 3; 3];
     STuple [3; 3; 3]]
    res_units (Some "PRELU"%string) (Some "BATCH"%string) (1 # 10) attention.

(** A small instance of the abstract tensor operations, for running a
    model: a "tensor" is the list of the input widths of the gates it
    went through, latest first. *)
Definition trace_forward (m : nnModule) (x : list Z) : list Z :=
  match m with
  | AttentionBlock1 _ i _ _ _ _ _ => i :: x
  | _ => x
  end.

Definition trace_cat (x y : list Z) : list Z := y.

Definition trace_getitem0 (outp : list Z) : list Z := outp.

(** A two-level configuration, and one whose [kernel_sizes] is one entry
    short. *)
Definition two_level_config (attention : bool) (res_units : Z) : Config :=
  mkConfig 3 1 2 [16; 32] [STuple [2; 2; 1]]
    [STuple [3; 3; 1]; STuple [3; 3; 3]] [STuple [3; 3; 1]]
    res_units (Some "PRELU"%string) (Some "INSTANCE"%string) 0 attention.

Definition short_kernel_config : Config :=
  mkConfig 3 1 2 [16; 32] [STuple [2; 2; 1]]
    [STuple [3; 3; 1]] [STuple [3; 3; 1]]
    2 (Some "PRELU"%string) (Some "INSTANCE"%string) 0 true.

Definition is_upsampler (m : nnModule) : bool :=
  match m with
  | Convolution _ _ _ _ _ _ _ _ (Some true) => true
  | _ => false
  end.

Definition is_skip (m : nnModule) : bool :=
  match m with SkipConnection _ => true | _ => false end.

(** A residual unit built with [last_conv_only=True]. *)
Definition is_output_unit (m : nnModule) : bool :=
  match m with
  | ResidualUnit _ _ _ _ _ _ _ _ _ (Some true) => true
  | _ => false
  end.

(** Channel bookkeeping by the declared widths: the number of channels
    a module hands on when it is fed [c] channels, [None] when [c] is
    not the [in_channels] a layer on the way was built with.  A layer
    built with [(in_channels, out_channels)] takes the first and gives
    the second, the transformer block gives what it takes, a
    [Sequential] chains its children and a [SkipConnection]
    concatenates its input with the output of its submodule along the
    channel axis. *)
Fixpoint channels_out (m : nnModule) (c : Z) {struct m} : option Z :=
  match m with
  | Convolution _ i o _ _ _ _ _ _
  | ResidualUnit _ i o _ _ _ _ _ _ _
  | AttentionBlock1 _ i o _ _ _ _
  | AttentionBlock2 _ i o _ _ _ => if c =? i then Some o else None
  | TransformerBottleneck3D i _ _ _ => if c =? i then Some c else None
  | Identity => Some c
  | Sequential ms =>
      (fix run (ms : list nnModule) (c : Z) : option Z :=
         match ms with
         | [] => Some c
         | m :: ms' =>
             match channels_out m c with
             | Some c' => run ms' c'
             | None => None
             end
         end) ms c
  | SkipConnection sub =>
      match channels_out sub c with
      | Some c' => Some (c + c')
      | None => None
      end
  end.

End UNet2d5_spvPA.

(** ** TransformerBottleneck3D: the refinement block *)

Module TransformerBottleneck.

(** A float32 tensor, flattened: a list of binary32 numbers (24 bits of
    precision, exponents below 128), with IEEE 754 addition and
    multiplication rounding to nearest even. *)
Definition Tensor : Type := list spec_float.

Definition f32_add : spec_float -> spec_float -> spec_float := SFadd 24 128.
Definition f32_mul : spec_float -> spec_float -> spec_float := SFmul 24 128.

(** [a + b] on tensors of one shape. *)
Fixpoint tensor_add (a b : Tensor) : Tensor :=
  match a, b with
  | x :: a', y :: b' => f32_add x y :: tensor_add a' b'
  | _, _ => []
  end.

(** [g * a] for a zero-dimensional [g]. *)
Definition tensor_scale (g : spec_float) (a : Tensor) : Tensor :=
  map (f32_mul g) a.

(** [torch.equal]: the same number of entries, pairwise [==]. *)
Fixpoint tensor_equal (a b : Tensor) : bool :=
  match a, b with
  | [], [] => true
  | x :: a', y :: b' => SFeqb x y && tensor_equal a' b'
  | _, _ => false
  end.



(** The rational a finite float stands for. *)
Definition SF2Q (f : spec_float) : Q :=
  match f with
  | S754_finite s m e =>
      let v := (inject_Z (Z.pos m) * Qpower 2 e)%Q in
      if s then Qopp v else v
  | _ => 0%Q
  end.

(** [torch.tensor(0.1)]: the Python float 0.1, the double nearest to
    1/10, converted to float32. *)
Definition float64_0_1 : spec_float :=
  SFdiv 53 1024 (SFone 53 1024) (binary_normalize 53 1024 10 0 false).

Definition to_float32 (f : spec_float) : spec_float :=
  match f with
  | S754_finite s m e => binary_round 24 128 s m e
  | _ => f
  end.

(** [self.gamma = nn.Parameter(torch.tensor(0.1))]. *)
Definition gamma_init : spec_float := to_float32 float64_0_1.

Section Forward.

(** The layers of the block and the reshaping steps, whose arithmetic is
    not modelled: the two 1x1x1 convolutions, the attention layer, the
    feed-forward network, the positional encoding for the shape of its
    argument, flattening to tokens and back. *)
Variables proj attn ffn deproj : Tensor -> Tensor.
Variable positional_encoding : Tensor -> Tensor.
Variables to_tokens from_tokens : Tensor -> Tensor.

(** The value of [x_out] in [forward]. *)
Definition x_out (x : Tensor) : Tensor :=
  let x_proj := proj x in
  let x_tokens := to_tokens x_proj in
  let pos_embed := positional_encoding x_proj in
  let x_tokens := tensor_add x_tokens pos_embed in
  let x2 := attn x_tokens in
  let x_tokens := tensor_add x_tokens x2 in
  let x_tokens := tensor_add x_tokens (ffn x_tokens) in
  let x_tokens := from_tokens x_tokens in
  deproj x_tokens.

(** [forward(self, x)]: [x + self.gamma * x_out]. *)
Definition forward (gamma : spec_float) (x : Tensor) : Tensor :=
  tensor_add x (tensor_scale gamma (x_out x)).

End Forward.

End TransformerBottleneck.

(* ================================================================== *)
(** * Part II: properties                                               *)
(* ================================================================== *)

Module PatchLocator.
Import VSparams.

Lemma get_safe_bounds_eq c margin axis :
  96 <= axis ->
  get_safe_bounds c margin axis =
    (Z.max 0 (Z.min (Z.max 0 (c - 48)) (axis - 96)),
     Z.max 0 (Z.min (Z.max 0 (c - 48)) (axis - 96)) + 95).
Proof.
  intros Ha. unfold get_safe_bounds.
  change (96 / 2) with 48.
  destruct (Z.gtb_spec (Z.max 0 (c - 48) + 96) axis) as [Hgt | Hle];
    cbv zeta; f_equal; lia.
Qed.

(** The default configuration of the specification's scenario: a volume
    of shape (200, 200, 150) and a center of 10 on an axis give the
    window 0..95. *)
Example get_safe_bounds_scenario :
  get_safe_bounds 10 48 200 = (0, 95) /\ get_safe_bounds 10 48 150 = (0, 95).
Proof. split; reflexivity. Qed.

Example get_safe_bounds_right_edge : get_safe_bounds 190 48 200 = (104, 199).
Proof. reflexivity. Qed.

(** C1. For every center [c] and every axis extent [a >= 96], the
    inclusive window [(start, end)] returned by [get_safe_bounds]
    satisfies [0 <= start], [end < a] and [end - start + 1 = 96]. *)
Theorem get_safe_bounds_window (c margin a : Z) :
  96 <= a ->
  let '(start, end_) := get_safe_bounds c margin a in
  0 <= start /\ end_ < a /\ end_ - start + 1 = 96.
Proof.
  intros Ha. rewrite (get_safe_bounds_eq c margin a Ha). lia.
Qed.

Lemma get_safe_bounds_window_witness :
  96 <= 150 /\
  let '(start, end_) := get_safe_bounds 140 48 150 in
  0 <= start /\ end_ < 150 /\ end_ - start + 1 = 96.
Proof.
  split; [lia | apply (get_safe_bounds_window 140 48 150); lia].
Defined.

Lemma get_safe_bounds_below_window (c margin a : Z) :
  a < 96 -> get_safe_bounds c margin a = (0, 95).
Proof.
  intros Ha. unfold get_safe_bounds. change (96 / 2) with 48.
  destruct (Z.gtb_spec (Z.max 0 (c - 48) + 96) a) as [Hgt | Hle];
    [| lia].
  cbv zeta. f_equal; lia.
Qed.

(** On an axis shorter than the window the crop is cut by the slicing
    rule to the whole axis: nothing is padded up to 96. *)
Lemma slice_length_short_axis (n : Z) :
  0 <= n < 96 -> slice_length 0 (95 + 1) n = n.
Proof.
  intros Hn. unfold slice_length, slice_index. simpl.
  destruct (Z.ltb_spec 0 0); lia.
Qed.

(** C10. For every center [c >= 0], every margin and every axis extent
    [0 < a < 96], [get_safe_bounds] returns exactly [(0, 95)]: the start
    is not negative, but the inclusive end 95 lies at or beyond the
    extent [a], so the window overruns the short axis; the end is not
    brought back to the extent, and the slice [0:96] taken with these
    bounds on such an axis has [a] entries, not 96: nothing is padded. *)
Theorem get_safe_bounds_short_axis (c margin a : Z) :
  0 <= c -> 0 < a < 96 ->
  get_safe_bounds c margin a = (0, 95) /\ 95 >= a /\
  slice_length 0 (95 + 1) a = a.
Proof.
  intros Hc Ha. split; [| split; [lia |]].
  - apply get_safe_bounds_below_window. lia.
  - apply slice_length_short_axis. lia.
Qed.

Lemma get_safe_bounds_short_axis_witness :
  0 <= 70 /\ 0 < 64 < 96 /\
  get_safe_bounds 70 48 64 = (0, 95) /\ 95 >= 64 /\
  slice_length 0 (95 + 1) 64 = 64.
Proof.
  split; [lia |]. split; [lia |].
  apply (get_safe_bounds_short_axis 70 48 64); lia.
Defined.

Lemma extract_patch_no_padding {A} (volume : ndarray3 A) (c : Z) n :
  (0 < n < 96)%nat -> 0 <= c ->
  shape volume = (n, n, n) ->
  shape (fst (extract_patch volume (c, c, c) 48)) = (n, n, n).
Proof.
  intros Hn Hc Hs. unfold extract_patch. rewrite Hs.
  rewrite (get_safe_bounds_below_window c 48 (Z.of_nat n)) by lia.
  unfold crop, getslice. rewrite Hs. simpl fst. simpl shape.
  rewrite slice_length_short_axis by lia.
  now rewrite Nat2Z.id.
Qed.

Lemma extract_patch_crop {A} (volume : ndarray3 A) center margin :
  fst (extract_patch volume center margin) =
  crop volume (snd (extract_patch volume center margin)).
Proof.
  unfold extract_patch.
  destruct (shape volume) as [[x_max y_max] z_max].
  destruct center as [[x y] z].
  destruct (get_safe_bounds x margin _), (get_safe_bounds y margin _),
    (get_safe_bounds z margin _).
  reflexivity.
Qed.

Lemma crop_shape {A B} (v : ndarray3 A) (w : ndarray3 B) bounds :
  shape v = shape w -> shape (crop v bounds) = shape (crop w bounds).
Proof.
  intros Hs. destruct bounds as [[[x1 x2] [y1 y2]] [z1 z2]].
  unfold crop, getslice. rewrite <- Hs.
  destruct (shape v) as [[n0 n1] n2]. reflexivity.
Qed.

Lemma extract_patch_bounds {A B} (v : ndarray3 A) (w : ndarray3 B)
    center margin :
  shape v = shape w ->
  snd (extract_patch v center margin) = snd (extract_patch w center margin).
Proof.
  intros Hs. unfold extract_patch. rewrite <- Hs.
  destruct (shape v) as [[x_max y_max] z_max].
  destruct center as [[x y] z].
  destruct (get_safe_bounds x margin _), (get_safe_bounds y margin _),
    (get_safe_bounds z margin _).
  reflexivity.
Qed.

(** C9. For a prediction volume and a label volume of identical spatial
    shape and any center, [extract_patch] derives the same bounds for
    both, and cutting both with those bounds (as [extract_patch] itself
    and [new_run_inference] do) yields two patches of identical shape. *)
Theorem extract_patch_same_shape {A B} (pred : ndarray3 A)
    (label : ndarray3 B) (x y z : Z) :
  shape pred = shape label ->
  let '(patch, label_patch, (bounds, label_bounds)) :=
    new_run_inference_patches pred label x y z in
  bounds = label_bounds /\
  patch = crop pred bounds /\
  label_patch = crop label bounds /\
  shape patch = shape label_patch.
Proof.
  intros Hs. unfold new_run_inference_patches.
  pose proof (extract_patch_bounds pred label (x, y, z) 48 Hs) as Hb.
  pose proof (extract_patch_crop pred (x, y, z) 48) as Hp.
  pose proof (extract_patch_crop label (x, y, z) 48) as Hl.
  destruct (extract_patch pred (x, y, z) 48) as [patch bounds].
  destruct (extract_patch label (x, y, z) 48) as [label_patch label_bounds].
  simpl in Hb, Hp, Hl. subst label_bounds.
  repeat split; try assumption.
  rewrite Hp, Hl. now apply crop_shape.
Qed.

Lemma extract_patch_same_shape_witness :
  shape (mkArray (200%nat, 120%nat, 150%nat) (fun i j k => i + j + k)) =
  shape (mkArray (200%nat, 120%nat, 150%nat) (fun i j k => Z.even i)) /\
  let '(patch, label_patch, (bounds, label_bounds)) :=
    new_run_inference_patches
      (mkArray (200%nat, 120%nat, 150%nat) (fun i j k => i + j + k))
      (mkArray (200%nat, 120%nat, 150%nat) (fun i j k => Z.even i))
      10 150 75 in
  bounds = label_bounds /\
  patch = crop (mkArray (200%nat, 120%nat, 150%nat) (fun i j k => i + j + k))
            bounds /\
  label_patch =
    crop (mkArray (200%nat, 120%nat, 150%nat) (fun i j k => Z.even i))
      bounds /\
  shape patch = shape label_patch.
Proof.
  split; [reflexivity |].
  apply (extract_patch_same_shape
           (mkArray (200%nat, 120%nat, 150%nat) (fun i j k => i + j + k))
           (mkArray (200%nat, 120%nat, 150%nat) (fun i j k => Z.even i))
           10 150 75).
  reflexivity.
Defined.

(** The same located voxel on a volume that is not square in its first
    two axes: the bounds of the second coordinate come from the second
    extent, and the crop applies them to the first axis. *)
Example extract_patch_bounds_example :
  snd (extract_patch
         (mkArray (200%nat, 120%nat, 150%nat) (fun i j k => i + j + k))
         (10, 150, 75) 48) = ((0, 95), (24, 119), (27, 122)).
Proof. reflexivity. Qed.

(** *** Where the window lies, and what the patch holds *)

(** X1. On an axis of at least 96 entries the window returned by
    [get_safe_bounds] contains the center it was asked for, whenever
    that center is an index of the axis. *)
Theorem get_safe_bounds_contains_center (c margin a : Z) :
  96 <= a -> 0 <= c < a ->
  let '(start, end_) := get_safe_bounds c margin a in
  start <= c <= end_.
Proof.
  intros Ha Hc. rewrite (get_safe_bounds_eq c margin a Ha). lia.
Qed.

Lemma get_safe_bounds_contains_center_witness :
  96 <= 150 /\ 0 <= 140 < 150 /\
  let '(start, end_) := get_safe_bounds 140 48 150 in
  start <= 140 <= end_.
Proof.
  split; [lia |]. split; [lia |].
  apply (get_safe_bounds_contains_center 140 48 150); lia.
Defined.

(** X2. On an axis of at least 96 entries the window is centered on
    [c], from [c - 48] to [c + 47], as long as that stays on the axis;
    a center less than 48 from the start gives the first 96 entries and
    a center less than 48 from the end gives the last 96. *)
Theorem get_safe_bounds_placement (c margin a : Z) :
  96 <= a ->
  (c < 48 -> get_safe_bounds c margin a = (0, 95)) /\
  (48 <= c <= a - 48 -> get_safe_bounds c margin a = (c - 48, c + 47)) /\
  (a - 48 < c -> get_safe_bounds c margin a = (a - 96, a - 1)).
Proof.
  intros Ha. rewrite (get_safe_bounds_eq c margin a Ha).
  repeat split; intros H; f_equal; lia.
Qed.

Lemma get_safe_bounds_placement_witness :
  96 <= 200 /\
  get_safe_bounds 10 48 200 = (0, 95) /\
  get_safe_bounds 100 48 200 = (52, 147) /\
  get_safe_bounds 190 48 200 = (104, 199).
Proof.
  split; [lia |].
  pose proof (get_safe_bounds_placement 10 48 200 ltac:(lia)) as (H1 & _ & _).
  pose proof (get_safe_bounds_placement 100 48 200 ltac:(lia)) as (_ & H2 & _).
  pose proof (get_safe_bounds_placement 190 48 200 ltac:(lia)) as (_ & _ & H3).
  split; [apply H1; lia |]. split; [apply H2; lia | apply H3; lia].
Defined.

Lemma slice_index_nonneg (s len : Z) :
  0 <= s -> 0 <= len -> slice_index s len = Z.min s len.
Proof.
  intros H1 H2. unfold slice_index. destruct (Z.ltb_spec s 0); lia.
Qed.

Lemma window_slice_length (s len : Z) :
  0 <= s -> 0 <= len ->
  slice_length s (s + 95 + 1) len = Z.max 0 (Z.min 96 (len - s)).
Proof.
  intros H1 H2. unfold slice_length.
  rewrite !slice_index_nonneg by lia. lia.
Qed.

Lemma get_safe_bounds_start (c margin a : Z) :
  0 <= a ->
  exists s, get_safe_bounds c margin a = (s, s + 95) /\
            s = Z.max 0 (Z.min (Z.max 0 (c - 48)) (a - 96)).
Proof.
  intros Ha. destruct (Z_lt_le_dec a 96) as [Hlt | Hge].
  - rewrite (get_safe_bounds_below_window c margin a Hlt).
    exists 0. split; [reflexivity | lia].
  - rewrite (get_safe_bounds_eq c margin a Hge).
    eexists. split; reflexivity.
Qed.

(** [extract_patch] on a volume of any shape: the bounds, the shape of
    the crop and its entries.  The bounds computed from the first
    extent cut the second axis, and the other way round. *)
Lemma extract_patch_unfold {A} (volume : ndarray3 A) (x y z margin : Z)
    (n0 n1 n2 : nat) :
  shape volume = (n0, n1, n2) ->
  let x1 := Z.max 0 (Z.min (Z.max 0 (x - 48)) (Z.of_nat n0 - 96)) in
  let y1 := Z.max 0 (Z.min (Z.max 0 (y - 48)) (Z.of_nat n1 - 96)) in
  let z1 := Z.max 0 (Z.min (Z.max 0 (z - 48)) (Z.of_nat n2 - 96)) in
  snd (extract_patch volume (x, y, z) margin) =
    ((x1, x1 + 95), (y1, y1 + 95), (z1, z1 + 95)) /\
  shape (fst (extract_patch volume (x, y, z) margin)) =
    (Z.to_nat (Z.min 96 (Z.of_nat n0 - y1)),
     Z.to_nat (Z.min 96 (Z.of_nat n1 - x1)),
     Z.to_nat (Z.min 96 (Z.of_nat n2 - z1))) /\
  forall i j k,
    item (fst (extract_patch volume (x, y, z) margin)) i j k =
    item volume (Z.min y1 (Z.of_nat n0) + i) (Z.min x1 (Z.of_nat n1) + j)
      (Z.min z1 (Z.of_nat n2) + k).
Proof.
  intros Hs x1 y1 z1. unfold extract_patch. rewrite Hs.
  destruct (get_safe_bounds_start x margin (Z.of_nat n0) ltac:(lia))
    as (sx & -> & Ex).
  destruct (get_safe_bounds_start y margin (Z.of_nat n1) ltac:(lia))
    as (sy & -> & Ey).
  destruct (get_safe_bounds_start z margin (Z.of_nat n2) ltac:(lia))
    as (sz & -> & Ez).
  fold x1 in Ex. fold y1 in Ey. fold z1 in Ez. subst sx sy sz.
  simpl snd. simpl fst. split; [reflexivity |].
  unfold crop, getslice. rewrite Hs. simpl shape. simpl item.
  rewrite !window_slice_length by (unfold x1, y1, z1; lia).
  rewrite !slice_index_nonneg by (unfold x1, y1, z1; lia).
  split; [| reflexivity].
  f_equal; [f_equal |]; lia.
Qed.

(** X3. On a volume whose first two extents are equal and at least 96,
    [extract_patch] returns a patch of 96 by 96 entries in plane and of
    [min(96, depth)] entries in depth, cut without padding: its entry
    [(i, j, k)] is the entry [(y1 + i, x1 + j, z1 + k)] of the volume,
    and the bounds returned with it contain every coordinate of the
    center that is an index of the volume. *)
Theorem extract_patch_square {A} (volume : ndarray3 A) (x y z margin : Z)
    (n n2 : nat) :
  shape volume = (n, n, n2) -> (96 <= n)%nat ->
  let '(patch, ((x1, x2), (y1, y2), (z1, z2))) :=
    extract_patch volume (x, y, z) margin in
  shape patch = (96, 96, Nat.min 96 n2)%nat /\
  (forall i j k, item patch i j k = item volume (y1 + i) (x1 + j) (z1 + k)) /\
  (0 <= x < Z.of_nat n -> x1 <= x <= x2) /\
  (0 <= y < Z.of_nat n -> y1 <= y <= y2) /\
  (0 <= z < Z.of_nat n2 -> z1 <= z <= z2).
Proof.
  intros Hs Hn.
  destruct (extract_patch_unfold volume x y z margin n n n2 Hs)
    as (Hb & Hsh & Hit).
  destruct (extract_patch volume (x, y, z) margin) as [patch bounds].
  cbn [fst snd] in Hb, Hsh, Hit. subst bounds. cbv zeta.
  repeat split; try lia.
  - rewrite Hsh.
    match goal with
    | |- (Z.to_nat ?a, Z.to_nat ?b, Z.to_nat ?c) = _ =>
        assert (E1 : a = 96) by lia;
        assert (E2 : b = 96) by lia;
        assert (E3 : c = Z.of_nat (Nat.min 96 n2)) by lia
    end.
    rewrite E1, E2, E3. rewrite Nat2Z.id. reflexivity.
  - intros i j k. rewrite Hit. f_equal; lia.
Qed.

Lemma extract_patch_square_witness :
  let volume := mkArray (128, 128, 64)%nat (fun i j k => i + 2 * j + 3 * k) in
  shape volume = (128, 128, 64)%nat /\ (96 <= 128)%nat /\
  let '(patch, ((x1, x2), (y1, y2), (z1, z2))) :=
    extract_patch volume (100, 20, 30) 48 in
  shape patch = (96, 96, 64)%nat /\
  (forall i j k, item patch i j k = item volume (y1 + i) (x1 + j) (z1 + k)).
Proof.
  intros volume.
  assert (H96 : (96 <= 128)%nat) by (apply Nat.leb_le; reflexivity).
  split; [reflexivity |]. split; [exact H96 |].
  pose proof (extract_patch_square volume 100 20 30 48 128 64 eq_refl H96)
    as H.
  destruct (extract_patch volume (100, 20, 30) 48)
    as [patch [[[x1 x2] [y1 y2]] [z1 z2]]].
  destruct H as (H1 & H2 & _). split; [exact H1 | exact H2].
Defined.

(** X4. On a volume whose first two extents differ (both at least 96)
    the crossed bounds show: when the first axis is the shorter one, a
    second center coordinate less than 48 from its end leaves the patch
    with fewer than 96 entries along that axis; when it is the longer
    one, a second center coordinate at or beyond the second extent lies
    outside the window returned for it. *)
Theorem extract_patch_axes_crossed {A} (volume : ndarray3 A)
    (x y z margin : Z) (n0 n1 n2 : nat) :
  shape volume = (n0, n1, n2) -> (96 <= n0)%nat -> (96 <= n1)%nat ->
  let '(patch, ((x1, x2), (y1, y2), (z1, z2))) :=
    extract_patch volume (x, y, z) margin in
  ((n0 < n1)%nat -> Z.of_nat n0 - 48 < y ->
     (fst (fst (shape patch)) < 96)%nat) /\
  ((n1 < n0)%nat -> Z.of_nat n1 <= y -> y2 < y).
Proof.
  intros Hs H0 H1.
  destruct (extract_patch_unfold volume x y z margin n0 n1 n2 Hs)
    as (Hb & Hsh & Hit).
  destruct (extract_patch volume (x, y, z) margin) as [patch bounds].
  cbn [fst snd] in Hb, Hsh, Hit. subst bounds. cbv zeta.
  split.
  - intros Hlt Hy. rewrite Hsh. cbn [fst]. lia.
  - intros Hlt Hy. lia.
Qed.

Lemma extract_patch_axes_crossed_witness :
  let volume := mkArray (100, 300, 100)%nat (fun i j k => i + j + k) in
  shape volume = (100, 300, 100)%nat /\ (96 <= 100)%nat /\ (96 <= 300)%nat /\
  (100 < 300)%nat /\ 100 - 48 < 90 /\
  (fst (fst (shape (fst (extract_patch volume (50, 90, 50)%Z 48%Z)))) < 96)%nat.
Proof.
  intros volume.
  assert (H0 : (96 <= 100)%nat) by (apply Nat.leb_le; reflexivity).
  assert (H1 : (96 <= 300)%nat) by (apply Nat.leb_le; reflexivity).
  assert (H2 : (100 < 300)%nat) by (apply Nat.ltb_lt; reflexivity).
  split; [reflexivity |]. split; [exact H0 |]. split; [exact H1 |].
  split; [exact H2 |]. split; [lia |].
  pose proof (extract_patch_axes_crossed volume 50 90 50 48 100 300 100
                eq_refl H0 H1) as H.
  destruct (extract_patch volume (50, 90, 50) 48)
    as [patch [[[x1 x2] [y1 y2]] [z1 z2]]].
  destruct H as [H _]. apply H; [exact H2 | lia].
Defined.

(** *** The located voxel *)

Lemma Qlt_bool_iff a b : Qlt_bool a b = true <-> (a < b)%Q.
Proof.
  unfold Qlt_bool. rewrite negb_true_iff.
  split.
  - intros H. apply Qnot_le_lt. intros Hle.
    apply Qle_bool_iff in Hle. congruence.
  - intros H. destruct (Qle_bool b a) eqn:E; [| reflexivity].
    apply Qle_bool_iff in E. exfalso. now apply (Qlt_not_le a b).
Qed.

(** The scan of [np.argmax], with [full] the whole array, [pre] the part
    already seen and [bi] the index of the best entry so far. *)
Lemma argmax_from_inv (full : list Q) :
  forall a pre bi,
    full = (pre ++ a)%list -> (bi < length pre)%nat ->
    (forall k, (k < length pre)%nat -> (nth k full 0 <= nth bi full 0)%Q) ->
    (forall k, (k < bi)%nat -> (nth k full 0 < nth bi full 0)%Q) ->
    let r := argmax_from (nth bi full 0%Q) bi (length pre) a in
    (r < length full)%nat /\
    (forall k, (k < length full)%nat -> (nth k full 0 <= nth r full 0)%Q) /\
    (forall k, (k < r)%nat -> (nth k full 0 < nth r full 0)%Q).
Proof.
  induction a as [| v a' IH]; intros pre bi Hfull Hbi Hmax Hfirst.
  - simpl. rewrite app_nil_r in Hfull. subst full. auto.
  - simpl.
    assert (Hv : nth (length pre) full 0%Q = v).
    { subst full. rewrite app_nth2 by lia. now rewrite Nat.sub_diag. }
    assert (Hfull' : full = ((pre ++ [v]) ++ a')%list).
    { now rewrite <- app_assoc. }
    assert (Hlen : length (pre ++ [v]) = S (length pre)).
    { rewrite length_app. simpl. lia. }
    destruct (Qlt_bool (nth bi full 0%Q) v) eqn:E.
    + apply Qlt_bool_iff in E.
      rewrite <- Hv, <- Hlen.
      apply (IH (pre ++ [v])%list (length pre)); try assumption.
      * lia.
      * intros k Hk. rewrite Hlen in Hk.
        destruct (Nat.eq_dec k (length pre)) as [-> | Hne]; [apply Qle_refl |].
        rewrite Hv. apply Qle_trans with (nth bi full 0%Q);
          [apply Hmax; lia |].
        now apply Qlt_le_weak.
      * intros k Hk. rewrite Hv.
        apply Qle_lt_trans with (nth bi full 0%Q);
          [apply Hmax; lia | exact E].
    + assert (Hle : (v <= nth bi full 0)%Q).
      { apply Qnot_lt_le. intros H. apply Qlt_bool_iff in H. congruence. }
      rewrite <- Hlen.
      apply (IH (pre ++ [v])%list bi); try assumption.
      * lia.
      * intros k Hk. rewrite Hlen in Hk.
        destruct (Nat.eq_dec k (length pre)) as [-> | Hne];
          [now rewrite Hv | apply Hmax; lia].
Qed.

(** [np.argmax] of an array that is not empty returns the index of its
    first greatest entry. *)
Lemma np_argmax_spec (a : list Q) :
  a <> [] ->
  exists r, np_argmax a = PyErr.Return r /\ (r < length a)%nat /\
    (forall k, (k < length a)%nat -> (nth k a 0 <= nth r a 0)%Q) /\
    (forall k, (k < r)%nat -> (nth k a 0 < nth r a 0)%Q).
Proof.
  destruct a as [| v a']; [congruence | intros _].
  exists (argmax_from v 0 1 a'). split; [reflexivity |].
  apply (argmax_from_inv (v :: a') a' [v] 0%nat); simpl;
    try reflexivity; try lia.
  intros k Hk. assert (k = 0%nat) as -> by lia. apply Qle_refl.
Qed.

Lemma list_prod_nth {A B} (l : list A) (l' : list B) (da : A) (db : B) i j :
  (i < length l)%nat -> (j < length l')%nat ->
  nth (i * length l' + j) (list_prod l l') (da, db) = (nth i l da, nth j l' db).
Proof.
  revert i. induction l as [| a l IH]; intros i Hi Hj; [simpl in Hi; lia |].
  simpl list_prod. destruct i as [| i].
  - simpl. rewrite app_nth1 by (rewrite length_map; lia).
    rewrite (nth_indep _ _ (a, db)) by (rewrite length_map; lia).
    now rewrite (map_nth (pair a)).
  - rewrite app_nth2 by (rewrite length_map; simpl; lia).
    rewrite length_map.
    replace (S i * length l' + j - length l')%nat with (i * length l' + j)%nat
      by (simpl; lia).
    simpl in Hi. rewrite IH by lia. reflexivity.
Qed.

Lemma clamp_negative_nonneg (c : ndarray3 Q) i j k :
  (0 <= item (clamp_negative c) i j k)%Q.
Proof.
  unfold clamp_negative. simpl.
  destruct (Qlt_bool (item c i j k) 0) eqn:E; [apply Qle_refl |].
  apply Qnot_lt_le. intros H. apply Qlt_bool_iff in H. congruence.
Qed.

(** On a volume without an empty axis [locate] returns a voxel of the
    volume, greatest in its slice. *)
Lemma locate_spec (np_sum : ndarray3 Q -> list Q) (c : ndarray3 Q)
    (n0 n1 n2 : nat) :
  shape c = (n0, n1, n2) -> (1 <= n0)%nat -> (1 <= n1)%nat -> (1 <= n2)%nat ->
  length (np_sum c) = n2 ->
  exists x y z,
    locate np_sum c = PyErr.Return (x, y, z) /\
    (0 <= y < Z.of_nat n0 /\ 0 <= x < Z.of_nat n1 /\ 0 <= z < Z.of_nat n2) /\
    (forall i j, (i < n0)%nat -> (j < n1)%nat ->
       (item c (Z.of_nat i) (Z.of_nat j) z <= item c y x z)%Q).
Proof.
  intros Hs H0 H1 H2 Hsum. unfold locate. rewrite Hs.
  destruct (np_argmax_spec (np_sum c)) as (r1 & -> & Hr1 & _).
  { intros E. rewrite E in Hsum. simpl in Hsum. lia. }
  rewrite Hsum in Hr1. cbn [PyErr.bind].
  set (g := fun ij : nat * nat =>
              item c (Z.of_nat (fst ij)) (Z.of_nat (snd ij)) (Z.of_nat r1)).
  assert (Hlen : length (map g (list_prod (seq 0 n0) (seq 0 n1))) =
                 (n0 * n1)%nat).
  { now rewrite length_map, length_prod, !length_seq. }
  destruct (np_argmax_spec (map g (list_prod (seq 0 n0) (seq 0 n1))))
    as (r2 & -> & Hr2 & Hmax & _).
  { intros E. rewrite E in Hlen. simpl in Hlen. nia. }
  rewrite Hlen in Hr2, Hmax. cbn [PyErr.bind]. unfold np_unravel_index.
  destruct (Nat.ltb_spec r2 (n0 * n1)) as [_ | ?]; [| lia].
  cbn [PyErr.bind].
  assert (Hnth : forall i j, (i < n0)%nat -> (j < n1)%nat ->
            nth (i * n1 + j) (map g (list_prod (seq 0 n0) (seq 0 n1))) 0%Q =
            item c (Z.of_nat i) (Z.of_nat j) (Z.of_nat r1)).
  { intros i j Hi Hj.
    rewrite (nth_indep _ 0%Q (g (0%nat, 0%nat))) by (rewrite Hlen; nia).
    rewrite map_nth.
    pose proof (list_prod_nth (seq 0 n0) (seq 0 n1) 0%nat 0%nat i j) as E.
    rewrite !length_seq in E. rewrite E by assumption.
    rewrite !seq_nth by assumption. reflexivity. }
  exists (Z.of_nat r2 mod Z.of_nat n1), (Z.of_nat r2 / Z.of_nat n1),
    (Z.of_nat r1).
  split; [reflexivity |].
  assert (Hy : 0 <= Z.of_nat r2 / Z.of_nat n1 < Z.of_nat n0).
  { split; [apply Z.div_pos; lia |].
    apply Z.div_lt_upper_bound; nia. }
  assert (Hx : 0 <= Z.of_nat r2 mod Z.of_nat n1 < Z.of_nat n1).
  { apply Z.mod_pos_bound. lia. }
  split; [repeat split; lia |].
  intros i j Hi Hj.
  rewrite <- (Hnth i j Hi Hj).
  assert (Er : r2 = (Z.to_nat (Z.of_nat r2 / Z.of_nat n1) * n1 +
                     Z.to_nat (Z.of_nat r2 mod Z.of_nat n1))%nat).
  { pose proof (Z.div_mod (Z.of_nat r2) (Z.of_nat n1) ltac:(lia)). nia. }
  pose proof (Hnth (Z.to_nat (Z.of_nat r2 / Z.of_nat n1))
                (Z.to_nat (Z.of_nat r2 mod Z.of_nat n1)) ltac:(lia) ltac:(lia))
    as Hv.
  rewrite <- Er in Hv. rewrite !Z2Nat.id in Hv by lia.
  rewrite <- Hv. apply Hmax. nia.
Qed.

(** The rank of a squeezed label decides whether it can be unpacked. *)
Lemma unpack_volume_cases {A} (volume : ndarray A) :
  (length (nd_shape volume) = 3%nat ->
   exists label, unpack_volume volume = PyErr.Return label) /\
  (length (nd_shape volume) <> 3%nat ->
   exists text, unpack_volume volume = PyErr.Raises PyErr.ValueError text).
Proof.
  unfold unpack_volume.
  destruct (nd_shape volume) as [| a [| b [| c [| d l]]]]; cbn [length];
    split; intros H; try lia; try congruence; eexists; reflexivity.
Qed.

(** X5. One round of [new_run_inference] from the prediction to the
    two patches, for a prediction of finite numbers whose first two
    extents are equal and at least 96 and that has at least one slice,
    whatever the order in which numpy adds up the slices.  When the
    label, once squeezed, has three axes left, locating the voxel and
    cutting the two patches raise nothing; the voxel located is a voxel
    of the volume, the greatest of its slice after the negative entries
    have been set to zero (so not negative); the patch has 96 by 96
    entries in plane and
    [min(96, depth)] in depth; and the located voxel lies inside the
    patch, at its own coordinates less the patch's lower bounds.  When
    squeezing leaves the label with another number of axes, as it does
    for a label of shape [(1, 1, n, n, 1)] with a single slice, the
    round raises a [ValueError] in [extract_patch], before anything is
    written. *)
Theorem new_run_inference_patch_holds_maximum {B}
    (np_sum : ndarray3 Q -> list Q) (patient_mask0 : ndarray3 Q)
    (data_label : ndarray B) (n n2 : nat) :
  shape patient_mask0 = (n, n, n2) -> (96 <= n)%nat -> (1 <= n2)%nat ->
  let c := clamp_negative patient_mask0 in
  length (np_sum c) = n2 ->
  (length (nd_shape (np_squeeze data_label)) <> 3%nat ->
   exists text,
     new_run_inference_case np_sum patient_mask0 data_label =
       PyErr.Raises PyErr.ValueError text) /\
  (length (nd_shape (np_squeeze data_label)) = 3%nat ->
   exists x y z patch label_patch x1 x2 y1 y2 z1 z2 label_bounds,
     locate np_sum c = PyErr.Return (x, y, z) /\
     new_run_inference_case np_sum patient_mask0 data_label =
       PyErr.Return (patch, label_patch,
                     (((x1, x2), (y1, y2), (z1, z2)), label_bounds)) /\
     (0 <= y < Z.of_nat n /\ 0 <= x < Z.of_nat n /\ 0 <= z < Z.of_nat n2) /\
     shape patch = (96, 96, Nat.min 96 n2)%nat /\
     (0 <= y - y1 < 96 /\ 0 <= x - x1 < 96 /\
      0 <= z - z1 < Z.of_nat (Nat.min 96 n2)) /\
     item patch (y - y1) (x - x1) (z - z1) = item c y x z /\
     (0 <= item c y x z)%Q /\
     (forall i j, (i < n)%nat -> (j < n)%nat ->
        (item c (Z.of_nat i) (Z.of_nat j) z <= item c y x z)%Q)).
Proof.
  intros Hs Hn Hn2 c Hsum.
  assert (Hsc : shape c = (n, n, n2)) by exact Hs.
  destruct (locate_spec np_sum c n n n2 Hsc ltac:(lia) ltac:(lia) Hn2 Hsum)
    as (x & y & z & Hloc & Hrange & Hmax).
  destruct (unpack_volume_cases (np_squeeze data_label)) as [Hok Hbad].
  unfold new_run_inference_case. fold c. rewrite Hloc. cbn [PyErr.bind].
  split.
  { intros Hrank. destruct (Hbad Hrank) as [text ->]. exists text.
    reflexivity. }
  intros Hrank. destruct (Hok Hrank) as [label ->]. cbn [PyErr.bind].
  unfold new_run_inference_patches.
  destruct (extract_patch_unfold c x y z 48 n n n2 Hsc) as (Hb & Hsh & Hit).
  destruct (extract_patch c (x, y, z) 48) as [patch bounds].
  destruct (extract_patch label (x, y, z) 48) as [label_patch label_bounds].
  cbn [fst snd] in Hb, Hsh, Hit. subst bounds.
  eexists x, y, z, patch, label_patch, _, _, _, _, _, _, label_bounds.
  split; [reflexivity |]. split; [reflexivity |].
  split; [exact Hrange |].
  split.
  { rewrite Hsh.
    match goal with
    | |- (Z.to_nat ?a, Z.to_nat ?b, Z.to_nat ?c) = _ =>
        assert (E1 : a = 96) by lia;
        assert (E2 : b = 96) by lia;
        assert (E3 : c = Z.of_nat (Nat.min 96 n2)) by lia
    end.
    rewrite E1, E2, E3. rewrite Nat2Z.id. reflexivity. }
  split.
  { clear - Hrange Hn. lia. }
  split.
  { rewrite Hit. f_equal; clear - Hrange Hn; lia. }
  split; [apply clamp_negative_nonneg | exact Hmax].
Qed.

Lemma new_run_inference_patch_holds_maximum_witness :
  let mask := mkArray (96, 96, 2)%nat (fun i j k => inject_Z (i + j - 100)) in
  let np_sum := fun c : ndarray3 Q => map (slice_sum (fun q => q) c) [0; 1]%nat in
  let data_label :=
    mkNd [1; 1; 96; 96; 2]%nat (fun index : list Z => true) in
  shape mask = (96, 96, 2)%nat /\ (96 <= 96)%nat /\ (1 <= 2)%nat /\
  length (np_sum (clamp_negative mask)) = 2%nat /\
  length (nd_shape (np_squeeze data_label)) = 3%nat /\
  exists x y z patch label_patch x1 x2 y1 y2 z1 z2 label_bounds,
    locate np_sum (clamp_negative mask) = PyErr.Return (x, y, z) /\
    new_run_inference_case np_sum mask data_label =
      PyErr.Return (patch, label_patch,
                    (((x1, x2), (y1, y2), (z1, z2)), label_bounds)) /\
    (0 <= y < 96 /\ 0 <= x < 96 /\ 0 <= z < 2) /\
    item patch (y - y1) (x - x1) (z - z1) = item (clamp_negative mask) y x z.
Proof.
  intros mask np_sum data_label. split; [reflexivity |]. split; [apply le_n |].
  split; [apply Nat.leb_le; reflexivity |].
  split; [reflexivity |]. split; [reflexivity |].
  destruct (proj2 (new_run_inference_patch_holds_maximum np_sum mask
                     data_label 96 2 eq_refl (le_n 96)
                     (proj1 (Nat.leb_le 1 2) eq_refl) eq_refl) eq_refl)
    as (x & y & z & patch & label_patch & x1 & x2 & y1 & y2 & z1 & z2 & lb &
        H1 & H2 & H3 & _ & _ & H6 & _).
  exists x, y, z, patch, label_patch, x1, x2, y1, y2, z1, z2, lb.
  repeat split; try assumption; try lia.
Defined.

(** A label with a single slice: squeezing leaves two axes, and the
    round stops in [extract_patch]. *)
Example new_run_inference_single_slice :
  let mask := mkArray (96, 96, 1)%nat (fun i j k => inject_Z (i + j - 100)) in
  let np_sum := fun c : ndarray3 Q => map (slice_sum (fun q => q) c) [0]%nat in
  let data_label := mkNd [1; 1; 96; 96; 1]%nat (fun index : list Z => true) in
  nd_shape (np_squeeze data_label) = [96; 96]%nat /\
  new_run_inference_case np_sum mask data_label =
    PyErr.Raises PyErr.ValueError
      "not enough values to unpack (expected 3, got 2)".
Proof.
  intros mask np_sum data_label. split; [reflexivity |].
  vm_compute. reflexivity.
Qed.

End PatchLocator.

(** ** Rounding to a binary format *)

Module Rounding.
Import IEEE.
Local Open Scope Q_scope.

Lemma round_half_even_floor q :
  (Qfloor q <= round_half_even q <= Qfloor q + 1)%Z.
Proof.
  unfold round_half_even.
  destruct (Qcompare _ _); [destruct (Z.even _) | |]; lia.
Qed.

Lemma round_half_even_near q :
  q - (1 # 2) <= inject_Z (round_half_even q) /\
  inject_Z (round_half_even q) <= q + (1 # 2).
Proof.
  unfold round_half_even.
  pose proof (Qfloor_le q) as Hl. pose proof (Qlt_floor q) as Hu.
  rewrite inject_Z_plus in Hu. change (inject_Z 1) with 1 in Hu.
  destruct (Qcompare_spec (q - inject_Z (Qfloor q)) (1 # 2)) as [E | L | G].
  - destruct (Z.even _); [| rewrite inject_Z_plus; change (inject_Z 1) with 1];
      lra.
  - lra.
  - rewrite inject_Z_plus. change (inject_Z 1) with 1. lra.
Qed.

Lemma round_half_even_Z q k : q == inject_Z k -> round_half_even q = k.
Proof.
  intros E. unfold round_half_even.
  assert (F : Qfloor q = k) by (rewrite E; apply Qfloor_Z).
  rewrite F.
  destruct (Qcompare_spec (q - inject_Z k) (1 # 2)) as [H | H | H].
  - lra.
  - reflexivity.
  - lra.
Qed.

Lemma round_half_even_mono q1 q2 :
  q1 <= q2 -> (round_half_even q1 <= round_half_even q2)%Z.
Proof.
  intros H.
  pose proof (Qfloor_resp_le _ _ H) as Hf.
  destruct (Z.eq_dec (Qfloor q1) (Qfloor q2)) as [E | N].
  - unfold round_half_even. cbv zeta. rewrite E.
    destruct (Qcompare_spec (q1 - inject_Z (Qfloor q2)) (1 # 2)) as [E1 | L1 | G1];
    destruct (Qcompare_spec (q2 - inject_Z (Qfloor q2)) (1 # 2)) as [E2 | L2 | G2];
      try lia; try lra; destruct (Z.even _); lia.
  - pose proof (round_half_even_floor q1). pose proof (round_half_even_floor q2).
    lia.
Qed.

(** Powers of two. *)
Lemma pow2_pos (e : Z) : 0 < 2 ^ e.
Proof. apply Qpower_0_lt. reflexivity. Qed.

Lemma pow2_add (a b : Z) : 2 ^ (a + b) == 2 ^ a * 2 ^ b.
Proof. apply Qpower_plus. discriminate. Qed.

Lemma pow2_sub (a b : Z) : 2 ^ (a - b) == 2 ^ a / 2 ^ b.
Proof. apply Qpower_minus. discriminate. Qed.

Lemma pow2_Z (n : Z) : (0 <= n)%Z -> 2 ^ n == inject_Z (2 ^ n).
Proof. intros H. now rewrite Zpower_Qpower. Qed.

Lemma pow2_le (a b : Z) : (a <= b)%Z -> 2 ^ a <= 2 ^ b.
Proof. intros H. apply Qpower_le_compat_l; [exact H | discriminate]. Qed.

Lemma pow2_lt_inv (a b : Z) : 2 ^ a < 2 ^ b -> (a < b)%Z.
Proof. intros H. apply (Qpower_lt_compat_l_inv 2); [exact H | reflexivity]. Qed.

(** [Qlog2 x] is the binary exponent of a positive [x]. *)
Lemma Qlog2_spec (x : Q) :
  0 < x -> 2 ^ Qlog2 x <= x /\ x < 2 ^ (Qlog2 x + 1).
Proof.
  intros Hx. unfold Qlog2.
  destruct x as [a b]. unfold Qlt in Hx. simpl in Hx. rewrite Z.mul_1_r in Hx.
  cbn [Qnum Qden].
  set (la := Z.log2 a). set (lb := Z.log2 (Z.pos b)).
  assert (Ha : (0 < a)%Z) by lia.
  destruct (Z.log2_spec a Ha) as [A1 A2]. fold la in A1, A2.
  destruct (Z.log2_spec (Z.pos b) (Pos2Z.is_pos b)) as [B1 B2].
  fold lb in B1, B2.
  assert (Hla : (0 <= la)%Z) by apply Z.log2_nonneg.
  assert (Hlb : (0 <= lb)%Z) by apply Z.log2_nonneg.
  assert (Ex : a # b == inject_Z a / inject_Z (Z.pos b)) by apply Qmake_Qdiv.
  assert (PA1 : 2 ^ la <= inject_Z a).
  { rewrite pow2_Z by lia. now rewrite <- Zle_Qle. }
  assert (PA2 : inject_Z a < 2 * 2 ^ la).
  { rewrite pow2_Z by lia. change 2 with (inject_Z 2) at 1.
    rewrite <- inject_Z_mult, <- Zlt_Qlt.
    replace (Z.succ la) with (1 + la)%Z in A2 by lia.
    rewrite Z.pow_add_r in A2 by lia. exact A2. }
  assert (PB1 : 2 ^ lb <= inject_Z (Z.pos b)).
  { rewrite pow2_Z by lia. now rewrite <- Zle_Qle. }
  assert (PB2 : inject_Z (Z.pos b) < 2 * 2 ^ lb).
  { rewrite pow2_Z by lia. change 2 with (inject_Z 2) at 1.
    rewrite <- inject_Z_mult, <- Zlt_Qlt.
    replace (Z.succ lb) with (1 + lb)%Z in B2 by lia.
    rewrite Z.pow_add_r in B2 by lia. exact B2. }
  pose proof (pow2_pos la) as Pa. pose proof (pow2_pos lb) as Pb.
  set (A := inject_Z a) in *. set (B := inject_Z (Z.pos b)) in *.
  set (PA := 2 ^ la) in *. set (PB := 2 ^ lb) in *.
  assert (HB : 0 < B) by lra.
  assert (Hd : 2 ^ (la - lb) == PA / PB) by apply pow2_sub.
  destruct (Qle_bool (2 ^ (la - lb)) (a # b)) eqn:T.
  - apply Qle_bool_iff in T. split; [exact T |].
    rewrite pow2_add, Hd, Ex. change (2 ^ 1) with 2.
    apply Qlt_shift_div_r; [exact HB |].
    setoid_replace (PA / PB * 2 * B) with (2 * PA * (B / PB))
      using relation Qeq by (field; lra).
    assert (1 <= B / PB) by (apply Qle_shift_div_l; lra).
    nra.
  - assert (T' : a # b < 2 ^ (la - lb)).
    { apply Qnot_le_lt. intros C. apply Qle_bool_iff in C. congruence. }
    split.
    + replace (la - lb - 1)%Z with (la - lb + -1)%Z by lia.
      rewrite pow2_add, Hd, Ex. change (2 ^ (-1)) with (1 # 2).
      apply Qle_shift_div_l; [exact HB |].
      setoid_replace (PA / PB * (1 # 2) * B) with (PA * (B / (2 * PB)))
        using relation Qeq by (field; lra).
      assert (B / (2 * PB) <= 1) by (apply Qle_shift_div_r; lra).
      nra.
    + replace (la - lb - 1 + 1)%Z with (la - lb)%Z by lia. exact T'.
Qed.

Lemma Qlog2_unique (x : Q) (d : Z) :
  2 ^ d <= x -> x < 2 ^ (d + 1) -> Qlog2 x = d.
Proof.
  intros H1 H2.
  assert (Hx : 0 < x) by (pose proof (pow2_pos d); lra).
  destruct (Qlog2_spec x Hx) as [L1 L2].
  assert (d < Qlog2 x + 1)%Z by (apply pow2_lt_inv; lra).
  assert (Qlog2 x < d + 1)%Z by (apply pow2_lt_inv; lra).
  lia.
Qed.

Lemma Qlog2_mono (x y : Q) : 0 < x -> x <= y -> (Qlog2 x <= Qlog2 y)%Z.
Proof.
  intros Hx Hxy.
  destruct (Qlog2_spec x Hx) as [L1 L2].
  destruct (Qlog2_spec y) as [M1 M2]; [lra |].
  assert (Qlog2 x < Qlog2 y + 1)%Z by (apply pow2_lt_inv; lra).
  lia.
Qed.

(** Rounding of zero and of positive numbers. *)
Lemma round_float_zero prec emin (x : Q) : x == 0 -> round_float prec emin x = 0.
Proof.
  destruct x as [[| n | n] d]; intros E; try discriminate. reflexivity.
Qed.

Lemma round_float_pos prec emin (x : Q) :
  0 < x ->
  round_float prec emin x =
  inject_Z (round_half_even (x / 2 ^ Z.max (Qlog2 x - (prec - 1)) emin))
  * 2 ^ Z.max (Qlog2 x - (prec - 1)) emin.
Proof.
  destruct x as [[| n | n] d]; intros H; try discriminate. reflexivity.
Qed.

Lemma round_float_nonneg prec emin (x : Q) :
  0 <= x -> 0 <= round_float prec emin x.
Proof.
  intros H. destruct (Qlt_le_dec 0 x) as [Hx | Hx].
  - rewrite round_float_pos by exact Hx.
    set (e := Z.max _ _). pose proof (pow2_pos e) as He.
    apply Qmult_le_0_compat; [| lra].
    change 0 with (inject_Z 0). rewrite <- Zle_Qle.
    pose proof (round_half_even_floor (x / 2 ^ e)) as [Hf _].
    assert (0 <= Qfloor (x / 2 ^ e))%Z; [| lia].
    change 0%Z with (Qfloor 0). apply Qfloor_resp_le.
    apply Qle_shift_div_l; lra.
  - rewrite round_float_zero by lra. apply Qle_refl.
Qed.

(** A number whose scaled value is an integer is its own rounding. *)
Lemma round_float_exact prec emin (x : Q) (m : Z) :
  0 < x ->
  x / 2 ^ Z.max (Qlog2 x - (prec - 1)) emin == inject_Z m ->
  round_float prec emin x == x.
Proof.
  intros Hx Hm. rewrite round_float_pos by exact Hx.
  set (e := Z.max _ _) in *. pose proof (pow2_pos e) as He.
  rewrite (round_half_even_Z _ _ Hm), <- Hm. field. lra.
Qed.

Lemma round_float_mono_pos prec emin (x y : Q) :
  (1 <= prec)%Z -> 0 < x -> x <= y ->
  round_float prec emin x <= round_float prec emin y.
Proof.
  intros Hp Hx Hxy. assert (Hy : 0 < y) by lra.
  rewrite !round_float_pos by assumption.
  pose proof (Qlog2_mono x y Hx Hxy) as Hl.
  destruct (Qlog2_spec x Hx) as [X1 X2]. destruct (Qlog2_spec y Hy) as [Y1 Y2].
  set (lx := Qlog2 x) in *. set (ly := Qlog2 y) in *.
  set (ex := Z.max (lx - (prec - 1)) emin).
  set (ey := Z.max (ly - (prec - 1)) emin).
  pose proof (pow2_pos ex) as Pex. pose proof (pow2_pos ey) as Pey.
  destruct (Z.eq_dec ex ey) as [E | N].
  - rewrite <- E. apply Qmult_le_compat_r; [| lra].
    rewrite <- Zle_Qle. apply round_half_even_mono.
    apply Qmult_le_compat_r; [exact Hxy |].
    apply Qlt_le_weak, Qinv_lt_0_compat, Pex.
  - assert (Hey : ey = (ly - (prec - 1))%Z) by lia.
    assert (Hlt : (lx < ly)%Z) by lia.
    apply Qle_trans with (2 ^ ly).
    + (* the rounding of x stays below the next power of two *)
      assert (Hk : (0 <= ly - ex)%Z) by lia.
      assert (Hq : x / 2 ^ ex <= inject_Z (2 ^ (ly - ex))).
      { rewrite <- pow2_Z by exact Hk. rewrite pow2_sub.
        apply Qmult_le_compat_r;
          [| apply Qlt_le_weak, Qinv_lt_0_compat, Pex].
        apply Qle_trans with (2 ^ (lx + 1)); [lra | apply pow2_le; lia]. }
      apply round_half_even_mono in Hq.
      rewrite (round_half_even_Z (inject_Z (2 ^ (ly - ex))) (2 ^ (ly - ex)))
        in Hq by reflexivity.
      rewrite Zle_Qle in Hq. rewrite <- pow2_Z in Hq by exact Hk.
      apply Qle_trans with (2 ^ (ly - ex) * 2 ^ ex).
      * apply Qmult_le_compat_r; [exact Hq | lra].
      * rewrite <- pow2_add. replace (ly - ex + ex)%Z with ly by lia.
        apply Qle_refl.
    + (* the rounding of y stays above its own power of two *)
      assert (Hk : (0 <= prec - 1)%Z) by lia.
      assert (Hq : inject_Z (2 ^ (prec - 1)) <= y / 2 ^ ey).
      { rewrite <- pow2_Z by exact Hk.
        replace (prec - 1)%Z with (ly - ey)%Z by lia. rewrite pow2_sub.
        apply Qmult_le_compat_r;
          [exact Y1 | apply Qlt_le_weak, Qinv_lt_0_compat, Pey]. }
      apply round_half_even_mono in Hq.
      rewrite (round_half_even_Z (inject_Z (2 ^ (prec - 1))) (2 ^ (prec - 1)))
        in Hq by reflexivity.
      rewrite Zle_Qle in Hq. rewrite <- pow2_Z in Hq by exact Hk.
      apply Qle_trans with (2 ^ (prec - 1) * 2 ^ ey).
      * rewrite <- pow2_add. replace (prec - 1 + ey)%Z with ly by lia.
        apply Qle_refl.
      * apply Qmult_le_compat_r; [exact Hq | lra].
Qed.

Lemma round_float_mono prec emin (x y : Q) :
  (1 <= prec)%Z -> 0 <= x -> x <= y ->
  round_float prec emin x <= round_float prec emin y.
Proof.
  intros Hp Hx Hxy. destruct (Qlt_le_dec 0 x) as [H | H].
  - now apply round_float_mono_pos.
  - rewrite (round_float_zero prec emin x) by lra.
    apply round_float_nonneg. lra.
Qed.


(** Integers up to 2^53 are double-precision numbers. *)
Lemma float64_int (k : Z) :
  (0 <= k <= 2 ^ 53)%Z -> float64 (inject_Z k) == inject_Z k.
Proof.
  intros Hk. unfold float64.
  destruct (Z.eq_dec k 0) as [-> | N0]; [reflexivity |].
  destruct (Z.eq_dec k (2 ^ 53)) as [-> | N1]; [vm_compute; reflexivity |].
  assert (Hpos : 0 < inject_Z k).
  { change 0 with (inject_Z 0). rewrite <- Zlt_Qlt. lia. }
  destruct (Z.log2_spec k) as [L1 L2]; [lia |].
  assert (Hl : (0 <= Z.log2 k <= 52)%Z).
  { split; [apply Z.log2_nonneg |].
    assert (Z.log2 k < 53)%Z; [| lia].
    apply Z.log2_lt_pow2; lia. }
  assert (El : Qlog2 (inject_Z k) = Z.log2 k).
  { apply Qlog2_unique.
    - rewrite pow2_Z by lia. now rewrite <- Zle_Qle.
    - rewrite pow2_Z by lia. rewrite <- Zlt_Qlt.
      now replace (Z.log2 k + 1)%Z with (Z.succ (Z.log2 k)) by lia. }
  apply (round_float_exact 53 (-1074) (inject_Z k) (k * 2 ^ (52 - Z.log2 k)));
    [exact Hpos |].
  rewrite El. replace (Z.max (Z.log2 k - (53 - 1)) (-1074))
    with (- (52 - Z.log2 k))%Z by lia.
  rewrite Qpower_opp, inject_Z_mult, <- pow2_Z by lia.
  pose proof (pow2_pos (52 - Z.log2 k)). field. lra.
Qed.

(** From 2^-63 upwards the rounding error is at most 2^-53 of the
    number. *)
Lemma float64_rel (x : Q) :
  1 # 9223372036854775808 <= x ->
  float64 x <= x * (1 + (1 # 9007199254740992)).
Proof.
  intros H0. unfold float64.
  assert (Hx : 0 < x) by lra.
  rewrite round_float_pos by exact Hx.
  destruct (Qlog2_spec x Hx) as [L1 L2].
  assert (Hl : (-63 <= Qlog2 x)%Z).
  { assert (-63 < Qlog2 x + 1)%Z; [| lia].
    apply pow2_lt_inv. change (2 ^ (-63)) with (1 # 9223372036854775808).
    lra. }
  set (l := Qlog2 x) in *.
  replace (Z.max (l - (53 - 1)) (-1074)) with (l - 52)%Z by lia.
  pose proof (pow2_pos (l - 52)) as Pe.
  destruct (round_half_even_near (x / 2 ^ (l - 52))) as [_ Hr].
  apply Qle_trans with ((x / 2 ^ (l - 52) + (1 # 2)) * 2 ^ (l - 52)).
  - apply Qmult_le_compat_r; [exact Hr | lra].
  - setoid_replace ((x / 2 ^ (l - 52) + (1 # 2)) * 2 ^ (l - 52))
      with (x + (1 # 2) * 2 ^ (l - 52)) using relation Qeq by (field; lra).
    assert (E : (1 # 2) * 2 ^ (l - 52) == 2 ^ l * (1 # 9007199254740992)).
    { replace (l - 52)%Z with (l + -52)%Z by lia. rewrite pow2_add.
      change (2 ^ (-52)) with (1 # 4503599627370496).
      setoid_replace (1 # 9007199254740992)
        with ((1 # 2) * (1 # 4503599627370496)) using relation Qeq
        by reflexivity.
      ring. }
    rewrite E. nra.
Qed.

(** Two ties that go to the even neighbour below, and a power of two. *)
Lemma float64_ties :
  float64 (1 + (1 # 9007199254740992)) == 1 /\
  float64 (inject_Z (2 ^ 53) + 1) == inject_Z (2 ^ 53) /\
  float64 (inject_Z (2 ^ 63)) == inject_Z (2 ^ 63).
Proof. repeat split; vm_compute; reflexivity. Qed.

Lemma round_float_neg prec emin (x : Q) :
  x < 0 -> round_float prec emin x = - round_float prec emin (- x).
Proof.
  destruct x as [[| n | n] d]; intros H; try discriminate. reflexivity.
Qed.

(** Rounding is monotone on all rationals. *)
Lemma round_float_monotone prec emin (x y : Q) :
  (1 <= prec)%Z -> x <= y ->
  round_float prec emin x <= round_float prec emin y.
Proof.
  intros Hp Hxy. destruct (Qlt_le_dec x 0) as [Hx | Hx].
  - rewrite (round_float_neg prec emin x Hx).
    assert (Rx : 0 <= round_float prec emin (- x))
      by (apply round_float_nonneg; lra).
    destruct (Qlt_le_dec y 0) as [Hy | Hy].
    + rewrite (round_float_neg prec emin y Hy).
      apply Qopp_le_compat, round_float_mono; [exact Hp | lra | lra].
    + pose proof (round_float_nonneg prec emin y Hy). lra.
  - now apply round_float_mono.
Qed.

(** *** Numbers of the format are their own rounding *)

Lemma round_half_even_nonneg q : 0 <= q -> (0 <= round_half_even q)%Z.
Proof.
  intros H. pose proof (round_half_even_floor q) as [Hf _].
  assert (0 <= Qfloor q)%Z; [| lia].
  change 0%Z with (Qfloor 0). now apply Qfloor_resp_le.
Qed.

(** An integer multiple [N * 2^e] of a unit in the last place, with [N]
    of at most [prec] bits or the power [2^prec] itself, is a number of
    the format. *)
Lemma round_float_multiple prec emin (N e t : Z) :
  (1 <= prec)%Z -> (emin <= e)%Z -> (0 <= t <= prec)%Z ->
  (1 <= N <= 2 ^ t)%Z ->
  round_float prec emin (inject_Z N * 2 ^ e) == inject_Z N * 2 ^ e.
Proof.
  intros Hp He Ht HN.
  pose proof (pow2_pos e) as Pe.
  assert (HNq : 1 <= inject_Z N).
  { change 1 with (inject_Z 1). rewrite <- Zle_Qle. lia. }
  assert (Hy : 0 < inject_Z N * 2 ^ e) by nra.
  destruct (Z.log2_spec N) as [L1 L2]; [lia |].
  set (j := Z.log2 N) in *.
  assert (Hj0 : (0 <= j)%Z) by apply Z.log2_nonneg.
  assert (Hjt : (j <= t)%Z).
  { rewrite <- (Z.log2_pow2 t) by lia. apply Z.log2_le_mono. lia. }
  assert (El : Qlog2 (inject_Z N * 2 ^ e) = (j + e)%Z).
  { apply Qlog2_unique.
    - rewrite pow2_add. apply Qmult_le_compat_r; [| lra].
      rewrite pow2_Z by lia. now rewrite <- Zle_Qle.
    - replace (j + e + 1)%Z with (Z.succ j + e)%Z by lia.
      rewrite pow2_add. apply Qmult_lt_compat_r; [lra |].
      rewrite pow2_Z by lia. now rewrite <- Zlt_Qlt. }
  destruct (Z_lt_le_dec j prec) as [Hlt | Hge].
  - (* the exponent does not grow *)
    set (ey := Z.max (j + e - (prec - 1)) emin).
    assert (Hey : (ey <= e)%Z) by (unfold ey; lia).
    apply (round_float_exact prec emin _ (N * 2 ^ (e - ey))); [exact Hy |].
    rewrite El. fold ey.
    rewrite inject_Z_mult, <- pow2_Z by lia. rewrite pow2_sub.
    pose proof (pow2_pos ey). field. lra.
  - (* N is the power 2 ^ prec *)
    assert (j = prec) by lia.
    assert (EN : N = (2 ^ prec)%Z).
    { assert (2 ^ prec <= 2 ^ j)%Z by (apply Z.pow_le_mono_r; lia).
      assert (2 ^ t <= 2 ^ prec)%Z by (apply Z.pow_le_mono_r; lia). lia. }
    apply (round_float_exact prec emin _ (2 ^ (prec - 1))); [exact Hy |].
    rewrite El.
    replace (Z.max (j + e - (prec - 1)) emin) with (e + 1)%Z by lia.
    rewrite EN. rewrite <- !pow2_Z by lia.
    rewrite pow2_add. change (2 ^ 1) with 2.
    replace prec with (prec - 1 + 1)%Z at 1 by lia.
    rewrite pow2_add. change (2 ^ 1) with 2.
    pose proof (pow2_pos (prec - 1)). field. lra.
Qed.

Lemma round_float_idem_pos prec emin (x : Q) :
  (1 <= prec)%Z -> 0 < x ->
  round_float prec emin (round_float prec emin x) == round_float prec emin x.
Proof.
  intros Hp Hx. rewrite (round_float_pos prec emin x Hx).
  destruct (Qlog2_spec x Hx) as [X1 X2].
  set (l := Qlog2 x) in *.
  set (e := Z.max (l - (prec - 1)) emin).
  pose proof (pow2_pos e) as Pe.
  set (N := round_half_even (x / 2 ^ e)).
  assert (HN0 : (0 <= N)%Z).
  { apply round_half_even_nonneg. apply Qle_shift_div_l; lra. }
  destruct (Z.eq_dec N 0) as [E0 | N0].
  { rewrite E0. rewrite round_float_zero by ring. ring. }
  set (t := Z.max 0 (l + 1 - e)).
  assert (HNt : (N <= 2 ^ t)%Z).
  { assert (Hq : x / 2 ^ e <= inject_Z (2 ^ t)).
    { rewrite <- pow2_Z by (unfold t; lia).
      apply Qle_shift_div_r; [exact Pe |].
      rewrite <- pow2_add.
      apply Qle_trans with (2 ^ (l + 1)); [lra |].
      apply pow2_le. unfold t. lia. }
    apply round_half_even_mono in Hq.
    now rewrite (round_half_even_Z (inject_Z (2 ^ t)) (2 ^ t)) in Hq
      by reflexivity. }
  apply (round_float_multiple prec emin N e t); unfold t, e; try lia.
  fold e. fold t. lia.
Qed.

(** Rounding twice is rounding once. *)
Lemma round_float_idem prec emin (x : Q) :
  (1 <= prec)%Z ->
  round_float prec emin (round_float prec emin x) == round_float prec emin x.
Proof.
  intros Hp. destruct (Q_dec 0 x) as [[H | H] | H].
  - now apply round_float_idem_pos.
  - rewrite (round_float_neg prec emin x H).
    set (y := round_float prec emin (- x)).
    assert (Hy : 0 <= y) by (apply round_float_nonneg; lra).
    destruct (Qlt_le_dec 0 y) as [Hpos | Hzero].
    + rewrite (round_float_neg prec emin (- y)) by lra.
      assert (E : round_float prec emin (- - y) == y).
      { assert (Ey : round_float prec emin (- - y) = round_float prec emin y).
        { destruct y as [n d]. unfold Qopp. simpl.
          now rewrite Z.opp_involutive. }
        rewrite Ey. unfold y. apply round_float_idem_pos; [exact Hp | lra]. }
      rewrite E. reflexivity.
    + rewrite round_float_zero by lra. lra.
  - rewrite (round_float_zero prec emin x) by (symmetry; exact H).
    reflexivity.
Qed.

End Rounding.

(** ** The slice closest to the center of mass *)

Module CenterOfMass.
Import Py IEEE VSparams.
Local Open Scope Q_scope.

Lemma round_half_even_bounds (q : Q) (m : Z) :
  0 <= q -> q <= inject_Z m ->
  (0 <= round_half_even q <= m)%Z.
Proof.
  intros H0 Hm. unfold round_half_even.
  pose proof (Qfloor_le q) as Hfl.
  pose proof (Qlt_floor q) as Hfu.
  assert (Hf0 : (0 <= Qfloor q)%Z).
  { change 0%Z with (Qfloor 0). now apply Qfloor_resp_le. }
  assert (Hfm : (Qfloor q <= m)%Z).
  { rewrite <- (Qfloor_Z m). now apply Qfloor_resp_le. }
  destruct (Qcompare_spec (q - inject_Z (Qfloor q)) (1 # 2)) as [E | L | G].
  - destruct (Z.even (Qfloor q)); [lia |].
    assert (Qfloor q <> m); [| lia].
    intros Efm. rewrite Efm in E. lra.
  - lia.
  - assert (Qfloor q <> m); [| lia].
    intros Efm. rewrite Efm in G. lra.
Qed.

Section AnyRounding.
Variable rnd : Q -> Q.
Variable rnd_label : Q -> Q.

(** What is used of the float64 rounding: it is monotone; it leaves the
    integers up to 2^53 unchanged; from 2^-63 upwards its relative error
    is at most 2^-53; the ties 1 + 2^-53 and 2^53 + 1 go down to 1 and
    to 2^53; and 2^63 is not rounded up.  Of the rounding of the label's
    element type: it leaves zero unchanged. *)
Hypothesis rnd_mono : forall x y, x <= y -> rnd x <= rnd y.
Hypothesis rnd_int :
  forall k, (0 <= k <= 2 ^ 53)%Z -> rnd (inject_Z k) == inject_Z k.
Hypothesis rnd_rel :
  forall x, 1 # 9223372036854775808 <= x ->
            rnd x <= x * (1 + (1 # 9007199254740992)).
Hypothesis rnd_tie_1 : rnd (1 + (1 # 9007199254740992)) <= 1.
Hypothesis rnd_tie_53 : rnd (inject_Z (2 ^ 53) + 1) <= inject_Z (2 ^ 53).
Hypothesis rnd_pow_63 : rnd (inject_Z (2 ^ 63)) <= inject_Z (2 ^ 63).
Hypothesis rnd_label_zero : forall x, x == 0 -> rnd_label x == 0.

Local Abbreviation fadd := (fadd rnd).
Local Abbreviation fmul := (fmul rnd).
Local Abbreviation of_int := (of_int rnd).
Local Abbreviation py_sum := (py_sum rnd).

#[local] Instance rnd_proper : Proper (Qeq ==> Qeq) rnd.
Proof.
  intros x y E. apply Qle_antisym; apply rnd_mono; rewrite E; apply Qle_refl.
Qed.

Lemma rnd_zero (x : Q) : x == 0 -> rnd x == 0.
Proof. intros ->. apply (rnd_int 0). lia. Qed.

(** Summing zeros gives zero. *)
Lemma fold_fadd_zeros (l : list Q) :
  Forall (fun v => v == 0) l ->
  forall acc, acc == 0 -> fold_left fadd l acc == 0.
Proof.
  induction 1 as [| v l Hv _ IH]; intros acc Ha; simpl; [exact Ha |].
  apply IH. unfold VSparams.fadd. apply rnd_zero. rewrite Ha, Hv. reflexivity.
Qed.

Lemma py_sum_zeros (l : list Q) :
  Forall (fun v => v == 0) l -> py_sum l == 0.
Proof. intros H. apply fold_fadd_zeros; [exact H | reflexivity]. Qed.

Lemma slice_sum_zero (label : ndarray3 Q) (z : nat) :
  all_zero label -> (z < snd (shape label))%nat ->
  slice_sum rnd_label label z == 0.
Proof.
  unfold all_zero, slice_sum. destruct (shape label) as [[n0 n1] n2].
  cbn [snd]. intros Hz Hn.
  assert (Hin : Forall (fun ij => (fst ij < n0)%nat /\ (snd ij < n1)%nat)
                  (list_prod (seq 0 n0) (seq 0 n1))).
  { apply Forall_forall. intros [i j] Hij.
    apply in_prod_iff in Hij as [Hi Hj]. apply in_seq in Hi, Hj.
    cbn [fst snd]. lia. }
  revert Hin. generalize (list_prod (seq 0 n0) (seq 0 n1)) as l.
  assert (G : forall l acc,
    Forall (fun ij => (fst ij < n0)%nat /\ (snd ij < n1)%nat) l ->
    acc == 0 ->
    fold_left
      (fun acc ij =>
         rnd_label
           (acc + item label (Z.of_nat (fst ij)) (Z.of_nat (snd ij))
                    (Z.of_nat z))) l acc == 0).
  { induction l as [| ij l IH]; intros acc Hl Ha; simpl; [exact Ha |].
    inversion Hl as [| ? ? [Hi Hj] Hl']; subst.
    apply IH; [exact Hl' |]. apply rnd_label_zero.
    rewrite Ha, (Hz _ _ _ Hi Hj Hn). reflexivity. }
  intros l Hl. apply G; [exact Hl | reflexivity].
Qed.

(** Adding up numbers between 0 and 1 onto an accumulator below the
    integer [m] stays below [m] plus their count, and never passes
    2^53, where adding 1 no longer changes a float64. *)
Lemma fold_fadd_bound (ps : list Q) :
  Forall (fun p => 0 <= p /\ p <= 1) ps ->
  forall acc m,
    (0 <= m)%Z ->
    0 <= acc -> acc <= inject_Z (Z.min m (2 ^ 53)) ->
    0 <= fold_left fadd ps acc /\
    fold_left fadd ps acc
      <= inject_Z (Z.min (m + Z.of_nat (length ps)) (2 ^ 53)).
Proof.
  induction 1 as [| p ps [Hp0 Hp1] _ IH]; intros acc m Hm Ha0 Ham.
  - simpl. rewrite Z.add_0_r. split; assumption.
  - cbn [fold_left]. cbn [length].
    replace (m + Z.of_nat (S (length ps)))%Z
      with (m + 1 + Z.of_nat (length ps))%Z by lia.
    apply IH; [lia | |].
    + rewrite <- (rnd_zero 0) by reflexivity. apply rnd_mono. lra.
    + destruct (Z_lt_le_dec m (2 ^ 53)) as [Hlt | Hge].
      * rewrite Z.min_l in Ham |- * by lia.
        rewrite <- (rnd_int (m + 1)) by lia. apply rnd_mono.
        rewrite inject_Z_plus. change (inject_Z 1) with 1. lra.
      * rewrite Z.min_r in Ham |- * by lia.
        apply Qle_trans with (rnd (inject_Z (2 ^ 53) + 1));
          [apply rnd_mono; lra | exact rnd_tie_53].
Qed.

(** The uniform weight [1.0 / num_slices]: its products with the slice
    indices lie between 0 and 1, and the one with index 0 is 0. *)
Lemma uniform_weight_products (n : Z) :
  (1 <= n < 2 ^ 63)%Z ->
  forall k, (0 <= k < n)%Z ->
    0 <= fmul (rnd (1 / of_int n)) (of_int k) /\
    fmul (rnd (1 / of_int n)) (of_int k) <= 1.
Proof.
  intros Hn k Hk. unfold VSparams.fmul, VSparams.of_int.
  assert (R0 : rnd 0 == 0) by (apply rnd_zero; reflexivity).
  assert (R1 : rnd 1 == 1) by (apply (rnd_int 1); lia).
  (* the divisor and the index, as float64 numbers *)
  assert (HN1 : 1 <= rnd (inject_Z n)).
  { rewrite <- R1. apply rnd_mono. change 1 with (inject_Z 1).
    rewrite <- Zle_Qle. lia. }
  assert (HN2 : rnd (inject_Z n) <= 9223372036854775808).
  { apply Qle_trans with (rnd (inject_Z (2 ^ 63))); [| exact rnd_pow_63].
    apply rnd_mono. rewrite <- Zle_Qle. lia. }
  assert (HK0 : 0 <= rnd (inject_Z k)).
  { rewrite <- R0. apply rnd_mono. change 0 with (inject_Z 0).
    rewrite <- Zle_Qle. lia. }
  assert (HK1 : rnd (inject_Z k) <= rnd (inject_Z n)).
  { apply rnd_mono. rewrite <- Zle_Qle. lia. }
  set (N := rnd (inject_Z n)) in *. set (K := rnd (inject_Z k)) in *.
  (* the weight *)
  set (x := 1 / N).
  assert (Hxn : x * N == 1) by (unfold x; field; lra).
  assert (Hx0 : 1 # 9223372036854775808 <= x)
    by (unfold x; apply Qle_shift_div_l; lra).
  pose proof (rnd_rel x Hx0) as Hw.
  assert (Hw0 : 0 <= rnd x).
  { rewrite <- R0. apply rnd_mono. lra. }
  set (w := rnd x) in *.
  (* the product *)
  assert (Hp0 : 0 <= w * K) by now apply Qmult_le_0_compat.
  assert (Hp1 : w * K <= 1 + (1 # 9007199254740992)).
  { apply Qle_trans with (w * N).
    - rewrite (Qmult_comm w K), (Qmult_comm w N).
      now apply Qmult_le_compat_r.
    - apply Qle_trans with (x * (1 + (1 # 9007199254740992)) * N).
      + apply Qmult_le_compat_r; [exact Hw | lra].
      + setoid_replace (x * (1 + (1 # 9007199254740992)) * N)
          with (x * N * (1 + (1 # 9007199254740992)))
          using relation Qeq by ring.
        rewrite Hxn. lra. }
  split.
  - rewrite <- R0. now apply rnd_mono.
  - apply Qle_trans with (rnd (1 + (1 # 9007199254740992)));
      [now apply rnd_mono | exact rnd_tie_1].
Qed.

Lemma uniform_weight_product_0 (n : Z) :
  fmul (rnd (1 / of_int n)) (of_int 0) == 0.
Proof.
  unfold VSparams.fmul. apply rnd_zero.
  assert (E0 : of_int 0 == 0) by (apply (rnd_int 0); lia).
  rewrite E0. ring.
Qed.

Lemma combine_repeat_seq {A} (w : A) (m a : nat) :
  combine (repeat w m) (seq a m) = map (fun k => (w, k)) (seq a m).
Proof.
  revert a. induction m as [| m IH]; intros a; simpl; [reflexivity |].
  now rewrite IH.
Qed.

(** With any rounding that meets the assumptions above, an all-zero
    label takes the branch of the uniform weights and the index lies in
    range. *)
Lemma center_of_mass_rounded (label : ndarray3 Q) :
  all_zero label ->
  (1 <= snd (shape label))%nat ->
  (Z.of_nat (snd (shape label)) < 2 ^ 63)%Z ->
  exists s,
    get_center_of_mass_slice rnd rnd_label label = Ok s /\
    s = round_half_even
          (py_sum
             (map (fun k =>
                     fmul (rnd (1 / of_int (Z.of_nat (snd (shape label)))))
                       (of_int (Z.of_nat k)))
                (seq 0 (snd (shape label))))) /\
    (0 <= s < Z.of_nat (snd (shape label)))%Z.
Proof.
  intros Hz Hn1 Hn2. unfold get_center_of_mass_slice.
  set (n := snd (shape label)) in *.
  set (w := rnd (1 / of_int (Z.of_nat n))).
  set (h := fun k : nat => fmul w (of_int (Z.of_nat k))).
  (* no label: the slice masses add up to zero *)
  assert (Hm : Qeq_bool
                 (py_sum (map (fun z => rnd (slice_sum rnd_label label z))
                            (seq 0 n))) 0 = true).
  { apply Qeq_bool_iff, py_sum_zeros, Forall_forall.
    intros v Hv. apply in_map_iff in Hv as (z & <- & Hin).
    apply in_seq in Hin. apply rnd_zero, slice_sum_zero; [exact Hz | lia]. }
  rewrite Hm.
  (* the divisor of the uniform weights is not zero *)
  assert (Hd : Qeq_bool (of_int (Z.of_nat n)) 0 = false).
  { destruct (Qeq_bool (of_int (Z.of_nat n)) 0) eqn:E; [| reflexivity].
    apply Qeq_bool_iff in E.
    assert (1 <= of_int (Z.of_nat n)).
    { rewrite <- (rnd_int 1) by lia. apply rnd_mono.
      rewrite <- Zle_Qle. lia. }
    lra. }
  destruct n as [| n'] eqn:Dn; [lia |].
  cbn [repeat np_divide]. rewrite Hd. cbn [bind].
  change (1%Q :: repeat 1%Q n') with (repeat 1%Q (S n')).
  rewrite map_repeat. fold w.
  rewrite combine_repeat_seq, map_map. cbn [fst snd]. fold h.
  cbn [seq map]. eexists. split; [reflexivity |]. split; [reflexivity |].
  (* the weighted sum lies between 0 and n - 1 *)
  unfold VSparams.py_sum. cbn [fold_left].
  assert (H0 : fadd 0 (h 0%nat) == 0).
  { unfold VSparams.fadd. apply rnd_zero.
    unfold h, w. rewrite uniform_weight_product_0. reflexivity. }
  assert (Hps : Forall (fun p => 0 <= p /\ p <= 1) (map h (seq 1 n'))).
  { apply Forall_forall. intros p Hp.
    apply in_map_iff in Hp as (k & <- & Hk). apply in_seq in Hk.
    unfold h, w. apply uniform_weight_products; lia. }
  destruct (fold_fadd_bound (map h (seq 1 n')) Hps (fadd 0 (h 0%nat)) 0)
    as [L U]; try lia.
  - rewrite H0. apply Qle_refl.
  - rewrite H0. apply Qle_refl.
  - rewrite length_map, length_seq in U.
    assert (U' : fold_left fadd (map h (seq 1 n')) (fadd 0 (h 0%nat))
                 <= inject_Z (Z.of_nat n')).
    { apply Qle_trans with (1 := U). rewrite <- Zle_Qle. lia. }
    pose proof (round_half_even_bounds _ _ L U'). lia.
Qed.

End AnyRounding.

(** C6. For every label volume whose entries are all zero and whose
    depth axis has [n >= 1] slices ([n] below 2^63, as every extent of an
    array is), [get_center_of_mass_slice], run in float64 with the label
    summed in any binary format, raises nothing, no division error in
    particular: it falls back to the uniform weights, every slice
    weighing the rounded [1 / n], and returns a slice index in the range
    [0, n). *)
Theorem center_of_mass_all_zero (label : ndarray3 Q) (prec emin : Z) :
  all_zero label ->
  (1 <= snd (shape label))%nat ->
  (Z.of_nat (snd (shape label)) < 2 ^ 63)%Z ->
  exists s,
    get_center_of_mass_slice float64 (round_float prec emin) label = Ok s /\
    s = round_half_even
          (py_sum float64
             (map (fun k =>
                     fmul float64
                       (float64
                          (1 / of_int float64 (Z.of_nat (snd (shape label)))))
                       (of_int float64 (Z.of_nat k)))
                (seq 0 (snd (shape label))))) /\
    (0 <= s < Z.of_nat (snd (shape label)))%Z.
Proof.
  destruct Rounding.float64_ties as (T1 & T53 & P63).
  apply center_of_mass_rounded.
  - intros x y. apply Rounding.round_float_monotone. lia.
  - exact Rounding.float64_int.
  - exact Rounding.float64_rel.
  - rewrite T1. apply Qle_refl.
  - rewrite T53. apply Qle_refl.
  - rewrite P63. apply Qle_refl.
  - intros x Hx. now rewrite Rounding.round_float_zero.
Qed.

Lemma center_of_mass_all_zero_witness :
  all_zero (zero_label (4, 4, 10)%nat) /\
  (1 <= snd (shape (zero_label (4, 4, 10)%nat)))%nat /\
  (Z.of_nat (snd (shape (zero_label (4, 4, 10)%nat))) < 2 ^ 63)%Z /\
  exists s,
    get_center_of_mass_slice float64 float32 (zero_label (4, 4, 10)%nat)
      = Ok s /\
    (0 <= s < 10)%Z.
Proof.
  assert (Hz : all_zero (zero_label (4, 4, 10)%nat)).
  { intros i j k _ _ _. reflexivity. }
  assert (H1 : (1 <= snd (shape (zero_label (4, 4, 10)%nat)))%nat).
  { simpl. lia. }
  assert (H2 : (Z.of_nat (snd (shape (zero_label (4, 4, 10)%nat)))
                < 2 ^ 63)%Z).
  { simpl. lia. }
  split; [exact Hz |]. split; [exact H1 |]. split; [exact H2 |].
  destruct (center_of_mass_all_zero (zero_label (4, 4, 10)%nat) 24 (-149)
              Hz H1 H2) as (s & Hs & _ & Hr).
  exists s. split; [exact Hs | exact Hr].
Defined.

(** The rounding shows in the result: over ten empty slices the
    weighted sum comes out just above 4.5 and the index is 5, where
    exact arithmetic would give 4.5 and the even neighbour 4. *)
Example center_of_mass_ten_slices :
  get_center_of_mass_slice float64 float32 (zero_label (4, 4, 10)%nat) = Ok 5%Z
  /\ get_center_of_mass_slice (fun q => q) (fun q => q)
       (zero_label (4, 4, 10)%nat) = Ok 4%Z.
Proof. split; vm_compute; reflexivity. Qed.

(** A volume without slices has no index to return. *)
Example center_of_mass_no_slice :
  get_center_of_mass_slice float64 float32 (zero_label (4, 4, 0)%nat) =
  Raise (mkExc AttributeError "'int' object has no attribute 'round'").
Proof. reflexivity. Qed.

(** *** A label that lies in one slice *)

Section OneSlice.
Variable rnd : Q -> Q.

(** What is used of the float64 rounding here: it is monotone and it
    leaves the integers up to 2^53 unchanged. *)
Hypothesis rnd_mono : forall x y, x <= y -> rnd x <= rnd y.
Hypothesis rnd_int :
  forall k, (0 <= k <= 2 ^ 53)%Z -> rnd (inject_Z k) == inject_Z k.

Local Abbreviation fadd := (fadd rnd).
Local Abbreviation fmul := (fmul rnd).
Local Abbreviation of_int := (of_int rnd).
Local Abbreviation py_sum := (py_sum rnd).

#[local] Instance rnd_compat : Proper (Qeq ==> Qeq) rnd.
Proof.
  intros x y E. apply Qle_antisym; apply rnd_mono; rewrite E; apply Qle_refl.
Qed.

Lemma fold_fadd_compat (l : list Q) :
  forall a b, a == b -> fold_left fadd l a == fold_left fadd l b.
Proof.
  induction l as [| v l IH]; intros a b E; simpl; [exact E |].
  apply IH. unfold VSparams.fadd. now rewrite E.
Qed.

(** Adding zeros to a float64 number leaves it as it is. *)
Lemma fold_fadd_zeros_keep (l : list Q) :
  Forall (fun v => v == 0) l ->
  forall acc, rnd acc == acc -> fold_left fadd l acc == acc.
Proof.
  induction 1 as [| v l Hv _ IH]; intros acc Ha; simpl; [reflexivity |].
  assert (E : fadd acc v == acc).
  { unfold VSparams.fadd. rewrite Hv, Qplus_0_r. exact Ha. }
  rewrite (fold_fadd_compat l _ _ E). now apply IH.
Qed.

(** The sum of a sequence whose only entry other than zero is [v]. *)
Lemma py_sum_one_entry (f : nat -> Q) (n z0 : nat) (v : Q) :
  (z0 < n)%nat ->
  (forall k, (k < n)%nat -> k <> z0 -> f k == 0) ->
  f z0 == v -> rnd v == v ->
  py_sum (map f (seq 0 n)) == v.
Proof.
  intros Hz Hf Hv Hr.
  assert (R0 : rnd 0 == 0) by (apply (rnd_int 0); lia).
  replace n with (z0 + (1 + (n - z0 - 1)))%nat by lia.
  rewrite !seq_app, !map_app. unfold VSparams.py_sum.
  rewrite !fold_left_app. cbn [seq map fold_left].
  assert (E1 : fold_left fadd (map f (seq 0 z0)) 0 == 0).
  { apply fold_fadd_zeros_keep; [| exact R0].
    apply Forall_forall. intros w Hw. apply in_map_iff in Hw as (k & <- & Hk).
    apply in_seq in Hk. apply Hf; lia. }
  assert (E2 : fadd (fold_left fadd (map f (seq 0 z0)) 0) (f (0 + z0)%nat) == v).
  { unfold VSparams.fadd at 1. rewrite E1. simpl Nat.add. rewrite Hv, Qplus_0_l.
    exact Hr. }
  rewrite (fold_fadd_compat _ _ _ E2).
  apply fold_fadd_zeros_keep; [| exact Hr].
  apply Forall_forall. intros w Hw. apply in_map_iff in Hw as (k & <- & Hk).
  apply in_seq in Hk. apply Hf; lia.
Qed.

Lemma combine_map_seq {A} (h : nat -> A) (n a : nat) :
  combine (map h (seq a n)) (seq a n) = map (fun k => (h k, k)) (seq a n).
Proof.
  revert a. induction n as [| n IH]; intros a; simpl; [reflexivity |].
  now rewrite IH.
Qed.

Lemma map_nth_seq (l : list Q) :
  map (fun k => nth k l 0) (seq 0 (length l)) = l.
Proof.
  apply (nth_ext _ _ 0 0).
  - now rewrite length_map, length_seq.
  - intros k Hk. rewrite length_map, length_seq in Hk.
    pose proof (map_nth (fun k => nth k l 0) (seq 0 (length l)) 0%nat k)
      as E.
    cbv beta in E.
    rewrite (nth_indep _ 0 (nth 0 l 0))
      by (now rewrite length_map, length_seq).
    rewrite E. now rewrite seq_nth.
Qed.

Lemma slice_of_masses_one_entry (f : nat -> Q) (n z0 : nat) :
  (z0 < n)%nat ->
  (Z.of_nat n <= 2 ^ 53)%Z ->
  (forall k, (k < n)%nat -> k <> z0 -> f k == 0) ->
  rnd (f z0) == f z0 ->
  ~ f z0 == 0 ->
  slice_of_masses rnd (map f (seq 0 n)) = Ok (Z.of_nat z0).
Proof.
  intros Hz Hn Hf0 Hfloat Hmass. unfold slice_of_masses.
  rewrite length_map, length_seq.
  set (m := f z0) in *.
  assert (R0 : rnd 0 == 0) by (apply (rnd_int 0); lia).
  assert (R1 : rnd 1 == 1) by (apply (rnd_int 1); lia).
  assert (Hsum : py_sum (map f (seq 0 n)) == m).
  { apply (py_sum_one_entry f n z0 m Hz Hf0); [reflexivity | exact Hfloat]. }
  set (T := py_sum (map f (seq 0 n))) in *.
  assert (HT : Qeq_bool T 0 = false).
  { destruct (Qeq_bool T 0) eqn:E; [| reflexivity].
    apply Qeq_bool_iff in E. exfalso. apply Hmass.
    now rewrite <- Hsum. }
  rewrite HT.
  assert (Hdiv : np_divide rnd (map f (seq 0 n)) T =
                 Ok (map (fun v => rnd (v / T)) (map f (seq 0 n)))).
  { destruct (map f (seq 0 n)); [reflexivity |].
    cbn [np_divide]. rewrite HT. reflexivity. }
  rewrite Hdiv. cbn [bind].
  rewrite map_map, combine_map_seq, map_map. cbn [fst snd].
  set (h := fun k : nat => fmul (rnd (f k / T)) (of_int (Z.of_nat k))).
  assert (Hprod : py_sum (map h (seq 0 n)) == inject_Z (Z.of_nat z0)).
  { apply (py_sum_one_entry h n z0); [exact Hz | | |].
    - intros k Hk Hne. unfold h, VSparams.fmul.
      rewrite (Hf0 k Hk Hne).
      assert (E : 0 / T == 0) by (unfold Qdiv; ring).
      rewrite E, R0, Qmult_0_l. exact R0.
    - unfold h, VSparams.fmul, VSparams.of_int. fold m.
      assert (E : m / T == 1).
      { rewrite Hsum. field. intros E. apply Hmass. exact E. }
      assert (Ez : rnd (inject_Z (Z.of_nat z0)) == inject_Z (Z.of_nat z0))
        by (apply rnd_int; lia).
      rewrite E, R1, Qmult_1_l, Ez. exact Ez.
    - apply rnd_int. lia. }
  destruct (map h (seq 0 n)) as [| p ps] eqn:Dl.
  { apply (f_equal (@length Q)) in Dl.
    rewrite length_map, length_seq in Dl. simpl in Dl. lia. }
  rewrite (Rounding.round_half_even_Z _ _ Hprod). reflexivity.
Qed.

Lemma slice_of_masses_one_slice (slice_masses : list Q) (z0 : nat) :
  (z0 < length slice_masses)%nat ->
  (Z.of_nat (length slice_masses) <= 2 ^ 53)%Z ->
  (forall k, (k < length slice_masses)%nat -> k <> z0 ->
     nth k slice_masses 0 == 0) ->
  rnd (nth z0 slice_masses 0) == nth z0 slice_masses 0 ->
  ~ nth z0 slice_masses 0 == 0 ->
  slice_of_masses rnd slice_masses = Ok (Z.of_nat z0).
Proof.
  intros Hz Hn Hzero Hfloat Hmass.
  rewrite <- (map_nth_seq slice_masses) at 1.
  now apply slice_of_masses_one_entry.
Qed.

End OneSlice.

(** [get_center_of_mass_slice] is [slice_of_masses] on the masses that
    [slice_sum] gives. *)
Lemma get_center_of_mass_slice_of_masses (rnd rnd_label : Q -> Q)
    (label : ndarray3 Q) :
  get_center_of_mass_slice rnd rnd_label label =
  slice_of_masses rnd
    (map (fun z => rnd (slice_sum rnd_label label z))
       (seq 0 (snd (shape label)))).
Proof.
  unfold get_center_of_mass_slice, slice_of_masses.
  now rewrite length_map, length_seq.
Qed.

(** X6. Whatever the order in which the entries of a slice are added:
    when the masses that the loop of [get_center_of_mass_slice] has
    stored are zero for every slice but [z0] and the mass of [z0] is a
    float64 number other than zero (finite, so below 2^1024 in size:
    the sum of the slice has neither overflowed nor come out as NaN),
    with at most 2^53 slices, what follows the loop
    returns [z0]: the weights come out as 0 everywhere and exactly 1 at
    [z0], and the weighted sum as the integer [z0]. *)
Theorem center_of_mass_single_slice (slice_masses : list Q) (z0 : nat) :
  (z0 < length slice_masses)%nat ->
  (Z.of_nat (length slice_masses) <= 2 ^ 53)%Z ->
  (forall k, (k < length slice_masses)%nat -> k <> z0 ->
     nth k slice_masses 0 == 0) ->
  float64 (nth z0 slice_masses 0) == nth z0 slice_masses 0 ->
  Qabs (nth z0 slice_masses 0) < 2 ^ 1024 ->
  ~ nth z0 slice_masses 0 == 0 ->
  slice_of_masses float64 slice_masses = Ok (Z.of_nat z0).
Proof.
  intros Hz Hn Hzero Hfloat _. revert Hz Hn Hzero Hfloat.
  apply slice_of_masses_one_slice.
  - intros x y. apply Rounding.round_float_monotone. lia.
  - exact Rounding.float64_int.
Qed.

Lemma center_of_mass_single_slice_witness :
  let slice_masses := [0; 0; 0; 6; 0] in
  (3 < length slice_masses)%nat /\
  (Z.of_nat (length slice_masses) <= 2 ^ 53)%Z /\
  (forall k, (k < length slice_masses)%nat -> k <> 3%nat ->
     nth k slice_masses 0 == 0) /\
  float64 (nth 3 slice_masses 0) == nth 3 slice_masses 0 /\
  Qabs (nth 3 slice_masses 0) < 2 ^ 1024 /\
  ~ nth 3 slice_masses 0 == 0 /\
  slice_of_masses float64 slice_masses = Ok 3%Z.
Proof.
  intros slice_masses.
  assert (H1 : (3 < length slice_masses)%nat) by (simpl; lia).
  assert (H2 : (Z.of_nat (length slice_masses) <= 2 ^ 53)%Z) by (simpl; lia).
  assert (H3 : forall k, (k < length slice_masses)%nat -> k <> 3%nat ->
                 nth k slice_masses 0 == 0).
  { intros k Hk Hne. simpl in Hk.
    destruct k as [| [| [| [| [| k]]]]]; try reflexivity; lia. }
  assert (H4 : float64 (nth 3 slice_masses 0) == nth 3 slice_masses 0).
  { exact (Rounding.float64_int 6 ltac:(lia)). }
  assert (H5 : ~ nth 3 slice_masses 0 == 0) by (simpl; discriminate).
  assert (H6 : Qabs (nth 3 slice_masses 0) < 2 ^ 1024).
  { unfold Qlt. vm_compute. reflexivity. }
  split; [exact H1 |]. split; [exact H2 |]. split; [exact H3 |].
  split; [exact H4 |]. split; [exact H6 |]. split; [exact H5 |].
  exact (center_of_mass_single_slice slice_masses 3 H1 H2 H3 H4 H6 H5).
Defined.

End CenterOfMass.

(** ** The architecture builder *)

Module Builder.
Import Py UNet2d5_spvPA.

#[local] Arguments _create_block : simpl never.

Lemma lengths_agree_spec (cfg : Config) :
  lengths_agree cfg = true <->
  (length (channels cfg) = length (kernel_sizes cfg) /\
   length (kernel_sizes cfg) = length (strides cfg) + 1 /\
   length (strides cfg) + 1 = length (sample_kernel_sizes cfg) + 1)%nat.
Proof.
  unfold lengths_agree. rewrite !andb_true_iff, !Nat.eqb_eq. tauto.
Qed.

Lemma create_block_unfold self inc outc c channels_1 strides kernel_sizes
    sample_kernel_sizes is_top :
  _create_block self inc outc (c :: channels_1) strides kernel_sizes
    sample_kernel_sizes is_top =
  (s <- getitem strides 0 ;;
   k <- getitem kernel_sizes 0 ;;
   sk <- getitem sample_kernel_sizes 0 ;;
   subblock <-
     (if Z.of_nat (length (c :: channels_1)) >? 2 then
        c1 <- getitem (c :: channels_1) 1 ;;
        _create_block self c c1 channels_1 (tl strides) (tl kernel_sizes)
          (tl sample_kernel_sizes) false
      else
        c1 <- getitem (c :: channels_1) 1 ;;
        k1 <- getitem kernel_sizes 1 ;;
        _get_bottom_layer self c c1 k1) ;;
   c1 <- getitem (c :: channels_1) 1 ;;
   subblock_with_resampling <-
     nn_Sequential [Instance (_get_downsample_layer self c c s sk);
                    Instance subblock;
                    Instance (_get_upsample_layer self c1 c s sk)] ;;
   up <- _get_up_layer self (2 * c) outc k is_top ;;
   nn_Sequential [Instance (_get_down_layer self inc c k);
                  Instance (SkipConnection subblock_with_resampling); up]).
Proof. reflexivity. Qed.

(** One level of the recursion on lists of matching lengths: name the
    first entries of the four lists and unfold the call. *)
Ltac open_level channels_1 strides kernel_sizes sample_kernel_sizes Hlen :=
  destruct channels_1 as [| c1 rest]; [simpl in Hlen; lia |];
  destruct strides as [| s strides']; [discriminate |];
  destruct sample_kernel_sizes as [| sk sks']; [discriminate |];
  destruct kernel_sizes as [| k [| k1 ks']]; try discriminate;
  rewrite create_block_unfold.

(** The gate placed in front of a block when attention is enabled. *)
Lemma get_att_layer_eq self i o k :
  _get_att_layer self i o k =
  Ok (Sequential
        [AttentionBlock1 (dimensions self) i o k None (dropout self) false;
         AttentionBlock2 (dimensions self) i o k None (dropout self)]).
Proof. reflexivity. Qed.

Lemma down_layer_no_gate self i o k :
  register_forward_hooks (_get_down_layer self i o k) =
    _get_down_layer self i o k /\
  count_gates (_get_down_layer self i o k) = 0%nat.
Proof.
  unfold _get_down_layer. destruct (num_res_units self >? 0); split; reflexivity.
Qed.

(** With a gate or a residual unit available the up block is a module
    instance, holding exactly one first-stage gate when attention is on. *)
Lemma get_up_layer_instance self i o k is_top :
  attention_module self = true \/ num_res_units self > 0 ->
  exists u,
    _get_up_layer self i o k is_top = Ok (Instance u) /\
    count_gates (register_forward_hooks u) =
      (if attention_module self then 1 else 0)%nat.
Proof.
  intros H. unfold _get_up_layer.
  destruct (attention_module self) eqn:Ha;
    destruct (Z.gtb_spec (num_res_units self) 0) as [Hr | Hr]; simpl.
  - eexists; split; reflexivity.
  - eexists; split; reflexivity.
  - eexists; split; reflexivity.
  - destruct H as [H | H]; [discriminate | lia].
Qed.

(** Without attention and without residual units the up block is the
    class object [nn.Identity], not an instance of it. *)
Lemma get_up_layer_class self i o k is_top :
  attention_module self = false -> num_res_units self <= 0 ->
  _get_up_layer self i o k is_top =
    Ok (ClassObject "torch.nn.modules.linear.Identity").
Proof.
  intros Ha Hr. unfold _get_up_layer. rewrite Ha.
  destruct (Z.gtb_spec (num_res_units self) 0); [lia | reflexivity].
Qed.

Lemma get_bottom_layer_eq self c_in c_out k :
  _get_bottom_layer self c_in c_out k = Ok (bottom_block self c_in c_out k false).
Proof.
  unfold _get_bottom_layer, bottom_block.
  destruct (attention_module self); reflexivity.
Qed.

Lemma bottom_block_facts self c_in c_out k :
  register_forward_hooks (bottom_block self c_in c_out k false) =
    bottom_block self c_in c_out k true /\
  count_gates (bottom_block self c_in c_out k true) =
    (if attention_module self then 1 else 0)%nat /\
  forall h, innermost (bottom_block self c_in c_out k h) =
            bottom_block self c_in c_out k h.
Proof.
  unfold bottom_block.
  destruct (down_layer_no_gate self c_in c_out k) as [Hr Hc].
  destruct (attention_module self); simpl; rewrite ?Hr, ?Hc;
    (split; [reflexivity | split; [reflexivity |]]); intros h.
  - reflexivity.
  - unfold _get_down_layer. destruct (num_res_units self >? 0); reflexivity.
Qed.

Lemma innermost_block a b sub c d :
  innermost (Sequential [a; SkipConnection (Sequential [b; sub; c]); d]) =
  innermost sub.
Proof. reflexivity. Qed.

(** The recursion of [_create_block] on a configuration whose lists have
    matching lengths and at least two channel entries: it returns a
    module, which holds one first-stage gate per channel entry when
    attention is on, and whose innermost block is the bottom block built
    from the last two channel entries and the last kernel size. *)
Lemma create_block_ok self :
  attention_module self = true \/ num_res_units self > 0 ->
  forall channels strides kernel_sizes sample_kernel_sizes inc outc is_top,
    (2 <= length channels)%nat ->
    length kernel_sizes = length channels ->
    S (length strides) = length channels ->
    S (length sample_kernel_sizes) = length channels ->
    exists m,
      _create_block self inc outc channels strides kernel_sizes
        sample_kernel_sizes is_top = Ok m /\
      count_gates (register_forward_hooks m) =
        (if attention_module self then length channels else 0)%nat /\
      innermost m =
        bottom_block self (nth (length channels - 2) channels 0)
          (last channels 0) (last kernel_sizes (SInt 0)) false /\
      innermost (register_forward_hooks m) =
        bottom_block self (nth (length channels - 2) channels 0)
          (last channels 0) (last kernel_sizes (SInt 0)) true.
Proof.
  intros Hmode channels.
  induction channels as [| c channels_1 IH];
    intros strides kernel_sizes sample_kernel_sizes inc outc is_top
      Hlen Hk Hs Hsk.
  { simpl in Hlen. lia. }
  open_level channels_1 strides kernel_sizes sample_kernel_sizes Hlen.
  destruct (get_up_layer_instance self (2 * c) outc k is_top Hmode)
    as (u & Hu & Hcu).
  destruct (down_layer_no_gate self inc c k) as [Hdr Hdc].
  destruct rest as [| r rest'].
  - (* two channel entries remain: the bottom block *)
    replace (Z.of_nat (length [c; c1]) >? 2) with false by reflexivity.
    cbn [getitem nth_error bind].
    rewrite get_bottom_layer_eq. cbn [bind nn_Sequential add_modules].
    rewrite Hu. cbn [bind add_modules].
    eexists; split; [reflexivity |].
    destruct (bottom_block_facts self c c1 k1) as (Hbr & Hbc & Hbi).
    destruct ks' as [| ? ?]; [| simpl in Hk; lia].
    cbn [register_forward_hooks map count_gates list_sum
         _get_downsample_layer _get_upsample_layer].
    rewrite Hdr, Hdc, Hbr, Hbc, Hcu.
    split; [destruct (attention_module self); reflexivity |].
    rewrite !innermost_block.
    split; cbn [length Nat.sub nth last]; apply Hbi.
  - (* more than two entries: recurse on the suffixes *)
    assert (Hgt : (Z.of_nat (length (c :: c1 :: r :: rest')) >? 2) = true).
    { apply Z.gtb_lt. simpl length. lia. }
    rewrite Hgt. cbn [getitem nth_error bind tl].
    destruct (IH strides' (k1 :: ks') sks' c c1 false) as (m & Hm & Hc & Hi & Hir).
    + simpl. lia.
    + simpl in Hk |- *. lia.
    + simpl in Hs |- *. lia.
    + simpl in Hsk |- *. lia.
    + rewrite Hm. cbn [bind nn_Sequential add_modules].
      rewrite Hu. cbn [bind add_modules].
      eexists; split; [reflexivity |].
      cbn [register_forward_hooks map count_gates list_sum
           _get_downsample_layer _get_upsample_layer].
      rewrite Hdr, Hdc, Hc, Hcu.
      split.
      { destruct (attention_module self); simpl; lia. }
      rewrite !innermost_block.
      rewrite Hi, Hir.
      replace (length (c :: c1 :: r :: rest') - 2)%nat
        with (S (length (c1 :: r :: rest') - 2))%nat by (simpl; lia).
      split; reflexivity.
Qed.

(** The same recursion when neither attention nor residual units are
    configured: the class object returned for the up block is rejected
    by [nn.Sequential]. *)
Lemma create_block_plain self :
  attention_module self = false -> num_res_units self <= 0 ->
  forall channels strides kernel_sizes sample_kernel_sizes inc outc is_top,
    (2 <= length channels)%nat ->
    length kernel_sizes = length channels ->
    S (length strides) = length channels ->
    S (length sample_kernel_sizes) = length channels ->
    _create_block self inc outc channels strides kernel_sizes
      sample_kernel_sizes is_top =
    Raise (mkExc TypeError
             "torch.nn.modules.linear.Identity is not a Module subclass").
Proof.
  intros Ha Hr channels.
  induction channels as [| c channels_1 IH];
    intros strides kernel_sizes sample_kernel_sizes inc outc is_top
      Hlen Hk Hs Hsk.
  { simpl in Hlen. lia. }
  open_level channels_1 strides kernel_sizes sample_kernel_sizes Hlen.
  destruct rest as [| r rest'].
  - replace (Z.of_nat (length [c; c1]) >? 2) with false by reflexivity.
    cbn [getitem nth_error bind].
    rewrite get_bottom_layer_eq. cbn [bind nn_Sequential add_modules].
    rewrite get_up_layer_class by assumption. reflexivity.
  - assert (Hgt : (Z.of_nat (length (c :: c1 :: r :: rest')) >? 2) = true).
    { apply Z.gtb_lt. simpl length. lia. }
    rewrite Hgt. cbn [getitem nth_error bind tl].
    rewrite IH; [reflexivity | simpl; lia | simpl in Hk |- *; lia
                | simpl in Hs |- *; lia | simpl in Hsk |- *; lia].
Qed.

(** Fewer than two channel entries leave nothing to index. *)
Lemma create_block_short self inc outc channels strides kernel_sizes
    sample_kernel_sizes is_top :
  (length channels <= 1)%nat -> S (length strides) = length channels ->
  _create_block self inc outc channels strides kernel_sizes
    sample_kernel_sizes is_top =
  Raise (mkExc IndexError "tuple index out of range").
Proof.
  intros Hlen Hs.
  destruct channels as [| c [| c1 rest]]; [reflexivity | | simpl in Hlen; lia].
  destruct strides; [| discriminate]. reflexivity.
Qed.

Section Construction.
Variable Tensor : Type.

(** Construction succeeds on every configuration whose lists agree in
    length, that has at least two channel entries and that enables
    attention or residual units. *)
Lemma init_ok (cfg : Config) :
  lengths_agree cfg = true ->
  (2 <= length (channels cfg))%nat ->
  attention_module cfg = true \/ num_res_units cfg > 0 ->
  exists m,
    _create_block cfg (in_channels cfg) (out_channels cfg) (channels cfg)
      (strides cfg) (kernel_sizes cfg) (sample_kernel_sizes cfg) true = Ok m /\
    __init__ Tensor cfg =
      Ok (mkUNet Tensor cfg []
            (if attention_module cfg then register_forward_hooks m else m)).
Proof.
  intros Hl Hn Hmode.
  apply lengths_agree_spec in Hl as (H1 & H2 & H3).
  destruct (create_block_ok cfg Hmode (channels cfg) (strides cfg)
              (kernel_sizes cfg) (sample_kernel_sizes cfg) (in_channels cfg)
              (out_channels cfg) true) as (m & Hm & _); try lia.
  exists m. split; [exact Hm |].
  unfold __init__.
  replace (lengths_agree cfg) with true
    by (symmetry; apply lengths_agree_spec; lia).
  cbn [negb]. rewrite Hm. reflexivity.
Qed.

(** Conversely, a constructed network comes from such a configuration. *)
Lemma init_inv (cfg : Config) (net : UNet Tensor) :
  __init__ Tensor cfg = Ok net ->
  lengths_agree cfg = true /\
  (2 <= length (channels cfg))%nat /\
  (attention_module cfg = true \/ num_res_units cfg > 0).
Proof.
  unfold __init__. intros H.
  destruct (lengths_agree cfg) eqn:Hl; [| discriminate].
  cbn [negb] in H.
  pose proof (proj1 (lengths_agree_spec cfg) Hl) as (H1 & H2 & H3).
  split; [reflexivity |].
  destruct (le_lt_dec (length (channels cfg)) 1) as [Hshort | Hlong].
  { rewrite create_block_short in H by lia. discriminate. }
  split; [lia |].
  destruct (attention_module cfg) eqn:Ha; [now left |].
  destruct (Z_gt_le_dec (num_res_units cfg) 0) as [Hr | Hr]; [now right |].
  rewrite (create_block_plain cfg Ha Hr) in H by lia. discriminate.
Qed.

(** C5 (as the code has it). A configuration that violates
    [len(channels) == len(kernel_sizes) == len(strides) + 1 ==
    len(sample_kernel_sizes) + 1] makes the constructor raise, before a
    network object exists, a bare [AssertionError] whose text is empty;
    a configuration that satisfies it never raises an [AssertionError]. *)
Theorem init_checks_lengths (cfg : Config) :
  (~ length_invariant cfg ->
   __init__ Tensor cfg = Raise (mkExc AssertionError "")) /\
  (length_invariant cfg ->
   forall e, __init__ Tensor cfg = Raise e -> exc_class e <> AssertionError).
Proof.
  split.
  - intros Hbad. unfold __init__.
    destruct (lengths_agree cfg) eqn:Hl; [| reflexivity].
    exfalso. apply Hbad. now apply lengths_agree_spec.
  - intros Hgood e He.
    pose proof (proj2 (lengths_agree_spec cfg) Hgood) as Hl.
    destruct Hgood as (H1 & H2 & H3).
    unfold __init__ in He. rewrite Hl in He. cbn [negb] in He.
    destruct (le_lt_dec (length (channels cfg)) 1) as [Hshort | Hlong].
    { rewrite create_block_short in He by lia.
      injection He as <-. discriminate. }
    destruct (attention_module cfg) eqn:Ha.
    { destruct (create_block_ok cfg (or_introl Ha) (channels cfg)
                  (strides cfg) (kernel_sizes cfg) (sample_kernel_sizes cfg)
                  (in_channels cfg) (out_channels cfg) true)
        as (m & Hm & _); try lia.
      rewrite Hm in He. discriminate. }
    destruct (Z_gt_le_dec (num_res_units cfg) 0) as [Hr | Hr].
    { destruct (create_block_ok cfg (or_intror Hr) (channels cfg)
                  (strides cfg) (kernel_sizes cfg) (sample_kernel_sizes cfg)
                  (in_channels cfg) (out_channels cfg) true)
        as (m & Hm & _); try lia.
      rewrite Hm in He. discriminate. }
    rewrite (create_block_plain cfg Ha Hr) in He by lia.
    injection He as <-. discriminate.
Qed.

End Construction.

Lemma init_checks_lengths_witness :
  ~ length_invariant short_kernel_config /\
  __init__ unit short_kernel_config = Raise (mkExc AssertionError "") /\
  length_invariant (default_config true 2) /\
  forall e, __init__ unit (default_config true 2) = Raise e ->
            exc_class e <> AssertionError.
Proof.
  assert (Hbad : ~ length_invariant short_kernel_config).
  { unfold length_invariant. simpl. lia. }
  assert (Hgood : length_invariant (default_config true 2)).
  { unfold length_invariant. simpl. lia. }
  split; [exact Hbad |]. split.
  - exact (proj1 (init_checks_lengths unit short_kernel_config) Hbad).
  - split; [exact Hgood |].
    exact (proj2 (init_checks_lengths unit (default_config true 2)) Hgood).
Defined.

(** C5 as stated fails: the error raised for mismatched lists names none
    of them. *)
Lemma init_error_names_no_list :
  ~ length_invariant short_kernel_config /\
  exists e,
    __init__ unit short_kernel_config = Raise e /\
    mentions "channels" e = false /\
    mentions "kernel_sizes" e = false /\
    mentions "strides" e = false /\
    mentions "sample_kernel_sizes" e = false.
Proof.
  split.
  - unfold length_invariant. simpl. lia.
  - eexists. split; [reflexivity |]. repeat split.
Qed.

(** C2. With attention disabled and no residual units, the up block
    returned by [_get_up_layer] is the class object [nn.Identity] and not
    a module instance, and building the network fails with a
    [TypeError]. *)
Theorem up_layer_identity_is_class :
  _get_up_layer (default_config false 0) 32 2 (STuple [3; 3; 1]) true =
    Ok (ClassObject "torch.nn.modules.linear.Identity") /\
  _get_up_layer (default_config false 0) 32 2 (STuple [3; 3; 1]) true <>
    Ok (Instance Identity) /\
  __init__ unit (default_config false 0) =
    Raise (mkExc TypeError
             "torch.nn.modules.linear.Identity is not a Module subclass").
Proof.
  split; [reflexivity |]. split; [discriminate | reflexivity].
Qed.

(** The failure is not particular to one configuration. *)
Lemma init_plain_fails (cfg : Config) :
  length_invariant cfg -> (2 <= length (channels cfg))%nat ->
  attention_module cfg = false -> num_res_units cfg <= 0 ->
  __init__ unit cfg =
    Raise (mkExc TypeError
             "torch.nn.modules.linear.Identity is not a Module subclass").
Proof.
  intros Hgood Hn Ha Hr.
  pose proof (proj2 (lengths_agree_spec cfg) Hgood) as Hl.
  destruct Hgood as (H1 & H2 & H3).
  unfold __init__. rewrite Hl. cbn [negb].
  rewrite (create_block_plain cfg Ha Hr) by lia. reflexivity.
Qed.



(** The scenario of the default configuration with attention: five
    resampling stages down, one transformer, six hooked gates. *)
Example default_config_scenario :
  exists net,
    __init__ unit (default_config true 2) = Ok net /\
    count_modules is_downsampler (model unit net) = 5%nat /\
    count_modules is_transformer (model unit net) = 1%nat /\
    count_gates (model unit net) = 6%nat.
Proof. eexists. repeat split. Qed.


(** *** What a constructed network looks like *)

(** Registering the hooks changes neither what a test that does not look
    at hooks counts, nor the channel bookkeeping, and it removes no hooked
    gate. *)
Lemma count_modules_register (test : nnModule -> bool) :
  (forall m, test (register_forward_hooks m) = test m) ->
  forall m, count_modules test (register_forward_hooks m) = count_modules test m.
Proof.
  intros Ht m.
  induction m as [m Hleaf | ms IH | sub IH] using nnModule_ind.
  - destruct m as [| | d i o k n p h | | | | |]; try contradiction;
      try reflexivity.
    pose proof (Ht (AttentionBlock1 d i o k n p h)) as E.
    simpl in E |- *. now rewrite E.
  - pose proof (Ht (Sequential ms)) as E. simpl in E |- *. rewrite E.
    f_equal. f_equal. rewrite map_map.
    induction IH as [| m ms Hm _ IHms]; [reflexivity |].
    simpl. rewrite Hm. f_equal. apply IHms.
    specialize (Ht (Sequential ms)). exact Ht.
  - pose proof (Ht (SkipConnection sub)) as E. simpl in E |- *.
    now rewrite E, IH.
Qed.

Lemma channels_out_register m :
  forall c, channels_out (register_forward_hooks m) c = channels_out m c.
Proof.
  induction m as [m Hleaf | ms IH | sub IH] using nnModule_ind.
  - destruct m; try contradiction; reflexivity.
  - induction IH as [| m ms Hm _ IHms]; intros c; [reflexivity |].
    simpl. rewrite Hm. destruct (channels_out m c) as [c' |]; [| reflexivity].
    apply (IHms c').
  - intros c. simpl. now rewrite IH.
Qed.

Lemma count_gates_register_le m :
  (count_gates m <= count_gates (register_forward_hooks m))%nat.
Proof.
  induction m as [m Hleaf | ms IH | sub IH] using nnModule_ind.
  - destruct m; try contradiction; simpl; try lia.
    destruct forward_hooks; lia.
  - simpl. rewrite map_map.
    induction IH as [| m ms Hm _ IHms]; simpl; lia.
  - exact IH.
Qed.

(** The layers a block is assembled from. *)
Lemma down_layer_layout self i o k :
  count_modules is_downsampler (_get_down_layer self i o k) = 0%nat /\
  count_modules is_upsampler (_get_down_layer self i o k) = 0%nat /\
  count_modules is_skip (_get_down_layer self i o k) = 0%nat /\
  count_modules is_transformer (_get_down_layer self i o k) = 0%nat /\
  count_modules is_output_unit (_get_down_layer self i o k) = 0%nat /\
  channels_out (_get_down_layer self i o k) i = Some o.
Proof.
  unfold _get_down_layer.
  destruct (num_res_units self >? 0); simpl; rewrite Z.eqb_refl;
    repeat split; reflexivity.
Qed.

Lemma up_layer_layout self i o k is_top :
  attention_module self = true \/ num_res_units self > 0 ->
  exists u,
    _get_up_layer self i o k is_top = Ok (Instance u) /\
    count_modules is_downsampler u = 0%nat /\
    count_modules is_upsampler u = 0%nat /\
    count_modules is_skip u = 0%nat /\
    count_modules is_transformer u = 0%nat /\
    count_modules is_output_unit u =
      (if is_top && (num_res_units self >? 0) then 1 else 0)%nat /\
    channels_out u i = Some (if num_res_units self >? 0 then o else i).
Proof.
  intros H. unfold _get_up_layer.
  destruct (attention_module self) eqn:Ha;
    destruct (Z.gtb_spec (num_res_units self) 0) as [Hr | Hr]; simpl.
  - eexists; split; [reflexivity |]. simpl. rewrite !Z.eqb_refl.
    destruct is_top; repeat split; reflexivity.
  - eexists; split; [reflexivity |]. simpl. rewrite !Z.eqb_refl.
    rewrite andb_false_r. repeat split; reflexivity.
  - eexists; split; [reflexivity |]. simpl. rewrite !Z.eqb_refl.
    destruct is_top; repeat split; reflexivity.
  - destruct H as [H | H]; [discriminate | lia].
Qed.

Lemma bottom_block_layout self c_in c_out k h :
  count_modules is_downsampler (bottom_block self c_in c_out k h) = 0%nat /\
  count_modules is_upsampler (bottom_block self c_in c_out k h) = 0%nat /\
  count_modules is_skip (bottom_block self c_in c_out k h) = 0%nat /\
  count_modules is_transformer (bottom_block self c_in c_out k h) = 1%nat /\
  count_modules is_output_unit (bottom_block self c_in c_out k h) = 0%nat /\
  channels_out (bottom_block self c_in c_out k h) c_in = Some c_out.
Proof.
  unfold bottom_block.
  destruct (down_layer_layout self c_in c_out k) as (D1 & D2 & D3 & D4 & D5 & D6).
  destruct (attention_module self);
    cbn [app count_modules map list_sum is_downsampler is_upsampler is_skip
         is_transformer is_output_unit channels_out];
    rewrite ?D1, ?D2, ?D3, ?D4, ?D5, ?D6, ?Z.eqb_refl;
    repeat split; try reflexivity.
  all: cbn [channels_out]; rewrite ?Z.eqb_refl, ?D6; reflexivity.
Qed.

(** The layout of the tree [_create_block] returns: one resampling
    stage down, one up and one skip connection per level, a single
    transformer, the output unit at the top only, and, with residual
    units, declared widths that fit from [inc] to [outc]. *)
Lemma create_block_layout self :
  attention_module self = true \/ num_res_units self > 0 ->
  forall channels strides kernel_sizes sample_kernel_sizes inc outc is_top,
    (2 <= length channels)%nat ->
    length kernel_sizes = length channels ->
    S (length strides) = length channels ->
    S (length sample_kernel_sizes) = length channels ->
    exists m,
      _create_block self inc outc channels strides kernel_sizes
        sample_kernel_sizes is_top = Ok m /\
      count_modules is_downsampler m = (length channels - 1)%nat /\
      count_modules is_upsampler m = (length channels - 1)%nat /\
      count_modules is_skip m = (length channels - 1)%nat /\
      count_modules is_transformer m = 1%nat /\
      count_modules is_output_unit m =
        (if is_top && (num_res_units self >? 0) then 1 else 0)%nat /\
      (num_res_units self > 0 -> channels_out m inc = Some outc).
Proof.
  intros Hmode channels.
  induction channels as [| c channels_1 IH];
    intros strides kernel_sizes sample_kernel_sizes inc outc is_top
      Hlen Hk Hs Hsk.
  { simpl in Hlen. lia. }
  open_level channels_1 strides kernel_sizes sample_kernel_sizes Hlen.
  destruct (up_layer_layout self (2 * c) outc k is_top Hmode)
    as (u & Hu & U1 & U2 & U3 & U4 & U5 & U6).
  destruct (down_layer_layout self inc c k) as (D1 & D2 & D3 & D4 & D5 & D6).
  assert (Hsub : exists sub,
    (if Z.of_nat (length (c :: c1 :: rest)) >? 2
     then c1' <- getitem (c :: c1 :: rest) 1 ;;
          _create_block self c c1' (c1 :: rest) (tl (s :: strides'))
            (tl (k :: k1 :: ks')) (tl (sk :: sks')) false
     else c1' <- getitem (c :: c1 :: rest) 1 ;;
          k1' <- getitem (k :: k1 :: ks') 1 ;;
          _get_bottom_layer self c c1' k1') = Ok sub /\
    count_modules is_downsampler sub = (length (c1 :: rest) - 1)%nat /\
    count_modules is_upsampler sub = (length (c1 :: rest) - 1)%nat /\
    count_modules is_skip sub = (length (c1 :: rest) - 1)%nat /\
    count_modules is_transformer sub = 1%nat /\
    count_modules is_output_unit sub = 0%nat /\
    (num_res_units self > 0 -> channels_out sub c = Some c1)).
  { destruct rest as [| r rest'].
    - replace (Z.of_nat (length [c; c1]) >? 2) with false by reflexivity.
      cbn [getitem nth_error bind]. rewrite get_bottom_layer_eq.
      eexists. split; [reflexivity |].
      destruct (bottom_block_layout self c c1 k1 false)
        as (B1 & B2 & B3 & B4 & B5 & B6).
      repeat split; try assumption. intros _. exact B6.
    - assert (Hgt : (Z.of_nat (length (c :: c1 :: r :: rest')) >? 2) = true).
      { apply Z.gtb_lt. simpl length. lia. }
      rewrite Hgt. cbn [getitem nth_error bind tl].
      destruct (IH strides' (k1 :: ks') sks' c c1 false)
        as (m & Hm & M1 & M2 & M3 & M4 & M5 & M6);
        [simpl; lia | simpl in Hk |- *; lia | simpl in Hs |- *; lia
        | simpl in Hsk |- *; lia |].
      exists m. split; [exact Hm |].
      repeat split; assumption. }
  destruct Hsub as (sub & -> & S1 & S2 & S3 & S4 & S5 & S6).
  cbn [getitem nth_error bind nn_Sequential add_modules].
  rewrite Hu. cbn [bind add_modules].
  eexists; split; [reflexivity |].
  cbn [count_modules map list_sum is_downsampler is_upsampler is_skip
       is_transformer is_output_unit _get_downsample_layer _get_upsample_layer].
  rewrite D1, D2, D3, D4, D5, U1, U2, U3, U4, U5, S1, S2, S3, S4, S5.
  unfold list_sum. cbn [length fold_right].
  split; [lia |]. split; [lia |]. split; [lia |]. split; [lia |].
  split; [destruct (is_top && (num_res_units self >? 0)); lia |].
  intros Hr. specialize (S6 Hr).
  cbn [channels_out _get_downsample_layer _get_upsample_layer].
  rewrite D6. rewrite Z.eqb_refl. rewrite S6. rewrite Z.eqb_refl.
  replace (c + c) with (2 * c) by lia. rewrite U6.
  destruct (Z.gtb_spec (num_res_units self) 0); [reflexivity | lia].
Qed.

(** With attention and without residual units the up block is the gate
    alone, which hands on the doubled width it receives. *)
Lemma create_block_gate_on_top self :
  attention_module self = true -> num_res_units self <= 0 ->
  forall channels strides kernel_sizes sample_kernel_sizes inc outc is_top,
    (2 <= length channels)%nat ->
    length kernel_sizes = length channels ->
    S (length strides) = length channels ->
    S (length sample_kernel_sizes) = length channels ->
    exists m,
      _create_block self inc outc channels strides kernel_sizes
        sample_kernel_sizes is_top = Ok m /\
      forall o, channels_out m inc = Some o -> o = 2 * hd 0 channels.
Proof.
  intros Ha Hr channels strides kernel_sizes sample_kernel_sizes inc outc
    is_top Hlen Hk Hs Hsk.
  destruct (create_block_ok self (or_introl Ha) channels strides kernel_sizes
              sample_kernel_sizes inc outc is_top Hlen Hk Hs Hsk)
    as (m & Hm & _).
  exists m. split; [exact Hm |].
  destruct channels as [| c channels_1]; [simpl in Hlen; lia |].
  revert Hm.
  open_level channels_1 strides kernel_sizes sample_kernel_sizes Hlen.
  intros Hm. cbn [getitem nth_error bind] in Hm.
  match type of Hm with
  | (subblock <- ?sb ;; _) = _ => destruct sb as [sub | e]; [| discriminate]
  end.
  cbn [bind nn_Sequential add_modules] in Hm.
  unfold _get_up_layer in Hm. rewrite Ha in Hm.
  destruct (Z.gtb_spec (num_res_units self) 0) as [? | _]; [lia |].
  cbn [andb negb bind _get_att_layer nn_Sequential add_modules] in Hm.
  injection Hm as <-.
  intros o. cbn [channels_out hd].
  destruct (channels_out (_get_down_layer self inc c k) inc) as [c' |];
    [| discriminate].
  match goal with
  | |- match (match ?t with _ => _ end) with _ => _ end = _ -> _ =>
      destruct t as [c'' |]; [| discriminate]
  end.
  destruct (Z.eqb_spec (c' + c'') (2 * c)) as [E | E]; [| discriminate].
  rewrite Z.eqb_refl. intros H. injection H as <-. reflexivity.
Qed.

(** With attention and without residual units the declared widths fit
    for two channel entries only. *)
Lemma create_block_gate_widths self :
  attention_module self = true -> num_res_units self <= 0 ->
  forall channels strides kernel_sizes sample_kernel_sizes inc outc is_top,
    (2 <= length channels)%nat ->
    length kernel_sizes = length channels ->
    S (length strides) = length channels ->
    S (length sample_kernel_sizes) = length channels ->
    exists m,
      _create_block self inc outc channels strides kernel_sizes
        sample_kernel_sizes is_top = Ok m /\
      (length channels = 2%nat ->
       channels_out m inc = Some (2 * hd 0 channels)) /\
      ((3 <= length channels)%nat -> nth 1 channels 0 <> 0 ->
       channels_out m inc = None).
Proof.
  intros Ha Hr channels strides kernel_sizes sample_kernel_sizes inc outc
    is_top Hlen Hk Hs Hsk.
  destruct channels as [| c channels_1]; [simpl in Hlen; lia |].
  open_level channels_1 strides kernel_sizes sample_kernel_sizes Hlen.
  destruct (up_layer_layout self (2 * c) outc k is_top (or_introl Ha))
    as (u & Hu & _ & _ & _ & _ & _ & U6).
  destruct (Z.gtb_spec (num_res_units self) 0) as [? | _]; [lia |].
  destruct (down_layer_layout self inc c k) as (_ & _ & _ & _ & _ & D6).
  destruct rest as [| r rest'].
  - replace (Z.of_nat (length [c; c1]) >? 2) with false by reflexivity.
    cbn [getitem nth_error bind]. rewrite get_bottom_layer_eq.
    cbn [getitem nth_error bind nn_Sequential add_modules].
    rewrite Hu. cbn [bind add_modules].
    eexists. split; [reflexivity |].
    split; [intros _ | simpl; lia].
    destruct (bottom_block_layout self c c1 k1 false)
      as (_ & _ & _ & _ & _ & B6).
    cbn [channels_out _get_downsample_layer _get_upsample_layer hd].
    rewrite D6. rewrite Z.eqb_refl. rewrite B6. rewrite Z.eqb_refl.
    replace (c + c) with (2 * c) by lia. rewrite U6. reflexivity.
  - assert (Hgt : (Z.of_nat (length (c :: c1 :: r :: rest')) >? 2) = true).
    { apply Z.gtb_lt. simpl length. lia. }
    rewrite Hgt. cbn [getitem nth_error bind tl].
    destruct (create_block_gate_on_top self Ha Hr (c1 :: r :: rest') strides'
                (k1 :: ks') sks' c c1 false)
      as (sub & -> & Hsub);
      [simpl; lia | simpl in Hk |- *; lia | simpl in Hs |- *; lia
      | simpl in Hsk |- *; lia |].
    cbn [getitem nth_error bind nn_Sequential add_modules].
    rewrite Hu. cbn [bind add_modules].
    eexists. split; [reflexivity |].
    split; [simpl; lia | intros _ Hc1].
    cbn [nth] in Hc1.
    cbn [channels_out _get_downsample_layer _get_upsample_layer hd].
    rewrite D6. rewrite Z.eqb_refl.
    destruct (channels_out sub c) as [o |] eqn:Eo; [| reflexivity].
    rewrite (Hsub o eq_refl). cbn [hd].
    destruct (Z.eqb_spec (2 * c1) c1) as [E | _]; [lia | reflexivity].
Qed.

Section Layout.
Variable Tensor : Type.

(** A constructed network is the tree of [_create_block], hooked when
    attention is on, with an empty registry. *)
Lemma init_built (cfg : Config) (net : UNet Tensor) :
  __init__ Tensor cfg = Ok net ->
  exists m,
    _create_block cfg (in_channels cfg) (out_channels cfg) (channels cfg)
      (strides cfg) (kernel_sizes cfg) (sample_kernel_sizes cfg) true = Ok m /\
    net = mkUNet Tensor cfg []
            (if attention_module cfg then register_forward_hooks m else m) /\
    (2 <= length (channels cfg))%nat /\
    length (kernel_sizes cfg) = length (channels cfg) /\
    S (length (strides cfg)) = length (channels cfg) /\
    S (length (sample_kernel_sizes cfg)) = length (channels cfg) /\
    (attention_module cfg = true \/ num_res_units cfg > 0).
Proof.
  intros Hinit.
  destruct (init_inv Tensor cfg net Hinit) as (Hl & Hn & Hmode).
  destruct (init_ok Tensor cfg Hl Hn Hmode) as (m & Hm & Hnet).
  rewrite Hnet in Hinit. injection Hinit as <-.
  apply lengths_agree_spec in Hl as (H1 & H2 & H3).
  exists m. repeat split; try assumption; lia.
Qed.

(** X7. The constructor returns a network only for a configuration
    that satisfies the length invariant, has at least two channel
    entries and enables attention or residual units.  It raises an
    [AssertionError] when the invariant fails; an [IndexError], before
    any layer is built, when the invariant holds with a single channel
    entry; and with neither attention nor residual units it never
    returns.  Whether a configuration that meets the three conditions is
    built depends on the constructors of the layers, which decide on
    the values of the entries. *)
Theorem init_outcome (cfg : Config) :
  ((exists net, __init__ Tensor cfg = Ok net) ->
   length_invariant cfg /\ (2 <= length (channels cfg))%nat /\
   (attention_module cfg = true \/ num_res_units cfg > 0)) /\
  (~ length_invariant cfg ->
   __init__ Tensor cfg = Raise (mkExc AssertionError "")) /\
  (length_invariant cfg -> (length (channels cfg) <= 1)%nat ->
   exists e, __init__ Tensor cfg = Raise e /\ exc_class e = IndexError) /\
  (attention_module cfg = false -> num_res_units cfg <= 0 ->
   exists e, __init__ Tensor cfg = Raise e).
Proof.
  split; [| split; [| split]].
  - intros [net Hnet].
    destruct (init_inv Tensor cfg net Hnet) as (Hl & Hn & Hmode).
    split; [now apply lengths_agree_spec | split; assumption].
  - intros Hbad. unfold __init__.
    destruct (lengths_agree cfg) eqn:Hl; [| reflexivity].
    exfalso. apply Hbad. now apply lengths_agree_spec.
  - intros Hgood Hn.
    pose proof (proj2 (lengths_agree_spec cfg) Hgood) as Hl.
    destruct Hgood as (H1 & H2 & H3).
    unfold __init__. rewrite Hl. cbn [negb].
    rewrite create_block_short by lia. eexists. split; reflexivity.
  - intros Ha Hr. destruct (__init__ Tensor cfg) as [net | e] eqn:E;
      [| now exists e].
    destruct (init_inv Tensor cfg net E) as (_ & _ & [Hmode | Hmode]);
      [congruence | lia].
Qed.

(** X8. Every constructed network keeps its configuration, starts with
    an empty registry and has, for [n] channel entries, [n - 1]
    resampling stages down, [n - 1] resampling stages up, [n - 1] skip
    connections and exactly one transformer block; exactly one residual
    unit is built with [last_conv_only=True] when residual units are
    configured, and none otherwise. *)
Theorem network_layout (cfg : Config) (net : UNet Tensor) :
  __init__ Tensor cfg = Ok net ->
  let n := length (channels cfg) in
  config Tensor net = cfg /\ att_maps Tensor net = [] /\
  count_modules is_downsampler (model Tensor net) = (n - 1)%nat /\
  count_modules is_upsampler (model Tensor net) = (n - 1)%nat /\
  count_modules is_skip (model Tensor net) = (n - 1)%nat /\
  count_modules is_transformer (model Tensor net) = 1%nat /\
  count_modules is_output_unit (model Tensor net) =
    (if num_res_units cfg >? 0 then 1 else 0)%nat.
Proof.
  intros Hinit n.
  destruct (init_built cfg net Hinit)
    as (m & Hm & -> & Hn & Hk & Hs & Hsk & Hmode).
  destruct (create_block_layout cfg Hmode (channels cfg) (strides cfg)
              (kernel_sizes cfg) (sample_kernel_sizes cfg) (in_channels cfg)
              (out_channels cfg) true Hn Hk Hs Hsk)
    as (m' & Hm' & L1 & L2 & L3 & L4 & L5 & _).
  rewrite Hm in Hm'. injection Hm' as <-.
  cbn [config att_maps model andb] in *.
  split; [reflexivity |]. split; [reflexivity |].
  destruct (attention_module cfg);
    rewrite ?count_modules_register by (intros []; reflexivity);
    repeat split; assumption.
Qed.

(** X9. In every network constructed with residual units the declared
    widths fit: each layer is fed the number of channels it was built
    for, the skip connections double the width the up blocks are built
    for, and the network as a whole takes [in_channels] and gives
    [out_channels]. *)
Theorem network_channels_fit (cfg : Config) (net : UNet Tensor) :
  __init__ Tensor cfg = Ok net -> num_res_units cfg > 0 ->
  channels_out (model Tensor net) (in_channels cfg) = Some (out_channels cfg).
Proof.
  intros Hinit Hr.
  destruct (init_built cfg net Hinit)
    as (m & Hm & -> & Hn & Hk & Hs & Hsk & Hmode).
  destruct (create_block_layout cfg Hmode (channels cfg) (strides cfg)
              (kernel_sizes cfg) (sample_kernel_sizes cfg) (in_channels cfg)
              (out_channels cfg) true Hn Hk Hs Hsk)
    as (m' & Hm' & _ & _ & _ & _ & _ & L6).
  rewrite Hm in Hm'. injection Hm' as <-.
  cbn [model]. destruct (attention_module cfg);
    rewrite ?channels_out_register; exact (L6 Hr).
Qed.

(** X10. In a network constructed without residual units (so with
    attention only, the constructor's defaults) every up layer that
    [_get_up_layer] builds is the gate alone, built for the doubled
    width it receives and never for the [out_channels] it is asked for.
    By the declared widths a network of two channel entries therefore
    gives twice its first entry, whatever [out_channels] says; and in a
    network of three channel entries or more, the second of them other
    than zero, the widths do not fit: the inner block hands twice
    [channels[1]] channels to the upsampling convolution built for
    [channels[1]]. *)
Theorem gate_only_up_path (cfg : Config) (net : UNet Tensor) :
  __init__ Tensor cfg = Ok net -> num_res_units cfg <= 0 ->
  (forall c outc k is_top up,
     _get_up_layer cfg c outc k is_top = Ok up ->
     up = Instance
            (Sequential
               [AttentionBlock1 (dimensions cfg) c c k None (dropout cfg)
                  false;
                AttentionBlock2 (dimensions cfg) c c k None
                  (dropout cfg)])) /\
  (length (channels cfg) = 2%nat ->
   channels_out (model Tensor net) (in_channels cfg) =
     Some (2 * hd 0 (channels cfg))) /\
  ((3 <= length (channels cfg))%nat -> nth 1 (channels cfg) 0 <> 0 ->
   channels_out (model Tensor net) (in_channels cfg) = None).
Proof.
  intros Hinit Hr.
  destruct (init_built cfg net Hinit)
    as (m & Hm & -> & Hn & Hk & Hs & Hsk & Hmode).
  assert (Ha : attention_module cfg = true)
    by (destruct Hmode; [assumption | lia]).
  split.
  { intros c outc k is_top up Hup. unfold _get_up_layer in Hup.
    rewrite Ha in Hup.
    destruct (Z.gtb_spec (num_res_units cfg) 0) as [? | _]; [lia |].
    cbn in Hup. now injection Hup as <-. }
  destruct (create_block_gate_widths cfg Ha Hr (channels cfg) (strides cfg)
              (kernel_sizes cfg) (sample_kernel_sizes cfg) (in_channels cfg)
              (out_channels cfg) true Hn Hk Hs Hsk) as (m' & Hm' & H2 & H3).
  rewrite Hm in Hm'. injection Hm' as <-.
  cbn [model]. rewrite Ha, channels_out_register. split; assumption.
Qed.

End Layout.

Lemma init_outcome_witness :
  (exists net, __init__ unit (default_config true 2) = Ok net) /\
  (length_invariant (default_config true 2) /\
   (2 <= length (channels (default_config true 2)))%nat /\
   (attention_module (default_config true 2) = true \/
    num_res_units (default_config true 2) > 0)) /\
  (exists e,
     __init__ unit
       (mkConfig 3 1 2 [16] [] [STuple [3; 3; 1]] [] 2 None None 0 true) =
       Raise e /\ exc_class e = IndexError) /\
  (exists e, __init__ unit (two_level_config false 0) = Raise e).
Proof.
  assert (H : exists net, __init__ unit (default_config true 2) = Ok net).
  { eexists. reflexivity. }
  split; [exact H |]. split; [| split].
  - exact (proj1 (init_outcome unit (default_config true 2)) H).
  - apply (proj1 (proj2 (proj2 (init_outcome unit _)))).
    + unfold length_invariant. simpl. lia.
    + simpl. lia.
  - apply (proj2 (proj2 (proj2 (init_outcome unit (two_level_config false 0))))).
    + reflexivity.
    + simpl. lia.
Defined.

Lemma network_layout_witness :
  exists net,
    __init__ unit (default_config true 2) = Ok net /\
    count_modules is_downsampler (model unit net) = 5%nat /\
    count_modules is_upsampler (model unit net) = 5%nat /\
    count_modules is_skip (model unit net) = 5%nat /\
    count_modules is_transformer (model unit net) = 1%nat /\
    count_modules is_output_unit (model unit net) = 1%nat.
Proof.
  eexists. split; [reflexivity |].
  exact (proj2 (proj2 (network_layout unit (default_config true 2) _ eq_refl))).
Defined.

Lemma network_channels_fit_witness :
  num_res_units (default_config true 2) > 0 /\
  exists net,
    __init__ unit (default_config true 2) = Ok net /\
    channels_out (model unit net) 1 = Some 2.
Proof.
  assert (Hr : num_res_units (default_config true 2) > 0) by (simpl; lia).
  split; [exact Hr |].
  eexists. split; [reflexivity |].
  exact (network_channels_fit unit (default_config true 2) _ eq_refl Hr).
Defined.

Lemma gate_only_up_path_witness :
  num_res_units (two_level_config true 0) <= 0 /\
  num_res_units (default_config true 0) <= 0 /\
  (exists net,
     __init__ unit (two_level_config true 0) = Ok net /\
     channels_out (model unit net) 1 = Some 32) /\
  (exists net,
     __init__ unit (default_config true 0) = Ok net /\
     channels_out (model unit net) 1 = None).
Proof.
  assert (Hr : num_res_units (two_level_config true 0) <= 0) by (simpl; lia).
  assert (Hr' : num_res_units (default_config true 0) <= 0) by (simpl; lia).
  split; [exact Hr |]. split; [exact Hr' |]. split.
  - eexists. split; [reflexivity |].
    exact (proj1 (proj2 (gate_only_up_path unit (two_level_config true 0) _
                           eq_refl Hr)) eq_refl).
  - eexists. split; [reflexivity |].
    apply (proj2 (proj2 (gate_only_up_path unit (default_config true 0) _
                           eq_refl Hr'))).
    + simpl. lia.
    + simpl. lia.
Defined.

End Builder.

(** ** The attention-map registry *)

Module Registry.
Import Py UNet2d5_spvPA.

Section StoreMap.
Context {T : Type}.
Variable n : nat.
Hypothesis n_pos : (1 <= n)%nat.

Lemma store_map_bound (reg : list T) (a : T) :
  (length reg <= n)%nat -> (1 <= length (store_map n reg a) <= n)%nat.
Proof.
  intros H. unfold store_map.
  destruct (Nat.eqb_spec (length reg) n); rewrite length_app; simpl; lia.
Qed.

(** The registry never outgrows [n], whatever is stored. *)
Lemma store_all_bound (maps : list T) :
  forall reg, (length reg <= n)%nat ->
  (length (fold_left (store_map n) maps reg) <= n)%nat.
Proof.
  induction maps as [| a maps IH]; intros reg H; simpl; [exact H |].
  apply IH. apply store_map_bound. exact H.
Qed.

(** While there is room, storing appends. *)
Lemma store_all_room (maps : list T) :
  forall reg, (length reg + length maps <= n)%nat ->
  fold_left (store_map n) maps reg = reg ++ maps.
Proof.
  induction maps as [| a maps IH]; intros reg H; simpl.
  - now rewrite app_nil_r.
  - simpl in H. unfold store_map at 2.
    destruct (Nat.eqb_spec (length reg) n); [lia |].
    rewrite IH by (rewrite length_app; simpl; lia).
    now rewrite <- app_assoc.
Qed.

(** A full set of [n] maps replaces an empty or a full registry. *)
Lemma store_all_full_set (maps reg : list T) :
  length maps = n -> reg = [] \/ length reg = n ->
  fold_left (store_map n) maps reg = maps.
Proof.
  intros Hm [-> | Hr].
  - apply (store_all_room maps []). simpl. lia.
  - destruct maps as [| a maps]; [simpl in Hm; lia |].
    simpl. unfold store_map at 2. rewrite (proj2 (Nat.eqb_eq _ _) Hr).
    apply (store_all_room maps [a]). simpl in Hm |- *. lia.
Qed.

End StoreMap.

Section Evaluation.
Variable Tensor : Type.
Variable leaf_forward : nnModule -> Tensor -> Tensor.
Variable cat : Tensor -> Tensor -> Tensor.
Variable getitem0 : Tensor -> Tensor.

Local Abbreviation call := (call Tensor leaf_forward cat getitem0).
Local Abbreviation gate_maps := (gate_maps Tensor leaf_forward cat getitem0).
Local Abbreviation forward := (forward Tensor leaf_forward cat getitem0).
Local Abbreviation forward_all := (forward_all Tensor leaf_forward cat getitem0).

Lemma call_Sequential_cons n m ms x reg :
  call n (Sequential (m :: ms)) x reg =
  call n (Sequential ms) (fst (call n m x reg)) (snd (call n m x reg)).
Proof. simpl. destruct (call n m x reg). reflexivity. Qed.

Lemma gate_maps_Sequential_cons m ms x :
  gate_maps (Sequential (m :: ms)) x =
  (fst (gate_maps (Sequential ms) (fst (gate_maps m x))),
   snd (gate_maps m x) ++ snd (gate_maps (Sequential ms) (fst (gate_maps m x)))).
Proof.
  simpl. destruct (gate_maps m x) as [y maps]. simpl.
  match goal with |- (let '(z, maps') := ?r in _) = _ => destruct r end.
  reflexivity.
Qed.

(** Calling a module stores exactly the maps of its hooked gates, in the
    order the gates run. *)
Lemma call_gate_maps (n : nat) (m : nnModule) :
  forall x reg,
    call n m x reg =
    (fst (gate_maps m x), fold_left (store_map n) (snd (gate_maps m x)) reg).
Proof.
  induction m as [m Hleaf | ms IH | sub IH] using nnModule_ind.
  - destruct m; try contradiction; intros x reg; try reflexivity.
    destruct forward_hooks; reflexivity.
  - induction IH as [| m ms Hm _ IHms]; intros x reg; [reflexivity |].
    rewrite call_Sequential_cons, gate_maps_Sequential_cons, Hm, IHms.
    cbn [fst snd]. now rewrite fold_left_app.
  - intros x reg. simpl. rewrite IH.
    destruct (gate_maps sub x) as [y maps]. reflexivity.
Qed.

Lemma gate_maps_length (m : nnModule) :
  forall x, length (snd (gate_maps m x)) = count_gates m.
Proof.
  induction m as [m Hleaf | ms IH | sub IH] using nnModule_ind.
  - destruct m; try contradiction; intros x; try reflexivity.
    destruct forward_hooks; reflexivity.
  - induction IH as [| m ms Hm _ IHms]; intros x; [reflexivity |].
    rewrite gate_maps_Sequential_cons. cbn [snd].
    rewrite length_app, Hm, IHms. reflexivity.
  - intros x. specialize (IH x). simpl.
    destruct (gate_maps sub x) as [y maps]. exact IH.
Qed.

Lemma forward_spec (net : UNet Tensor) (x : Tensor) :
  forward net x =
  ((fst (gate_maps (model Tensor net) x),
    fold_left (store_map (length (channels (config Tensor net))))
      (snd (gate_maps (model Tensor net) x)) (att_maps Tensor net)),
   mkUNet Tensor (config Tensor net)
     (fold_left (store_map (length (channels (config Tensor net))))
        (snd (gate_maps (model Tensor net) x)) (att_maps Tensor net))
     (model Tensor net)).
Proof. unfold UNet2d5_spvPA.forward. rewrite call_gate_maps. reflexivity. Qed.

(** A network whose hooked gates are as many as its channel entries
    keeps its registry empty or full between evaluations. *)
Lemma forward_all_registry (net : UNet Tensor) :
  (1 <= length (channels (config Tensor net)))%nat ->
  count_gates (model Tensor net) = length (channels (config Tensor net)) ->
  att_maps Tensor net = [] \/
    length (att_maps Tensor net) = length (channels (config Tensor net)) ->
  forall xs,
    config Tensor (forward_all net xs) = config Tensor net /\
    model Tensor (forward_all net xs) = model Tensor net /\
    (att_maps Tensor (forward_all net xs) = [] \/
     length (att_maps Tensor (forward_all net xs)) =
       length (channels (config Tensor net))).
Proof.
  intros Hn Hc H0 xs.
  induction xs as [| x xs IH] using rev_ind.
  - simpl. auto.
  - destruct IH as (IHc & IHm & IHr).
    unfold UNet2d5_spvPA.forward_all in *. rewrite fold_left_app. simpl.
    rewrite forward_spec. cbn [snd config model att_maps].
    rewrite IHc, IHm. split; [reflexivity |]. split; [reflexivity |].
    right. rewrite store_all_full_set; auto.
    + rewrite gate_maps_length. exact Hc.
    + rewrite gate_maps_length. exact Hc.
Qed.

(** One more evaluation on such a network, started with an empty
    registry some evaluations ago. *)
Lemma evaluation_registry (net : UNet Tensor) (xs : list Tensor) (x : Tensor) :
  (1 <= length (channels (config Tensor net)))%nat ->
  count_gates (model Tensor net) = length (channels (config Tensor net)) ->
  att_maps Tensor net = [] ->
  let n := length (channels (config Tensor net)) in
  let before := forward_all net xs in
  let maps := snd (gate_maps (model Tensor net) x) in
  count_gates (model Tensor net) = n /\
  length maps = n /\
  snd (fst (forward before x)) = maps /\
  att_maps Tensor (snd (forward before x)) = maps /\
  length (att_maps Tensor (forward_all net (xs ++ [x]))) = n /\
  (forall a maps', maps = a :: maps' ->
     store_map n (att_maps Tensor before) a = [a]) /\
  (forall stored rest, maps = stored ++ rest ->
     (length (fold_left (store_map n) stored (att_maps Tensor before)) <= n)%nat).
Proof.
  intros Hn Hc H0 n before maps.
  assert (Hmaps : length maps = n).
  { unfold maps. rewrite gate_maps_length. exact Hc. }
  destruct (forward_all_registry net Hn Hc (or_introl H0) xs)
    as (Bc & Bm & Br).
  fold before in Bc, Bm, Br. fold n in Br.
  assert (Hafter :
    fold_left (store_map n) maps (att_maps Tensor before) = maps).
  { apply store_all_full_set; [exact Hn | exact Hmaps | exact Br]. }
  assert (Hfwd : forward before x =
                 ((fst (gate_maps (model Tensor net) x), maps),
                  mkUNet Tensor (config Tensor net) maps (model Tensor net))).
  { rewrite forward_spec, Bc, Bm. fold n maps. now rewrite Hafter. }
  split; [exact Hc |]. split; [exact Hmaps |].
  rewrite Hfwd. cbn [fst snd att_maps].
  split; [reflexivity |]. split; [reflexivity |]. split.
  - unfold UNet2d5_spvPA.forward_all. rewrite fold_left_app. simpl.
    fold (forward_all net xs). fold before. rewrite Hfwd. exact Hmaps.
  - split.
    + intros a maps' _. unfold store_map.
      destruct Br as [-> | Br].
      * change (length (@nil Tensor)) with 0%nat.
        destruct (Nat.eqb_spec 0 n) as [E | E]; [unfold n in E; lia |].
        reflexivity.
      * rewrite Br, Nat.eqb_refl. reflexivity.
    + intros stored rest _. apply store_all_bound; [exact Hn |].
      destruct Br as [-> | Br]; [simpl; lia | unfold n in *; lia].
Qed.

(** C4. On a network built with attention gating enabled, after every
    forward evaluation the registry [att_maps] (which is also what
    [forward] returns) holds exactly the attention maps of that
    evaluation, one per first-stage gate in the order the gates run, and
    there are [len(channels)] of them; a full registry left by the
    previous evaluation is dropped at the first hook call, and at no
    point of the evaluation does the registry hold more than
    [len(channels)] maps. *)
Theorem att_maps_one_per_gate (cfg : Config) (net : UNet Tensor)
    (xs : list Tensor) (x : Tensor) :
  attention_module cfg = true ->
  __init__ Tensor cfg = Ok net ->
  let n := length (channels cfg) in
  let before := forward_all net xs in
  let maps := snd (gate_maps (model Tensor net) x) in
  count_gates (model Tensor net) = n /\
  length maps = n /\
  snd (fst (forward before x)) = maps /\
  att_maps Tensor (snd (forward before x)) = maps /\
  length (att_maps Tensor (forward_all net (xs ++ [x]))) = n /\
  (forall a maps', maps = a :: maps' ->
     store_map n (att_maps Tensor before) a = [a]) /\
  (forall stored rest, maps = stored ++ rest ->
     (length (fold_left (store_map n) stored (att_maps Tensor before)) <= n)%nat).
Proof.
  intros Ha Hinit.
  destruct (Builder.init_inv Tensor cfg net Hinit) as (Hl & Hn & Hmode).
  destruct (Builder.init_ok Tensor cfg Hl Hn Hmode) as (m & Hm & Hnet).
  rewrite Hnet in Hinit. injection Hinit as <-.
  apply Builder.lengths_agree_spec in Hl as (H1 & H2 & H3).
  destruct (Builder.create_block_ok cfg Hmode (channels cfg) (strides cfg)
              (kernel_sizes cfg) (sample_kernel_sizes cfg) (in_channels cfg)
              (out_channels cfg) true) as (m' & Hm' & Hc & _); try lia.
  rewrite Hm in Hm'. injection Hm' as <-. rewrite Ha in Hc |- *.
  apply (evaluation_registry
           (mkUNet Tensor cfg [] (register_forward_hooks m)) xs x).
  - simpl. lia.
  - exact Hc.
  - reflexivity.
Qed.

End Evaluation.

Lemma att_maps_one_per_gate_witness :
  attention_module (two_level_config true 2) = true /\
  exists net,
    __init__ (list Z) (two_level_config true 2) = Ok net /\
    att_maps (list Z)
      (snd (forward (list Z) trace_forward trace_cat trace_getitem0
              (forward_all (list Z) trace_forward trace_cat trace_getitem0
                 net [[1]; [2]]) [3])) = [[16; 3]; [32; 16; 3]].
Proof.
  split; [reflexivity |].
  eexists. split; [reflexivity |].
  exact (proj1 (proj2 (proj2 (proj2
           (att_maps_one_per_gate (list Z) trace_forward trace_cat
              trace_getitem0 (two_level_config true 2) _ [[1]; [2]] [3]
              eq_refl eq_refl))))).
Defined.

(** *** A network without gates *)

Section WithoutGates.
Variable Tensor : Type.
Variable leaf_forward : nnModule -> Tensor -> Tensor.
Variable cat : Tensor -> Tensor -> Tensor.
Variable getitem0 : Tensor -> Tensor.

Local Abbreviation gate_maps := (gate_maps Tensor leaf_forward cat getitem0).
Local Abbreviation forward := (forward Tensor leaf_forward cat getitem0).
Local Abbreviation forward_all := (forward_all Tensor leaf_forward cat getitem0).

Lemma no_gate_no_maps (m : nnModule) (x : Tensor) :
  count_gates m = 0%nat -> snd (gate_maps m x) = [].
Proof.
  intros H. apply length_zero_iff_nil.
  now rewrite (gate_maps_length Tensor leaf_forward cat getitem0).
Qed.

Lemma forward_all_no_gate (net : UNet Tensor) :
  count_gates (model Tensor net) = 0%nat ->
  forall xs,
    forward_all net xs = net.
Proof.
  intros Hc xs. induction xs as [| x xs IH] using rev_ind; [reflexivity |].
  unfold UNet2d5_spvPA.forward_all in *. rewrite fold_left_app. simpl.
  rewrite IH. rewrite (forward_spec Tensor leaf_forward cat getitem0).
  cbn [snd]. rewrite no_gate_no_maps by exact Hc. simpl.
  destruct net; reflexivity.
Qed.

(** X11. On a network built with attention disabled no gate carries
    the hook, every forward evaluation returns an empty list of
    attention maps, and the registry is still empty after any number of
    evaluations. *)
Theorem no_attention_no_maps (cfg : Config) (net : UNet Tensor)
    (xs : list Tensor) (x : Tensor) :
  attention_module cfg = false ->
  __init__ Tensor cfg = Ok net ->
  count_gates (model Tensor net) = 0%nat /\
  snd (fst (forward (forward_all net xs) x)) = [] /\
  att_maps Tensor (forward_all net (xs ++ [x])) = [].
Proof.
  intros Ha Hinit.
  destruct (Builder.init_built Tensor cfg net Hinit)
    as (m & Hm & -> & Hn & Hk & Hs & Hsk & Hmode).
  destruct (Builder.create_block_ok cfg Hmode (channels cfg) (strides cfg)
              (kernel_sizes cfg) (sample_kernel_sizes cfg) (in_channels cfg)
              (out_channels cfg) true Hn Hk Hs Hsk) as (m' & Hm' & Hc & _).
  rewrite Hm in Hm'. injection Hm' as <-. rewrite Ha in Hc |- *.
  pose proof (Builder.count_gates_register_le m) as Hle.
  assert (H0 : count_gates m = 0%nat) by lia.
  split; [exact H0 |].
  rewrite !forward_all_no_gate by exact H0.
  rewrite (forward_spec Tensor leaf_forward cat getitem0).
  cbn [fst snd model att_maps]. rewrite no_gate_no_maps by exact H0.
  split; reflexivity.
Qed.

End WithoutGates.

Lemma no_attention_no_maps_witness :
  attention_module (two_level_config false 2) = false /\
  exists net,
    __init__ (list Z) (two_level_config false 2) = Ok net /\
    snd (fst (forward (list Z) trace_forward trace_cat trace_getitem0
                (forward_all (list Z) trace_forward trace_cat trace_getitem0
                   net [[1]; [2]]) [3])) = [].
Proof.
  split; [reflexivity |].
  eexists. split; [reflexivity |].
  exact (proj1 (proj2
           (no_attention_no_maps (list Z) trace_forward trace_cat
              trace_getitem0 (two_level_config false 2) _ [[1]; [2]] [3]
              eq_refl eq_refl))).
Defined.


End Registry.

(** ** The refinement block *)

Module Refinement.
Import TransformerBottleneck.




Section Block.
Variables proj attn ffn deproj : Tensor -> Tensor.
Variable positional_encoding : Tensor -> Tensor.
Variables to_tokens from_tokens : Tensor -> Tensor.

Local Abbreviation x_out :=
  (x_out proj attn ffn deproj positional_encoding to_tokens from_tokens).
Local Abbreviation forward :=
  (forward proj attn ffn deproj positional_encoding to_tokens from_tokens).


End Block.


(** The initial [gamma], obtained above by the operations of the IEEE
    specification, is also what rounding 1/10 to a double and then to a
    single gives in the rational model of rounding. *)
Example gamma_init_rounded :
  (SF2Q float64_0_1 == IEEE.float64 (1 # 10))%Q /\
  (SF2Q gamma_init == IEEE.float32 (IEEE.float64 (1 # 10)))%Q.
Proof. split; vm_compute; reflexivity. Qed.


(** Outside these conditions IEEE arithmetic does not give [x] back: a
    NaN entry is not equal to itself, and an infinite entry of [x_out]
    times zero is NaN. *)
Example zero_residual_nan :
  tensor_equal (tensor_add [S754_nan] (tensor_scale (S754_zero false)
                                         [SFone 24 128])) [S754_nan] = false.
Proof. reflexivity. Qed.

Example zero_residual_overflow :
  tensor_add [SFone 24 128]
    (tensor_scale (S754_zero false) [S754_infinity false]) = [S754_nan].
Proof. reflexivity. Qed.

End Refinement.

(** ** Loading trained parameters *)

Module Checkpoint.
Import stdpp.base stdpp.gmap stdpp.strings.
Import Py VSparams.

(** The three ways a saved tensor meets a parameter. *)
Lemma input_param_spec (p q : Entry) :
  (entry_shape p = [] ∧ entry_shape q = [0%nat] ∧ ¬ fits p q ∧
   ∃ e, input_param p q = Raise e ∧ exc_class e = IndexError) ∨
  (fits p q ∧ input_param p q = Ok (taken p q) ∧
   entry_shape (taken p q) = entry_shape p) ∨
  (¬ fits p q ∧ ¬ (entry_shape p = [] ∧ entry_shape q = [0%nat]) ∧
   input_param p q = Ok q ∧ entry_shape q ≠ entry_shape p).
Proof.
  unfold input_param, taken, fits.
  destruct (entry_shape p) as [| a sp] eqn:Hp.
  - destruct (entry_shape q) as [| n [| n' sq]] eqn:Hq.
    + right. left. split_and!; [by left | done | done].
    + destruct n as [| n].
      * left. split_and!; [done | done | | by eexists].
        intros [H | (_ & n & H)]; done.
      * right. left. rewrite bool_decide_eq_false_2 by done.
        split_and!; [right; eauto | done | done].
    + right. right. split_and!; [| | done | done].
      * intros [H | (_ & n0 & H)]; done.
      * intros [_ H]; done.
  - destruct (decide (entry_shape q = a :: sp)) as [E | E].
    + right. left. rewrite E. split_and!; [by left | done | done].
    + right. right. split_and!; [| | done | done].
      * intros [H | (H & _)]; done.
      * intros [H _]; done.
Qed.

Lemma index_failures_empty (own state_dict : gmap string Entry) :
  index_failures own state_dict = ∅ ↔ ¬ empty_for_scalar own state_dict.
Proof.
  unfold index_failures, empty_for_scalar. rewrite map_empty. split.
  - intros H (k & p & q & Hp & Hq & Hsp & Hsq).
    specialize (H k). apply map_lookup_filter_None in H as [H | H].
    + congruence.
    + apply (H p Hp). unfold index_fails. simpl. rewrite Hq.
      unfold input_param. rewrite Hsp, Hsq. done.
  - intros H k. apply map_lookup_filter_None. right. intros p Hp Hd.
    apply H. unfold index_fails in Hd. simpl in Hd.
    destruct (state_dict !! k) as [q |] eqn:Hq; [| done].
    exists k, p, q. split_and!; [done | done | |];
      destruct (input_param_spec p q)
        as [(H1 & H2 & _) | [(_ & E & _) | (_ & _ & E & _)]];
      try done; rewrite E in Hd; done.
Qed.

Lemma size_mismatches_empty (own state_dict : gmap string Entry) :
  ¬ empty_for_scalar own state_dict →
  size_mismatches own state_dict = ∅ ↔ ¬ shapes_differ own state_dict.
Proof.
  intros Hne. unfold size_mismatches, shapes_differ. rewrite map_empty. split.
  - intros H (k & p & q & Hp & Hq & Hnf).
    specialize (H k). apply map_lookup_filter_None in H as [H | H].
    + congruence.
    + apply (H p Hp). unfold shape_differs. simpl. rewrite Hq.
      destruct (input_param_spec p q)
        as [(H1 & H2 & _) | [(Hf & _) | (_ & _ & E & Hs)]].
      * exfalso. apply Hne. by exists k, p, q.
      * done.
      * rewrite E. rewrite bool_decide_eq_false_2; done.
  - intros H k. apply map_lookup_filter_None. right. intros p Hp Hd.
    apply H. unfold shape_differs in Hd. simpl in Hd.
    destruct (state_dict !! k) as [q |] eqn:Hq; [| done].
    exists k, p, q. split_and!; [done | done |].
    destruct (input_param_spec p q)
      as [(_ & _ & Hnf & _) | [(_ & E & Hs) | (Hnf & _)]]; try done.
    rewrite E in Hd. rewrite bool_decide_eq_true_2 in Hd; done.
Qed.

Lemma keys_agree (own state_dict : gmap string Entry) :
  missing_keys own state_dict ∪ unexpected_keys own state_dict = ∅ ↔
  ¬ names_differ own state_dict.
Proof.
  unfold missing_keys, unexpected_keys, names_differ. split.
  - intros H Hne. apply Hne. apply set_eq. intros k.
    destruct (decide (k ∈ dom own)), (decide (k ∈ dom state_dict));
      set_solver.
  - intros H. destruct (decide (dom own = dom state_dict)) as [E | E];
      [| done].
    rewrite E. apply set_eq. intros k.
    rewrite elem_of_union, !elem_of_difference, elem_of_empty. tauto.
Qed.

(** A saved tensor that does not fit is either an empty one for a
    scalar or a size mismatch. *)
Lemma empty_for_scalar_differs (model blob : gmap string Entry) :
  empty_for_scalar model blob → shapes_differ model blob.
Proof.
  intros (k & p & q & Hp & Hq & Hsp & Hsq). exists k, p, q.
  split_and!; [done | done |].
  intros [H | (_ & n & H)]; rewrite Hsq in H; [rewrite Hsp in H |]; done.
Qed.

(** The outcome of [load_state_dict]. *)
Lemma load_state_dict_interrupted (own state_dict : gmap string Entry) strict :
  empty_for_scalar own state_dict →
  ∃ e, load_state_dict own state_dict strict = Raise e ∧
       exc_class e = IndexError.
Proof.
  intros H. unfold load_state_dict.
  rewrite bool_decide_eq_false_2; [by eexists |].
  rewrite index_failures_empty. tauto.
Qed.

Lemma load_state_dict_visited (own state_dict : gmap string Entry) strict :
  ¬ empty_for_scalar own state_dict →
  ∃ loaded err,
    load_state_dict own state_dict strict = Ok (loaded, err) ∧
    (∀ k, own !! k = None → loaded !! k = None) ∧
    (∀ k p, own !! k = Some p →
       ∃ p', loaded !! k = Some p' ∧ entry_shape p' = entry_shape p ∧
             match state_dict !! k with
             | Some q => (fits p q ∧ p' = taken p q) ∨ (¬ fits p q ∧ p' = p)
             | None => p' = p
             end) ∧
    (err = None ↔
     ¬ shapes_differ own state_dict ∧
     (strict = true → ¬ names_differ own state_dict)) ∧
    (∀ e, err = Some e → exc_class e = RuntimeError).
Proof.
  intros Hne. unfold load_state_dict.
  rewrite bool_decide_eq_true_2 by (by apply index_failures_empty).
  eexists _, _. split; [done |]. split_and!.
  - intros k Hk. rewrite map_lookup_imap, Hk. done.
  - intros k p Hp. rewrite map_lookup_imap, Hp. simpl.
    destruct (state_dict !! k) as [q |] eqn:Hq; [| by eexists].
    destruct (input_param_spec p q)
      as [(H1 & H2 & _) | [(Hf & E & Hs) | (Hnf & _ & E & Hs)]].
    + exfalso. apply Hne. by exists k, p, q.
    + rewrite E, bool_decide_eq_true_2 by done. eexists. split_and!; eauto.
    + rewrite E, bool_decide_eq_false_2 by done. eexists. split_and!; eauto.
  - pose proof (size_mismatches_empty own state_dict Hne) as Hs.
    pose proof (keys_agree own state_dict) as Hk.
    destruct (bool_decide (size_mismatches own state_dict = ∅)) eqn:Es;
      destruct (bool_decide (missing_keys own state_dict ∪
                             unexpected_keys own state_dict = ∅)) eqn:Ek;
      destruct strict; simpl;
      try apply bool_decide_eq_true_1 in Es;
      try apply bool_decide_eq_false_1 in Es;
      try apply bool_decide_eq_true_1 in Ek;
      try apply bool_decide_eq_false_1 in Ek;
      split;
      first
        [ done
        | tauto
        | intros _; split; [tauto | intros ?; first [done | tauto]]
        | intros [H1 H2]; first [tauto | specialize (H2 eq_refl); tauto] ].
  - intros e. destruct (_ || _); [| done]. by intros [= <-].
Qed.

(** What the loader that never asks for strictness returns. *)
Lemma load_trained_state_returns (model blob : gmap string Entry) :
  ¬ shapes_differ model blob →
  ∃ model', load_trained_state_of_model model blob = Ok model' ∧
    ∀ k, model' !! k =
         (λ p, from_option (taken p) p (blob !! k)) <$> model !! k.
Proof.
  intros H. unfold load_trained_state_of_model.
  assert (Hne : ¬ empty_for_scalar model blob).
  { intros He. by apply H, empty_for_scalar_differs. }
  destruct (load_state_dict_visited model blob false Hne)
    as (m & err & -> & Hnone & Hm & Herr & _).
  assert (err = None) as -> by (apply Herr; split; done).
  exists m. split; [done |]. intros k.
  destruct (model !! k) as [p |] eqn:Hp; [| by rewrite Hnone].
  destruct (Hm k p Hp) as (p' & -> & _ & Hp'). simpl. f_equal.
  destruct (blob !! k) as [q |] eqn:Hq; [| done]. simpl.
  destruct Hp' as [[_ ->] | [Hnf _]]; [done |].
  exfalso. apply H. by exists k, p, q.
Qed.



Lemma example_no_empty_vector : ¬ empty_for_scalar example_model example_blob.
Proof. apply index_failures_empty. by vm_compute. Qed.

Lemma example_shapes_agree : ¬ shapes_differ example_model example_blob.
Proof.
  apply (size_mismatches_empty _ _ example_no_empty_vector). by vm_compute.
Qed.



(** It fails for the strict loader as well: the saved [gamma] has one
    dimension and the parameter none, the shapes mismatch, and the call
    returns the model with the first entry of the saved tensor. *)
Example strict_load_takes_first_entry :
  (∃ p q, example_model !! "bottleneck.gamma"%string = Some p ∧
          example_blob_vector !! "bottleneck.gamma"%string = Some q ∧
          entry_shape q ≠ entry_shape p) ∧
  ∃ model',
    new_load_trained_state_of_model example_model example_blob_vector =
      Ok model' ∧
    model' !! "bottleneck.gamma"%string = Some (mkEntry []%nat [5]%Z).
Proof.
  split.
  - eexists _, _. split; [by vm_compute |]. split; [by vm_compute | done].
  - eexists. split; by vm_compute.
Qed.

(** Under [strict=True] the blob without [gamma] is refused, after the
    parameter it does name has been overwritten. *)
Example strict_load_copies_before_raising :
  ∃ loaded e,
    load_state_dict example_model example_blob true = Ok (loaded, Some e) ∧
    exc_class e = RuntimeError ∧
    loaded !! "gate.weight"%string =
      Some (mkEntry [2; 2]%nat [7; 7; 7; 7]%Z).
Proof. eexists _, _. split_and!; by vm_compute. Qed.

(** *** What loading keeps *)

Lemma taken_shape (p p' q : Entry) :
  entry_shape p' = entry_shape p → taken p' q = taken p q.
Proof. unfold taken. by intros ->. Qed.

Lemma fits_shape (p p' q : Entry) :
  entry_shape p' = entry_shape p → fits p' q ↔ fits p q.
Proof. unfold fits. by intros ->. Qed.


Lemma load_state_dict_ok (own state_dict : gmap string Entry) strict r :
  load_state_dict own state_dict strict = Ok r →
  ¬ empty_for_scalar own state_dict.
Proof.
  intros H He.
  destruct (load_state_dict_interrupted own state_dict strict He)
    as (e & E & _).
  congruence.
Qed.

Lemma loaders_return_loaded (model blob model' : gmap string Entry) :
  (load_trained_state_of_model model blob = Ok model' →
   load_state_dict model blob false = Ok (model', None)) ∧
  (new_load_trained_state_of_model model blob = Ok model' →
   load_state_dict model blob true = Ok (model', None)).
Proof.
  unfold load_trained_state_of_model, new_load_trained_state_of_model.
  split; intros H.
  - destruct (load_state_dict model blob false) as [[m [e |]] | e];
      simpl; congruence.
  - destruct (load_state_dict model blob true) as [[m [e |]] | e];
      simpl; congruence.
Qed.




(** X14. Loading the same saved state a second time with
    [load_trained_state_of_model] succeeds again and changes nothing. *)
Theorem loading_twice (model blob model' : gmap string Entry) :
  load_trained_state_of_model model blob = Ok model' →
  load_trained_state_of_model model' blob = Ok model'.
Proof.
  intros H.
  apply (proj1 (loaders_return_loaded model blob model')) in H.
  pose proof (load_state_dict_ok _ _ _ _ H) as Hne.
  destruct (load_state_dict_visited model blob false Hne)
    as (m & err & E & Hnone & Hm & Herr & _).
  rewrite H in E. injection E as <- <-.
  destruct (proj1 Herr eq_refl) as [Hs _].
  (* every parameter of the model returned has the shape it had *)
  assert (Hback : ∀ k p', model' !! k = Some p' →
            ∃ p, model !! k = Some p ∧ entry_shape p' = entry_shape p ∧
                 p' = from_option (taken p) p (blob !! k)).
  { intros k p' Hp'. destruct (model !! k) as [p |] eqn:Hp.
    - destruct (Hm k p Hp) as (p'' & Hp'' & Hsh & Hc).
      rewrite Hp' in Hp''. injection Hp'' as <-.
      exists p. split_and!; [done | done |].
      destruct (blob !! k) as [q |] eqn:Hq; simpl; [| done].
      destruct Hc as [[_ ->] | [Hnf _]]; [done |].
      exfalso. apply Hs. by exists k, p, q.
    - rewrite (Hnone k Hp) in Hp'. done. }
  assert (Hs' : ¬ shapes_differ model' blob).
  { intros (k & p' & q & Hp' & Hq & Hnf).
    destruct (Hback k p' Hp') as (p & Hp & Hsh & _).
    apply Hs. exists k, p, q. split_and!; [done | done |].
    by rewrite <- (fits_shape p p' q Hsh). }
  destruct (load_trained_state_returns model' blob Hs') as (model'' & -> & Hm'').
  f_equal. apply map_eq. intros k. rewrite Hm''.
  destruct (model' !! k) as [p' |] eqn:Hp'; [| done]. simpl. f_equal.
  destruct (Hback k p' Hp') as (p & Hp & Hsh & Hval).
  destruct (blob !! k) as [q |] eqn:Hq; simpl in *; [| done].
  by rewrite (taken_shape p p' q Hsh).
Qed.




Lemma loading_twice_witness :
  ∃ model',
    load_trained_state_of_model example_model example_blob = Ok model' ∧
    load_trained_state_of_model model' example_blob = Ok model'.
Proof.
  destruct (load_trained_state_returns example_model example_blob
              example_shapes_agree) as (model' & H & _).
  exists model'. split; [exact H |].
  exact (loading_twice example_model example_blob _ H).
Defined.

End Checkpoint.

(** ** Reading the split file *)

Module SplitFile.
Import VSparams.
Import PyErr.

#[local] Arguments os_path_join : simpl never.

Lemma fold_raises {A B} (f : Outcome A -> B -> Outcome A) cls text :
  (forall b, f (Raises cls text) b = Raises cls text) ->
  forall l, fold_left f l (Raises cls text) = Raises cls text.
Proof.
  intros Hf l. induction l as [| b l IH]; simpl; [reflexivity |].
  now rewrite Hf.
Qed.

Lemma read_rows_raises data_root t cls text rows :
  fold_left (fun acc row => st <~ acc ;; read_row data_root t st row) rows
    (Raises cls text) = Raises cls text.
Proof. apply fold_raises. reflexivity. Qed.

(** One well-formed row under a known data set name. *)
Lemma read_row_known data_root t tr va te nm r0 r1 rest :
  t = "T1"%string \/ t = "T2"%string ->
  let row := r0 :: r1 :: rest in
  exists nm',
    read_row data_root t ((tr, va, te), nm) row =
    Return
      ((tr ++ entries data_root t "training" [row],
        va ++ entries data_root t "validation" [row],
        te ++ entries data_root t "test" [row]), nm').
Proof.
  intros Ht row. unfold read_row, entries, file_dict_of, has_role.
  cbn [filter nth getitem nth_error bind row].
  destruct Ht as [-> | ->]; cbn [String.eqb Ascii.eqb Bool.eqb bind];
    (destruct (String.eqb_spec r1 "training") as [-> | H1];
     [cbn; rewrite ?app_nil_r; eexists; reflexivity |]);
    (destruct (String.eqb_spec r1 "validation") as [-> | H2];
     [cbn; rewrite ?app_nil_r; eexists; reflexivity |]);
    (destruct (String.eqb_spec r1 "test") as [-> | H3];
     [cbn; rewrite ?app_nil_r; eexists; reflexivity |]);
    cbn; rewrite ?app_nil_r; eexists; reflexivity.
Qed.

Lemma entries_cons data_root t role row rows :
  entries data_root t role (row :: rows) =
  (entries data_root t role [row] ++ entries data_root t role rows)%list.
Proof.
  unfold entries. cbn [filter]. destruct (has_role role row); reflexivity.
Qed.

Lemma read_from_known data_root t :
  t = "T1"%string \/ t = "T2"%string ->
  forall rows tr va te nm,
    Forall (fun row => (2 <= length row)%nat) rows ->
    exists nm',
      fold_left (fun acc row => st <~ acc ;; read_row data_root t st row) rows
        (Return ((tr, va, te), nm)) =
      Return
        ((tr ++ entries data_root t "training" rows,
          va ++ entries data_root t "validation" rows,
          te ++ entries data_root t "test" rows), nm').
Proof.
  intros Ht rows. induction rows as [| row rows IH]; intros tr va te nm Hwf.
  - exists nm. unfold entries. simpl. now rewrite !app_nil_r.
  - inversion Hwf as [| ? ? Hrow Hwf']; subst.
    destruct row as [| r0 [| r1 rest]]; try (simpl in Hrow; lia).
    destruct (read_row_known data_root t tr va te nm r0 r1 rest Ht)
      as [nm1 E1].
    cbn [fold_left bind]. rewrite E1.
    match goal with
    | |- context [Return ((?a, ?b, ?c), nm1)] =>
        destruct (IH a b c nm1 Hwf') as [nm' E]
    end.
    exists nm'. rewrite E.
    rewrite (entries_cons _ _ "training" _ rows),
      (entries_cons _ _ "validation" _ rows),
      (entries_cons _ _ "test" _ rows), !app_assoc. reflexivity.
Qed.

Lemma read_rows_known data_root t rows :
  t = "T1"%string \/ t = "T2"%string ->
  Forall (fun row => (2 <= length row)%nat) rows ->
  exists nm',
    read_rows data_root t rows =
    Return ((entries data_root t "training" rows,
             entries data_root t "validation" rows,
             entries data_root t "test" rows), nm').
Proof.
  intros Ht Hwf.
  destruct (read_from_known data_root t Ht rows [] [] [] None Hwf) as [nm' E].
  exists nm'. exact E.
Qed.

Lemma check_files_ok isfile l :
  files_exist isfile l -> check_files isfile l = Return tt.
Proof.
  induction 1 as [| fd l [H1 H2] _ IH]; simpl; [reflexivity |].
  now rewrite H1, H2.
Qed.

Lemma check_files_fails isfile l :
  ~ files_exist isfile l ->
  exists fd,
    In fd l /\
    (check_files isfile l =
       Raises AssertionError (" " ++ fd_image fd ++ " is not a file") /\
     isfile (fd_image fd) = false \/
     check_files isfile l =
       Raises AssertionError (" " ++ fd_label fd ++ " is not a file") /\
     isfile (fd_label fd) = false).
Proof.
  induction l as [| fd l IH]; intros H.
  - exfalso. apply H. constructor.
  - simpl. destruct (isfile (fd_image fd)) eqn:H1; simpl.
    + destruct (isfile (fd_label fd)) eqn:H2; simpl.
      * destruct IH as (fd' & Hin & Hc).
        { intros Hl. apply H. constructor; auto. }
        exists fd'. split; [now right | exact Hc].
      * exists fd. split; [now left |]. right. auto.
    + exists fd. split; [now left |]. left. auto.
Qed.

(** X15. For the data set name "T1" or "T2" and a split file whose rows
    all have two fields or more, [load_samples] returns three lists:
    for each of the roles "training", "validation" and "test", the rows
    with that role in their second field, in the order of the file,
    each turned into the image and label paths built from its first
    field, and cut to [[:n]] when [n] is given; rows with any other
    role are skipped.  That is so when all the listed files exist;
    when one does not, the call raises [AssertionError].
    [load_T1_or_T2_data] does the same as [load_samples] without
    [n]. *)
Theorem load_samples_selects (isfile : string -> bool)
    (data_root t : string) (rows : list (list string)) (n : option Z) :
  t = "T1"%string \/ t = "T2"%string ->
  Forall (fun row => (2 <= length row)%nat) rows ->
  let train_files := limit n (entries data_root t "training" rows) in
  let val_files := limit n (entries data_root t "validation" rows) in
  let test_files := limit n (entries data_root t "test" rows) in
  (files_exist isfile (train_files ++ val_files ++ test_files) ->
   load_samples isfile data_root rows n t =
     Return (train_files, val_files, test_files)) /\
  (~ files_exist isfile (train_files ++ val_files ++ test_files) ->
   exists text,
     load_samples isfile data_root rows n t = Raises AssertionError text) /\
  (n = None ->
   load_T1_or_T2_data isfile data_root t rows =
   load_samples isfile data_root rows n t).
Proof.
  intros Ht Hwf train_files val_files test_files.
  destruct (read_rows_known data_root t rows Ht Hwf) as [nm E].
  assert (Hl : load_samples isfile data_root rows n t =
               (_ <~ check_files isfile (train_files ++ val_files ++ test_files) ;;
                Return (train_files, val_files, test_files))).
  { unfold load_samples. rewrite E. cbn [bind].
    destruct n; reflexivity. }
  split; [| split].
  - intros Hex. rewrite Hl, (check_files_ok _ _ Hex). reflexivity.
  - intros Hno. rewrite Hl.
    destruct (check_files_fails _ _ Hno) as (fd & _ & [[-> _] | [-> _]]);
      eexists; reflexivity.
  - intros ->. unfold load_T1_or_T2_data, load_samples.
    rewrite E. reflexivity.
Qed.

Lemma load_samples_selects_witness :
  let rows :=
    [["a"; "training"]; ["b"; "validation"]; ["c"; "test"; "x"];
     ["d"; "training"]; ["e"; "unused"]]%string in
  let train_files :=
    limit (Some 1) (entries "/data" "T1" "training" rows) in
  let val_files :=
    limit (Some 1) (entries "/data" "T1" "validation" rows) in
  let test_files := limit (Some 1) (entries "/data" "T1" "test" rows) in
  ("T1" = "T1" \/ "T1" = "T2")%string /\
  Forall (fun row => (2 <= length row)%nat) rows /\
  (files_exist (fun _ => true) (train_files ++ val_files ++ test_files) ->
   load_samples (fun _ => true) "/data" rows (Some 1) "T1" =
     Return (train_files, val_files, test_files)) /\
  (~ files_exist (fun _ => true) (train_files ++ val_files ++ test_files) ->
   exists text,
     load_samples (fun _ => true) "/data" rows (Some 1) "T1" =
       Raises AssertionError text) /\
  (Some 1 = None ->
   load_T1_or_T2_data (fun _ => true) "/data" "T1" rows =
   load_samples (fun _ => true) "/data" rows (Some 1) "T1").
Proof.
  intros rows train_files val_files test_files.
  assert (H1 : ("T1" = "T1" \/ "T1" = "T2")%string) by (left; reflexivity).
  assert (H2 : Forall (fun row => (2 <= length row)%nat) rows).
  { repeat constructor. }
  split; [exact H1 |]. split; [exact H2 |].
  exact (load_samples_selects (fun _ => true) "/data" "T1" rows (Some 1)
           H1 H2).
Defined.

Lemma slice_to_firstn {A} (n : Z) (l : list A) :
  (0 <= n -> slice_to n l = firstn (Z.to_nat n) l) /\
  (n < 0 -> slice_to n l = firstn (length l - Z.to_nat (- n)) l).
Proof.
  unfold slice_to, slice_index. split; intros Hn.
  - destruct (Z.ltb_spec n 0) as [? | _]; [lia |].
    destruct (Z_le_gt_dec n (Z.of_nat (length l))) as [Hle | Hgt].
    + now rewrite Z.min_l by lia.
    + rewrite Z.min_r by lia. rewrite Nat2Z.id.
      rewrite !firstn_all2; [reflexivity | lia | lia].
  - destruct (Z.ltb_spec n 0) as [_ | ?]; [| lia].
    f_equal. lia.
Qed.

(** X16. When [load_samples] returns for an integer [n], each of the
    three lists is the slice [[:n]] of the list read from the file: its
    first [n] entries for [n >= 0], hence at most [n] of them, and for
    a negative [n] all entries but the last [-n]. *)
Theorem load_samples_limit (isfile : string -> bool)
    (data_root t : string) (rows : list (list string)) (n : Z)
    (train_files val_files test_files : list FileDict) :
  load_samples isfile data_root rows (Some n) t =
    Return (train_files, val_files, test_files) ->
  exists all_train all_val all_test names,
    read_rows data_root t rows =
      Return ((all_train, all_val, all_test), names) /\
    (0 <= n ->
     train_files = firstn (Z.to_nat n) all_train /\
     val_files = firstn (Z.to_nat n) all_val /\
     test_files = firstn (Z.to_nat n) all_test /\
     Z.of_nat (length train_files) <= n /\
     Z.of_nat (length val_files) <= n /\
     Z.of_nat (length test_files) <= n) /\
    (n < 0 ->
     train_files = firstn (length all_train - Z.to_nat (- n)) all_train /\
     val_files = firstn (length all_val - Z.to_nat (- n)) all_val /\
     test_files = firstn (length all_test - Z.to_nat (- n)) all_test).
Proof.
  unfold load_samples. intros H.
  destruct (read_rows data_root t rows) as [[[[tr va] te] nm] | cls text];
    [| discriminate].
  cbn [bind] in H.
  destruct (check_files isfile _) as [[] | cls text]; [| discriminate].
  cbn [bind] in H. injection H as <- <- <-.
  exists tr, va, te, nm. split; [reflexivity |].
  split; intros Hn.
  - rewrite !(proj1 (slice_to_firstn n _) Hn).
    repeat split; try reflexivity;
      rewrite length_firstn; lia.
  - rewrite !(proj2 (slice_to_firstn n _) Hn). repeat split.
Qed.

Lemma load_samples_limit_witness :
  let rows :=
    [["a"; "training"]; ["b"; "validation"]; ["c"; "test"];
     ["d"; "training"]]%string in
  let fd_a :=
    mkFileDict "/data/input_data/a/vs_gk_t1_refT1.nii.gz"
      "/data/input_data/a/vs_gk_seg_refT1.nii.gz" in
  load_samples (fun _ => true) "/data" rows (Some (-1)) "T1" =
    Return ([fd_a], [], []) /\
  exists all_train all_val all_test names,
    read_rows "/data" "T1" rows =
      Return ((all_train, all_val, all_test), names) /\
    (0 <= -1 ->
     [fd_a] = firstn (Z.to_nat (-1)) all_train /\
     [] = firstn (Z.to_nat (-1)) all_val /\
     [] = firstn (Z.to_nat (-1)) all_test /\
     Z.of_nat (length [fd_a]) <= -1 /\
     Z.of_nat (@length FileDict []) <= -1 /\
     Z.of_nat (@length FileDict []) <= -1) /\
    (-1 < 0 ->
     [fd_a] = firstn (length all_train - Z.to_nat (- -1)) all_train /\
     [] = firstn (length all_val - Z.to_nat (- -1)) all_val /\
     [] = firstn (length all_test - Z.to_nat (- -1)) all_test).
Proof.
  intros rows fd_a.
  assert (H : load_samples (fun _ => true) "/data" rows (Some (-1)) "T1" =
              Return ([fd_a], [], [])) by reflexivity.
  split; [exact H |].
  exact (load_samples_limit (fun _ => true) "/data" "T1" rows (-1)
           [fd_a] [] [] H).
Defined.

Lemma read_row_unknown data_root t st row :
  t <> "T1"%string -> t <> "T2"%string -> (2 <= length row)%nat ->
  snd st = None ->
  read_row data_root t st row =
    if known_role row then
      Raises UnboundLocalError
        "local variable 'image_name' referenced before assignment"
    else Return st.
Proof.
  intros H1 H2 Hlen Hnm.
  destruct st as [[[tr va] te] nm]. simpl in Hnm. subst nm.
  destruct row as [| r0 [| r1 rest]]; try (simpl in Hlen; lia).
  unfold read_row, known_role, has_role.
  apply String.eqb_neq in H1, H2. rewrite H1, H2.
  cbn [bind getitem nth_error nth].
  destruct (r1 =? "training")%string; [reflexivity |].
  destruct (r1 =? "validation")%string; [reflexivity |].
  destruct (r1 =? "test")%string; reflexivity.
Qed.

Lemma read_from_unknown data_root t :
  t <> "T1"%string -> t <> "T2"%string ->
  forall rows st,
    Forall (fun row => (2 <= length row)%nat) rows ->
    snd st = None ->
    fold_left (fun acc row => st <~ acc ;; read_row data_root t st row) rows
      (Return st) =
    if existsb known_role rows then
      Raises UnboundLocalError
        "local variable 'image_name' referenced before assignment"
    else Return st.
Proof.
  intros H1 H2 rows. induction rows as [| row rows IH]; intros st Hwf Hnm.
  - reflexivity.
  - inversion Hwf as [| ? ? Hrow Hwf']; subst.
    cbn [fold_left bind existsb].
    rewrite (read_row_unknown data_root t st row H1 H2 Hrow Hnm).
    destruct (known_role row); cbn [orb].
    + apply read_rows_raises.
    + now apply IH.
Qed.

(** X17. For a data set name other than "T1" and "T2" no path is ever
    built: on a split file whose rows all have two fields or more,
    both loaders raise [UnboundLocalError] at the first row with one of
    the three roles, and return three empty lists when there is no such
    row. *)
Theorem load_samples_unknown_dataset (isfile : string -> bool)
    (data_root t : string) (rows : list (list string)) (n : option Z) :
  t <> "T1"%string -> t <> "T2"%string ->
  Forall (fun row => (2 <= length row)%nat) rows ->
  (existsb known_role rows = true ->
   exists text,
     load_samples isfile data_root rows n t = Raises UnboundLocalError text /\
     load_T1_or_T2_data isfile data_root t rows =
       Raises UnboundLocalError text) /\
  (existsb known_role rows = false ->
   load_samples isfile data_root rows n t = Return ([], [], []) /\
   load_T1_or_T2_data isfile data_root t rows = Return ([], [], [])).
Proof.
  intros H1 H2 Hwf.
  assert (E : read_rows data_root t rows =
              if existsb known_role rows then
                Raises UnboundLocalError
                  "local variable 'image_name' referenced before assignment"
              else Return (([], [], []), None)).
  { exact (read_from_unknown data_root t H1 H2 rows (([], [], []), None)
             Hwf eq_refl). }
  unfold load_samples, load_T1_or_T2_data. rewrite E.
  split; intros ->; cbn [bind]; [eexists; split; reflexivity |].
  split; [| reflexivity].
  destruct n as [n |]; [| reflexivity].
  unfold slice_to. rewrite !firstn_nil. reflexivity.
Qed.

Lemma load_samples_unknown_dataset_witness :
  let rows := [["a"; "unused"]; ["b"; "training"]]%string in
  "T3"%string <> "T1"%string /\ "T3"%string <> "T2"%string /\
  Forall (fun row => (2 <= length row)%nat) rows /\
  (existsb known_role rows = true ->
   exists text,
     load_samples (fun _ => true) "/data" rows None "T3" =
       Raises UnboundLocalError text /\
     load_T1_or_T2_data (fun _ => true) "/data" "T3" rows =
       Raises UnboundLocalError text) /\
  (existsb known_role rows = false ->
   load_samples (fun _ => true) "/data" rows None "T3" =
     Return ([], [], []) /\
   load_T1_or_T2_data (fun _ => true) "/data" "T3" rows =
     Return ([], [], [])).
Proof.
  intros rows.
  assert (H1 : "T3"%string <> "T1"%string) by discriminate.
  assert (H2 : "T3"%string <> "T2"%string) by discriminate.
  assert (H3 : Forall (fun row => (2 <= length row)%nat) rows).
  { repeat constructor. }
  split; [exact H1 |]. split; [exact H2 |]. split; [exact H3 |].
  exact (load_samples_unknown_dataset (fun _ => true) "/data" "T3" rows None
           H1 H2 H3).
Defined.

(** X18. A row with fewer than two fields, a blank line for one, makes
    both loaders raise [IndexError], whatever follows it and whether
    the files exist or not, when the rows before it have two fields or
    more and the data set name is "T1" or "T2", or is another name and
    no row before carries one of the three roles.  With another name
    and a role in a row before, the [UnboundLocalError] of that row
    comes first. *)
Theorem load_samples_short_row (isfile : string -> bool)
    (data_root t : string) (good rest : list (list string))
    (bad : list string) (n : option Z) :
  Forall (fun row => (2 <= length row)%nat) good ->
  (length bad < 2)%nat ->
  (t = "T1"%string \/ t = "T2"%string \/ existsb known_role good = false ->
   load_samples isfile data_root (good ++ bad :: rest) n t =
     Raises IndexError "list index out of range" /\
   load_T1_or_T2_data isfile data_root t (good ++ bad :: rest) =
     Raises IndexError "list index out of range") /\
  (t <> "T1"%string -> t <> "T2"%string ->
   existsb known_role good = true ->
   exists text,
     load_samples isfile data_root (good ++ bad :: rest) n t =
       Raises UnboundLocalError text /\
     load_T1_or_T2_data isfile data_root t (good ++ bad :: rest) =
       Raises UnboundLocalError text).
Proof.
  intros Hwf Hbad.
  set (F := fun acc row => st <~ acc ;; read_row data_root t st row).
  assert (Hfold : read_rows data_root t (good ++ bad :: rest) =
            fold_left F rest
              (st <~ fold_left F good (Return (([], [], []), None)) ;;
               read_row data_root t st bad)).
  { unfold read_rows. fold F. rewrite fold_left_app. reflexivity. }
  assert (Er : forall st,
            t = "T1"%string \/ t = "T2"%string \/ snd st = None ->
            read_row data_root t st bad =
              Raises IndexError "list index out of range").
  { intros [[[tr va] te] nm0] Ht. unfold read_row.
    destruct bad as [| r0 [| r1 more]]; [| | simpl in Hbad; lia];
      destruct Ht as [-> | [-> | Hnm]]; try reflexivity;
      simpl in Hnm; subst nm0;
      destruct (t =? "T1")%string; try reflexivity;
      destruct (t =? "T2")%string; reflexivity. }
  split.
  - intros Ht.
    assert (E : read_rows data_root t (good ++ bad :: rest) =
                Raises IndexError "list index out of range").
    { rewrite Hfold.
      assert (Eg : exists st,
                fold_left F good (Return (([], [], []), None)) = Return st /\
                (t = "T1"%string \/ t = "T2"%string \/ snd st = None)).
      { destruct (String.eqb_spec t "T1") as [E1 | N1].
        { destruct (read_from_known data_root t (or_introl E1) good
                      [] [] [] None Hwf) as [nm E].
          eexists. split; [exact E | now left]. }
        destruct (String.eqb_spec t "T2") as [E2 | N2].
        { destruct (read_from_known data_root t (or_intror E2) good
                      [] [] [] None Hwf) as [nm E].
          eexists. split; [exact E | now right; left]. }
        destruct Ht as [Ht | [Ht | Ht]]; [contradiction | contradiction |].
        pose proof (read_from_unknown data_root t N1 N2 good
                      (([], [], []), None) Hwf eq_refl) as E.
        rewrite Ht in E.
        eexists. split; [exact E | right; right; reflexivity]. }
      destruct Eg as (st & -> & Hst). cbn [bind].
      rewrite (Er st Hst). apply read_rows_raises. }
    unfold load_samples, load_T1_or_T2_data. rewrite E. split; reflexivity.
  - intros N1 N2 Hrole.
    pose proof (read_from_unknown data_root t N1 N2 good
                  (([], [], []), None) Hwf eq_refl) as E.
    rewrite Hrole in E.
    assert (E' : read_rows data_root t (good ++ bad :: rest) =
                 Raises UnboundLocalError
                   "local variable 'image_name' referenced before assignment").
    { rewrite Hfold.
      assert (Eg : fold_left F good (Return (([], [], []), None)) =
                   Raises UnboundLocalError
                     "local variable 'image_name' referenced before assignment")
        by exact E.
      rewrite Eg. cbn [bind]. apply read_rows_raises. }
    unfold load_samples, load_T1_or_T2_data. rewrite E'.
    eexists. split; reflexivity.
Qed.

Lemma load_samples_short_row_witness :
  let good := [["a"; "training"]]%string in
  let rest := [["c"; "test"]]%string in
  Forall (fun row => (2 <= length row)%nat) good /\
  (@length string [] < 2)%nat /\
  ("T2" = "T1" \/ "T2" = "T2" \/ existsb known_role good = false)%string /\
  load_samples (fun _ => false) "/data" (good ++ [] :: rest) None "T2" =
    Raises IndexError "list index out of range" /\
  load_T1_or_T2_data (fun _ => false) "/data" "T2" (good ++ [] :: rest) =
    Raises IndexError "list index out of range".
Proof.
  intros good rest.
  assert (H1 : ("T2" = "T1" \/ "T2" = "T2" \/
                existsb known_role good = false)%string)
    by (right; left; reflexivity).
  assert (H2 : Forall (fun row => (2 <= length row)%nat) good).
  { repeat constructor. }
  assert (H3 : (@length string [] < 2)%nat) by (simpl; lia).
  split; [exact H2 |]. split; [exact H3 |]. split; [exact H1 |].
  exact (proj1 (load_samples_short_row (fun _ => false) "/data" "T2" good
                  rest [] None H2 H3) H1).
Defined.

End SplitFile.

(** ** The training loop *)

Module TrainingLoop.
Import VSparams.
Import PyErr.
Local Open Scope Z_scope.

(** The quotient of the next number of epochs by an interval. *)
Lemma div_succ (v k : Z) :
  0 < v -> 0 <= k ->
  (k + 1) / v = if (k + 1) mod v =? 0 then k / v + 1 else k / v.
Proof.
  intros Hv Hk.
  pose proof (Z.div_mod (k + 1) v ltac:(lia)) as E.
  pose proof (Z.mod_pos_bound (k + 1) v Hv) as B.
  destruct (Z.eqb_spec ((k + 1) mod v) 0) as [E0 | N0].
  - rewrite E0 in E.
    assert (Ek : k / v = (k + 1) / v - 1).
    { symmetry. apply (Z.div_unique k v _ (v - 1)); lia. }
    lia.
  - apply (Z.div_unique k v _ ((k + 1) mod v - 1)); lia.
Qed.

Lemma nth_error_snoc {A} (l : list A) (a : A) :
  nth_error (l ++ [a]) (length l) = Some a.
Proof.
  rewrite nth_error_app2 by apply le_n. now rewrite Nat.sub_diag.
Qed.

Section Loop.

Variable rnd : Q -> Q.
Context {Weights Batch : Type}.
Variable train_step : Weights -> list Q -> Batch -> Weights * Q.
Variable evaluate : Weights -> Batch -> Q * Q.
Variable train_loader : nat -> list Batch.
Variable val_loader : list Batch.
Variables num_epochs val_interval epochs_with_const_lr : Z.
Variable lr_divisor : Q.

Local Abbreviation train_epoch := (train_epoch rnd train_step).
Local Abbreviation validation_epoch := (validation_epoch rnd evaluate val_loader).
Local Abbreviation run_epoch :=
  (run_epoch rnd train_step evaluate train_loader val_loader val_interval
     epochs_with_const_lr lr_divisor).
Local Abbreviation run_epochs :=
  (run_epochs rnd train_step evaluate train_loader val_loader val_interval
     epochs_with_const_lr lr_divisor).
Local Abbreviation run_training_algorithm :=
  (run_training_algorithm rnd train_step evaluate train_loader val_loader
     num_epochs val_interval epochs_with_const_lr lr_divisor).

(** The mean Dice score a validation round computes with the weights
    [w]. *)
Local Abbreviation mean_dice w :=
  (rnd (fst (fst (fst (validation_epoch w))) /
        of_int rnd (snd (fst (fst (validation_epoch w))))))%Q.

Lemma run_epochs_S w lrs k :
  run_epochs w lrs (S k) = (st <~ run_epochs w lrs k ;; run_epoch st k).
Proof. unfold VSparams.run_epochs. now rewrite seq_S, fold_left_app. Qed.


(** The batches counted by the two inner loops. *)
Lemma train_epoch_step w lrs batches :
  snd (train_epoch w lrs batches) = Z.of_nat (length batches).
Proof.
  unfold VSparams.train_epoch.
  match goal with |- context [fold_left ?f _ _] => set (F := f) end.
  assert (G : forall l acc,
            snd (fold_left F l acc) = snd acc + Z.of_nat (length l)).
  { induction l as [| b l IH]; intros [[w0 l0] s0]; [simpl; lia |].
    cbn [fold_left]. rewrite IH. unfold F.
    destruct (train_step w0 lrs b) as [w1 loss]. cbn [snd length]. lia. }
  rewrite G. reflexivity.
Qed.

Lemma validation_epoch_counts w :
  snd (fst (fst (validation_epoch w))) = 2 * Z.of_nat (length val_loader) /\
  snd (validation_epoch w) = Z.of_nat (length val_loader).
Proof.
  unfold VSparams.validation_epoch.
  match goal with |- context [fold_left ?f _ _] => set (F := f) end.
  assert (G : forall l acc,
            snd (fst (fst (fold_left F l acc))) =
              snd (fst (fst acc)) + 2 * Z.of_nat (length l) /\
            snd (fold_left F l acc) = snd acc + Z.of_nat (length l)).
  { induction l as [| b l IH]; intros [[[ms mc] lv] s]; [simpl; lia |].
    cbn [fold_left]. destruct (IH (F (ms, mc, lv, s) b)) as [G1 G2].
    rewrite G1, G2. unfold F. destruct (evaluate w b) as [d loss].
    cbn [fst snd length]. lia. }
  destruct (G val_loader (0%Q, 0, 0%Q, 0)) as [G1 G2].
  rewrite G1, G2. split; reflexivity.
Qed.

Lemma divide_learning_rates_ok lrs :
  Qeq_bool lr_divisor 0 = false ->
  divide_learning_rates rnd lr_divisor lrs =
    Return (divided rnd lr_divisor lrs).
Proof.
  intros Hd. induction lrs as [| a lrs IH]; [reflexivity |].
  cbn [divide_learning_rates]. rewrite Hd, IH. reflexivity.
Qed.






Section Sound.

Hypothesis val_interval_pos : 0 < val_interval.
Hypothesis epochs_with_const_lr_pos : 0 < epochs_with_const_lr.
Hypothesis lr_divisor_nonzero : ~ (lr_divisor == 0)%Q.
Hypothesis train_batches : forall e, train_loader e <> [].
Hypothesis val_batches : val_loader <> [].

(** One round of the loop over the epochs. *)
Lemma run_epoch_ok st e :
  let w := fst (fst (train_epoch (weights st) (lr st) (train_loader e))) in
  let validate := (Z.of_nat e + 1) mod val_interval =? 0 in
  let better := validate && Qlt_bool (best_metric st) (mean_dice w) in
  exists epoch_loss epoch_loss_val,
    run_epoch st e =
    Return
      (mkTrainState w
         (if (Z.of_nat e + 1) mod epochs_with_const_lr =? 0
          then divided rnd lr_divisor (lr st) else lr st)
         (epoch_loss_values st ++ [epoch_loss])
         (if validate then metric_values st ++ [mean_dice w]
          else metric_values st)
         (if better then mean_dice w else best_metric st)
         (if better then Z.of_nat e + 1 else best_metric_epoch st)
         (if better then Some w else best_metric_model st)
         (if validate
          then tb_scalars st ++
               [(Z.of_nat e, epoch_loss, epoch_loss_val, mean_dice w)]
          else tb_scalars st)).
Proof.
  intros w validate better.
  assert (Hd : Qeq_bool lr_divisor 0 = false).
  { destruct (Qeq_bool lr_divisor 0) eqn:E; [| reflexivity].
    apply Qeq_bool_eq in E. contradiction. }
  assert (Hv0 : (val_interval =? 0) = false) by (apply Z.eqb_neq; lia).
  assert (Hc0 : (epochs_with_const_lr =? 0) = false) by (apply Z.eqb_neq; lia).
  pose proof (train_epoch_step (weights st) (lr st) (train_loader e)) as Hs.
  pose proof (train_batches e) as Hne.
  unfold VSparams.run_epoch. rewrite Hv0, andb_false_r. cbn [bind].
  subst w better validate.
  destruct (train_epoch (weights st) (lr st) (train_loader e))
    as [[w l] s].
  cbn [fst snd] in *.
  assert (Hs0 : (s =? 0) = false).
  { apply Z.eqb_neq. destruct (train_loader e); [contradiction |].
    simpl in Hs. lia. }
  unfold truediv, py_mod. rewrite Hs0, Hv0, Hc0. cbn [bind].
  destruct (validation_epoch_counts w) as [Hmc Hsv].
  destruct ((Z.of_nat e + 1) mod val_interval =? 0).
  - destruct (validation_epoch w) as [[[ms mc] lv] sv].
    cbn [fst snd] in *.
    assert (Hl : (0 < length val_loader)%nat).
    { destruct val_loader; [contradiction | simpl; lia]. }
    assert (Hmc0 : (mc =? 0) = false) by (apply Z.eqb_neq; lia).
    assert (Hsv0 : (sv =? 0) = false) by (apply Z.eqb_neq; lia).
    rewrite Hmc0, Hsv0. cbn [bind andb].
    exists (rnd (l / of_int rnd s))%Q, (rnd (lv / of_int rnd sv))%Q.
    destruct (Qlt_bool (best_metric st) _); cbn [bind weights lr
      epoch_loss_values metric_values best_metric best_metric_epoch
      best_metric_model tb_scalars];
      destruct ((Z.of_nat e + 1) mod epochs_with_const_lr =? 0);
      rewrite ?divide_learning_rates_ok by exact Hd; reflexivity.
  - cbn [bind andb weights lr epoch_loss_values metric_values best_metric
      best_metric_epoch best_metric_model tb_scalars].
    exists (rnd (l / of_int rnd s))%Q, 0%Q.
    destruct ((Z.of_nat e + 1) mod epochs_with_const_lr =? 0);
      rewrite ?divide_learning_rates_ok by exact Hd; reflexivity.
Qed.

(** What holds after [k] epochs, for any property [P] of the mean Dice
    scores. *)
Lemma run_epochs_inv (P : Q -> Prop) w lrs :
  (forall w', P (mean_dice w')) ->
  forall k,
  exists st,
    run_epochs w lrs k = Return st /\
    length (epoch_loss_values st) = k /\
    Z.of_nat (length (metric_values st)) = Z.of_nat k / val_interval /\
    lr st =
      Nat.iter (Z.to_nat (Z.of_nat k / epochs_with_const_lr))
        (divided rnd lr_divisor) lrs /\
    map scalar_step (tb_scalars st) =
      map (fun i => val_interval * (Z.of_nat i + 1) - 1)
        (seq 0 (length (metric_values st))) /\
    map scalar_metric (tb_scalars st) = metric_values st /\
    Forall P (metric_values st) /\
    Forall (fun m => (m <= best_metric st)%Q) (metric_values st) /\
    ((best_metric st = (-1)%Q /\ best_metric_epoch st = -1 /\
      best_metric_model st = None) \/
     (exists i st_i,
        nth_error (metric_values st) i = Some (best_metric st) /\
        best_metric_epoch st = val_interval * (Z.of_nat i + 1) /\
        (forall j m, (j < i)%nat ->
           nth_error (metric_values st) j = Some m ->
           (m < best_metric st)%Q) /\
        run_epochs w lrs (Z.to_nat (best_metric_epoch st)) = Return st_i /\
        best_metric_model st = Some (weights st_i))).
Proof.
  intros HP k. induction k as [| k IH].
  - exists (initial_state w lrs). cbn.
    do 6 (split; [reflexivity |]).
    do 2 (split; [constructor |]).
    left. repeat split; reflexivity.
  - destruct IH as (st & E & Hl & Hm & Hlr & Hstep & Hsm & HPm & Hle & Hbest).
    rewrite run_epochs_S, E. cbn [bind].
    destruct (run_epoch_ok st k) as (x & lv & Ek).
    cbn zeta in Ek.
    set (w' := fst (fst (train_epoch (weights st) (lr st) (train_loader k))))
      in *.
    set (m := mean_dice w') in *.
    pose proof (div_succ val_interval (Z.of_nat k) val_interval_pos
                  ltac:(lia)) as Dv.
    pose proof (div_succ epochs_with_const_lr (Z.of_nat k)
                  epochs_with_const_lr_pos ltac:(lia)) as Dc.
    pose proof (Z.div_pos (Z.of_nat k) val_interval ltac:(lia)
                  val_interval_pos) as Qv.
    pose proof (Z.div_pos (Z.of_nat k) epochs_with_const_lr ltac:(lia)
                  epochs_with_const_lr_pos) as Qc.
    replace (Z.of_nat (S k)) with (Z.of_nat k + 1) by lia.
    eexists. split; [exact Ek |].
    cbn [weights lr epoch_loss_values metric_values best_metric
           best_metric_epoch best_metric_model tb_scalars].
    split; [rewrite length_app, Hl; simpl; lia |].
    assert (Glr :
      (if (Z.of_nat k + 1) mod epochs_with_const_lr =? 0
       then divided rnd lr_divisor (lr st) else lr st) =
      Nat.iter (Z.to_nat ((Z.of_nat k + 1) / epochs_with_const_lr))
        (divided rnd lr_divisor) lrs).
    { rewrite Dc.
      destruct ((Z.of_nat k + 1) mod epochs_with_const_lr =? 0);
        [| exact Hlr].
      rewrite Z2Nat.inj_add by lia. rewrite Nat.add_comm. cbn [Nat.add].
      rewrite Nat.iter_succ. now rewrite Hlr. }
    destruct (Z.eqb_spec ((Z.of_nat k + 1) mod val_interval) 0) as [Ev | Nv].
    + (* a validation round *)
      assert (Eepoch :
        Z.of_nat k + 1 =
        val_interval * (Z.of_nat (length (metric_values st)) + 1)).
      { rewrite Hm.
        pose proof (Z.div_mod (Z.of_nat k + 1) val_interval ltac:(lia)).
        nia. }
      split; [rewrite length_app, Nat2Z.inj_add, Hm, Dv; simpl; lia |].
      split; [exact Glr |].
      split.
      { rewrite map_app, Hstep, length_app. cbn [length map].
        rewrite Nat.add_1_r, seq_S, map_app. cbn [map Nat.add].
        f_equal. f_equal. unfold scalar_step. cbn [fst]. lia. }
      split; [rewrite map_app, Hsm; reflexivity |].
      split; [apply Forall_app; split; [exact HPm | constructor;
                [apply HP | constructor]] |].
      cbn [andb].
      destruct (Qlt_bool (best_metric st) m) eqn:Eb.
      * apply PatchLocator.Qlt_bool_iff in Eb.
        split.
        { apply Forall_app. split.
          - eapply Forall_impl; [| exact Hle]. cbn beta. intros a Ha.
            apply Qlt_le_weak. eapply Qle_lt_trans; eassumption.
          - constructor; [apply Qle_refl | constructor]. }
        right. exists (length (metric_values st)). eexists.
        split; [apply nth_error_snoc |].
        split; [exact Eepoch |].
        split.
        { intros j a Hj Hn. rewrite nth_error_app1 in Hn by exact Hj.
          eapply Qle_lt_trans; [| exact Eb].
          rewrite Forall_forall in Hle. apply Hle.
          eapply nth_error_In; eassumption. }
        replace (Z.to_nat (Z.of_nat k + 1)) with (S k) by lia.
        rewrite run_epochs_S, E. cbn [bind].
        split; [exact Ek | reflexivity].
      * assert (Hmb : (m <= best_metric st)%Q).
        { apply Qnot_lt_le. intros Hlt.
          apply PatchLocator.Qlt_bool_iff in Hlt. congruence. }
        split.
        { apply Forall_app. split; [exact Hle |].
          constructor; [exact Hmb | constructor]. }
        destruct Hbest as [Hinit | (i & st_i & Hn & He & Hfirst & Hr & Hw)];
          [left; exact Hinit |].
        right. exists i, st_i.
        assert (Hi : (i < length (metric_values st))%nat).
        { apply nth_error_Some. congruence. }
        split; [rewrite nth_error_app1 by exact Hi; exact Hn |].
        split; [exact He |].
        split; [| split; [exact Hr | exact Hw]].
        intros j a Hj Hnj. apply (Hfirst j a Hj).
        rewrite nth_error_app1 in Hnj by lia. exact Hnj.
    + (* no validation *)
      cbn [andb].
      split; [rewrite Dv; exact Hm |].
      split; [exact Glr |].
      repeat split; assumption.
Qed.


(** X19. With a positive validation interval, a positive number of
    epochs per learning rate, a divisor other than zero and loaders
    that yield at least one batch, [run_training_algorithm] raises
    nothing and returns one mean loss per epoch and one mean Dice score
    per full validation interval: [num_epochs] losses and
    [num_epochs // val_interval] scores (none of either for a negative
    [num_epochs]). *)
Theorem training_returns_lists w lrs :
  exists st,
    run_training_algorithm w lrs =
      Return (epoch_loss_values st, metric_values st, st) /\
    Z.of_nat (length (epoch_loss_values st)) = Z.max 0 num_epochs /\
    Z.of_nat (length (metric_values st)) =
      Z.max 0 num_epochs / val_interval.
Proof.
  destruct (run_epochs_inv (fun _ => True) w lrs (fun _ => I)
              (Z.to_nat num_epochs)) as (st & E & Hl & Hm & _).
  exists st. unfold VSparams.run_training_algorithm. rewrite E. cbn [bind].
  split; [reflexivity |]. split; [rewrite Hl; lia |].
  rewrite Hm. f_equal. lia.
Qed.

(** X20. Under the same conditions the learning rates in force after
    [k] epochs, those the epoch of index [k] trains with, are the
    initial ones divided [k // epochs_with_const_lr] times by
    [lr_divisor], each division rounded to float64: the rate is left
    alone between two multiples of [epochs_with_const_lr]. *)
Theorem learning_rate_schedule w lrs (k : nat) :
  exists st,
    run_epochs w lrs k = Return st /\
    lr st =
      Nat.iter (Z.to_nat (Z.of_nat k / epochs_with_const_lr))
        (divided rnd lr_divisor) lrs.
Proof.
  destruct (run_epochs_inv (fun _ => True) w lrs (fun _ => I) k)
    as (st & E & _ & _ & Hlr & _).
  exists st. split; [exact E | exact Hlr].
Qed.

(** X21. Under the same conditions, when training ends no mean Dice
    score of the run exceeds [best_metric].  Either no score has
    exceeded the initial -1, and then nothing was written to
    [best_metric_model.pth]; or [best_metric] is the score of the first
    validation round that reached the maximum, [best_metric_epoch] is
    the one-based number [val_interval * (i + 1)] of the epoch of that
    round, and [best_metric_model.pth] holds the weights the network
    had at the end of that epoch: a later round with an equal score
    does not replace them. *)
Theorem best_metric_first_maximum w lrs :
  exists st,
    run_training_algorithm w lrs =
      Return (epoch_loss_values st, metric_values st, st) /\
    Forall (fun m => (m <= best_metric st)%Q) (metric_values st) /\
    ((best_metric st = (-1)%Q /\ best_metric_epoch st = -1 /\
      best_metric_model st = None) \/
     (exists i st_i,
        nth_error (metric_values st) i = Some (best_metric st) /\
        (forall j m, (j < i)%nat ->
           nth_error (metric_values st) j = Some m ->
           (m < best_metric st)%Q) /\
        best_metric_epoch st = val_interval * (Z.of_nat i + 1) /\
        run_epochs w lrs (Z.to_nat (best_metric_epoch st)) = Return st_i /\
        best_metric_model st = Some (weights st_i))).
Proof.
  destruct (run_epochs_inv (fun _ => True) w lrs (fun _ => I)
              (Z.to_nat num_epochs))
    as (st & E & _ & _ & _ & _ & _ & _ & Hle & Hbest).
  exists st. unfold VSparams.run_training_algorithm. rewrite E. cbn [bind].
  split; [reflexivity |]. split; [exact Hle |].
  destruct Hbest as [Hinit | (i & st_i & Hn & He & Hfirst & Hr & Hw)];
    [left; exact Hinit |].
  right. exists i, st_i. repeat split; assumption.
Qed.

(** X22. Under the same conditions the lists returned by
    [run_training_algorithm] are drawn by
    [plot_loss_curve_and_mean_dice] at the epochs they belong to: the
    losses at the epochs 1 to [num_epochs], and every mean Dice score
    at the one-based number of the epoch it was measured in, which is
    one more than the step under which the same score went to
    TensorBoard. *)
Theorem plot_at_validation_epochs w lrs :
  exists st,
    run_training_algorithm w lrs =
      Return (epoch_loss_values st, metric_values st, st) /\
    map scalar_metric (tb_scalars st) = metric_values st /\
    plot_loss_curve_and_mean_dice val_interval (epoch_loss_values st)
      (metric_values st) =
    (combine (map (fun i => Z.of_nat i + 1) (seq 0 (Z.to_nat num_epochs)))
       (epoch_loss_values st),
     combine (map (fun s => scalar_step s + 1) (tb_scalars st))
       (metric_values st)).
Proof.
  destruct (run_epochs_inv (fun _ => True) w lrs (fun _ => I)
              (Z.to_nat num_epochs))
    as (st & E & Hl & _ & _ & Hstep & Hsm & _).
  exists st. unfold VSparams.run_training_algorithm. rewrite E. cbn [bind].
  split; [reflexivity |]. split; [exact Hsm |].
  unfold plot_loss_curve_and_mean_dice. rewrite Hl. f_equal. f_equal.
  rewrite <- (map_map scalar_step (fun x => x + 1)), Hstep, map_map.
  apply map_ext. intros i. lia.
Qed.

Section UnitInterval.
Local Open Scope Q_scope.

(** What is used of the float64 rounding: it is monotone and leaves the
    integers up to 2^53 as they are. *)
Hypothesis rnd_mono : forall x y, x <= y -> rnd x <= rnd y.
Hypothesis rnd_int :
  forall k : Z, (0 <= k <= 2 ^ 53)%Z -> rnd (inject_Z k) == inject_Z k.

Hypothesis dice_range : forall w b, 0 <= fst (evaluate w b) <= 1.
Hypothesis val_size : (2 * Z.of_nat (length val_loader) <= 2 ^ 53)%Z.

Lemma fadd_below_next (a d : Q) (k : Z) :
  (0 <= k)%Z -> (k + 1 <= 2 ^ 53)%Z ->
  0 <= a <= inject_Z k -> 0 <= d <= 1 ->
  0 <= fadd rnd a d <= inject_Z (k + 1).
Proof.
  intros Hk Hk1 [Ha0 Ha1] [Hd0 Hd1]. unfold fadd. split.
  - rewrite <- (rnd_int 0) by lia. apply rnd_mono.
    change (inject_Z 0) with 0. lra.
  - rewrite <- (rnd_int (k + 1)) by lia. apply rnd_mono.
    rewrite inject_Z_plus. change (inject_Z 1) with 1. lra.
Qed.

Lemma mean_dice_range w :
  0 <= mean_dice w <= 1.
Proof.
  destruct (validation_epoch_counts w) as [Hmc _].
  assert (Hsum : 0 <= fst (fst (fst (validation_epoch w))) <=
                 inject_Z (snd (fst (fst (validation_epoch w))))).
  { clear Hmc. unfold VSparams.validation_epoch.
    match goal with |- context [fold_left ?f _ _] => set (F := f) end.
    assert (G : forall l acc,
              (0 <= snd (fst (fst acc)))%Z ->
              (snd (fst (fst acc)) + 2 * Z.of_nat (length l) <= 2 ^ 53)%Z ->
              0 <= fst (fst (fst acc)) <= inject_Z (snd (fst (fst acc))) ->
              0 <= fst (fst (fst (fold_left F l acc))) <=
              inject_Z (snd (fst (fst (fold_left F l acc))))).
    { induction l as [| b l IH]; intros [[[ms mc] lv] s] H0 H1 H2;
        [exact H2 |].
      cbn [fold_left]. cbn [fst snd length] in H0, H1, H2.
      pose proof (dice_range w b) as Hd.
      assert (E : F (ms, mc, lv, s) b =
                  (fadd rnd (fadd rnd ms (fst (evaluate w b)))
                     (fst (evaluate w b)), (mc + 1 + 1)%Z,
                   fadd rnd (fadd rnd lv (snd (evaluate w b)))
                     (snd (evaluate w b)), (s + 1)%Z)).
      { unfold F. destruct (evaluate w b). reflexivity. }
      rewrite E. apply IH; cbn [fst snd]; [lia | lia |].
      apply fadd_below_next; [lia | lia | | exact Hd].
      apply fadd_below_next; [lia | lia | exact H2 | exact Hd]. }
    apply G; cbn [fst snd]; [lia | lia |].
    change (inject_Z 0) with 0. lra. }
  destruct (validation_epoch w) as [[[ms mc] lv] sv]. cbn [fst snd] in *.
  assert (Hl : (0 < length val_loader)%nat).
  { destruct val_loader; [contradiction | simpl; lia]. }
  assert (Hc : of_int rnd mc == inject_Z mc).
  { unfold of_int. apply rnd_int. lia. }
  assert (Hpos : 0 < inject_Z mc).
  { change 0 with (inject_Z 0). rewrite <- Zlt_Qlt. lia. }
  split.
  - rewrite <- (rnd_int 0) by lia. apply rnd_mono.
    change (inject_Z 0) with 0. rewrite Hc.
    apply Qle_shift_div_l; [exact Hpos | lra].
  - rewrite <- (rnd_int 1) by lia. apply rnd_mono.
    change (inject_Z 1) with 1. rewrite Hc.
    apply Qle_shift_div_r; [exact Hpos | lra].
Qed.

Lemma best_model_any_rounding w lrs :
  exists st,
    run_training_algorithm w lrs =
      Return (epoch_loss_values st, metric_values st, st) /\
    Forall (fun m => 0 <= m <= 1) (metric_values st) /\
    ((val_interval <= num_epochs)%Z ->
     0 <= best_metric st <= 1 /\
     (val_interval <= best_metric_epoch st <= num_epochs)%Z /\
     exists st_i,
       run_epochs w lrs (Z.to_nat (best_metric_epoch st)) = Return st_i /\
       best_metric_model st = Some (weights st_i)) /\
    ((num_epochs < val_interval)%Z ->
     metric_values st = [] /\ best_metric_model st = None).
Proof.
  destruct (run_epochs_inv (fun m => 0 <= m <= 1) w lrs mean_dice_range
              (Z.to_nat num_epochs))
    as (st & E & _ & Hm & _ & _ & _ & HP & Hle & Hbest).
  exists st. unfold VSparams.run_training_algorithm. rewrite E. cbn [bind].
  split; [reflexivity |]. split; [exact HP |].
  split.
  - intros Hn.
    assert (Hq : (1 <= Z.of_nat (Z.to_nat num_epochs) / val_interval)%Z).
    { apply Z.div_le_lower_bound; lia. }
    pose proof (Z.mul_div_le (Z.of_nat (Z.to_nat num_epochs)) val_interval
                  val_interval_pos) as Hmul.
    destruct Hbest as [(Hb & _) | (i & st_i & Hn' & He & _ & Hr & Hw)].
    + exfalso. destruct (metric_values st) as [| m0 l]; [simpl in Hm; lia |].
      inversion HP as [| ? ? Hm0 _]. inversion Hle as [| ? ? Hm1 _].
      subst. rewrite Hb in Hm1. lra.
    + assert (Hi : (i < length (metric_values st))%nat).
      { apply nth_error_Some. congruence. }
      split.
      { rewrite Forall_forall in HP. apply HP.
        eapply nth_error_In. exact Hn'. }
      split; [rewrite He; nia |].
      exists st_i. split; assumption.
  - intros Hn.
    assert (Hq : (Z.of_nat (Z.to_nat num_epochs) / val_interval = 0)%Z).
    { apply Z.div_small. lia. }
    assert (Hnil : metric_values st = []).
    { destruct (metric_values st); [reflexivity | simpl in Hm; lia]. }
    split; [exact Hnil |].
    destruct Hbest as [(_ & _ & Hnone) | (i & st_i & Hn' & _)];
      [exact Hnone |].
    rewrite Hnil in Hn'. destruct i; discriminate.
Qed.

End UnitInterval.

End Sound.


End Loop.

(** X24. In float64, under the same conditions, with Dice scores
    between 0 and 1 and at most 2^52 validation batches: every mean
    Dice score returned lies between 0 and 1, although the loop adds
    each score twice and counts it twice.  Hence
    [best_metric_model.pth] is written exactly when [num_epochs]
    reaches [val_interval]: then [best_metric] lies between 0 and 1,
    [best_metric_epoch] between [val_interval] and [num_epochs], and
    the file holds the weights of the end of that epoch; otherwise no
    validation takes place and no file is written. *)
Theorem best_model_saved {Weights Batch : Type}
    (train_step : Weights -> list Q -> Batch -> Weights * Q)
    (evaluate : Weights -> Batch -> Q * Q)
    (train_loader : nat -> list Batch) (val_loader : list Batch)
    (num_epochs val_interval epochs_with_const_lr : Z) (lr_divisor : Q)
    (w : Weights) (lrs : list Q) :
  0 < val_interval ->
  0 < epochs_with_const_lr ->
  ~ (lr_divisor == 0)%Q ->
  (forall e, train_loader e <> []) ->
  val_loader <> [] ->
  (forall w b, 0 <= fst (evaluate w b) <= 1)%Q ->
  2 * Z.of_nat (length val_loader) <= 2 ^ 53 ->
  let run_epochs :=
    run_epochs IEEE.float64 train_step evaluate train_loader val_loader
      val_interval epochs_with_const_lr lr_divisor in
  exists st,
    run_training_algorithm IEEE.float64 train_step evaluate train_loader
      val_loader num_epochs val_interval epochs_with_const_lr lr_divisor
      w lrs =
      Return (epoch_loss_values st, metric_values st, st) /\
    Forall (fun m => 0 <= m <= 1)%Q (metric_values st) /\
    (val_interval <= num_epochs ->
     (0 <= best_metric st <= 1)%Q /\
     val_interval <= best_metric_epoch st <= num_epochs /\
     exists st_i,
       run_epochs w lrs (Z.to_nat (best_metric_epoch st)) = Return st_i /\
       best_metric_model st = Some (weights st_i)) /\
    (num_epochs < val_interval ->
     metric_values st = [] /\ best_metric_model st = None).
Proof.
  intros Hv Hc Hd Ht Hval Hdice Hsize run_epochs.
  apply best_model_any_rounding; try assumption.
  - intros x y. apply Rounding.round_float_monotone. lia.
  - exact Rounding.float64_int.
Qed.

(** The theorems at work: four epochs over two training batches and one
    validation batch, validation every second epoch, the learning rate
    halved every third. *)
Lemma training_returns_lists_witness :
  let train_loader := fun _ : nat => [1 # 2; 1 # 4]%Q in
  let val_loader := [1 # 2]%Q in
  0 < 2 /\ 0 < 3 /\ ~ (2 == 0)%Q /\
  (forall e, train_loader e <> []) /\ val_loader <> [] /\
  exists st,
    run_training_algorithm IEEE.float64 count_step score_steps train_loader
      val_loader 4 2 3 2 0%nat [1 # 1000]%Q =
      Return (epoch_loss_values st, metric_values st, st) /\
    Z.of_nat (length (epoch_loss_values st)) = Z.max 0 4 /\
    Z.of_nat (length (metric_values st)) = Z.max 0 4 / 2.
Proof.
  intros train_loader val_loader.
  assert (H1 : 0 < 2) by lia.
  assert (H2 : 0 < 3) by lia.
  assert (H3 : ~ (2 == 0)%Q) by (intros H; discriminate H).
  assert (H4 : forall e, train_loader e <> []) by (intros e; discriminate).
  assert (H5 : val_loader <> []) by discriminate.
  split; [exact H1 |]. split; [exact H2 |]. split; [exact H3 |].
  split; [exact H4 |]. split; [exact H5 |].
  exact (training_returns_lists IEEE.float64 count_step score_steps
           train_loader val_loader 4 2 3 2 H1 H2 H3 H4 H5 0%nat
           [1 # 1000]%Q).
Defined.

Lemma learning_rate_schedule_witness :
  let train_loader := fun _ : nat => [1 # 2; 1 # 4]%Q in
  let val_loader := [1 # 2]%Q in
  0 < 2 /\ 0 < 3 /\ ~ (2 == 0)%Q /\
  (forall e, train_loader e <> []) /\ val_loader <> [] /\
  exists st,
    run_epochs IEEE.float64 count_step score_steps train_loader val_loader
      2 3 2 0%nat [1 # 1000]%Q 4 = Return st /\
    lr st =
      Nat.iter (Z.to_nat (Z.of_nat 4 / 3)) (divided IEEE.float64 2)
        [1 # 1000]%Q.
Proof.
  intros train_loader val_loader.
  assert (H1 : 0 < 2) by lia.
  assert (H2 : 0 < 3) by lia.
  assert (H3 : ~ (2 == 0)%Q) by (intros H; discriminate H).
  assert (H4 : forall e, train_loader e <> []) by (intros e; discriminate).
  assert (H5 : val_loader <> []) by discriminate.
  split; [exact H1 |]. split; [exact H2 |]. split; [exact H3 |].
  split; [exact H4 |]. split; [exact H5 |].
  exact (learning_rate_schedule IEEE.float64 count_step score_steps
           train_loader val_loader 2 3 2 H1 H2 H3 H4 H5 0%nat
           [1 # 1000]%Q 4%nat).
Defined.

Lemma best_metric_first_maximum_witness :
  let train_loader := fun _ : nat => [1 # 2; 1 # 4]%Q in
  let val_loader := [1 # 2]%Q in
  0 < 2 /\ 0 < 3 /\ ~ (2 == 0)%Q /\
  (forall e, train_loader e <> []) /\ val_loader <> [] /\
  exists st,
    run_training_algorithm IEEE.float64 count_step score_steps train_loader
      val_loader 4 2 3 2 0%nat [1 # 1000]%Q =
      Return (epoch_loss_values st, metric_values st, st) /\
    Forall (fun m => (m <= best_metric st)%Q) (metric_values st) /\
    ((best_metric st = (-1)%Q /\ best_metric_epoch st = -1 /\
      best_metric_model st = None) \/
     (exists i st_i,
        nth_error (metric_values st) i = Some (best_metric st) /\
        (forall j m, (j < i)%nat ->
           nth_error (metric_values st) j = Some m ->
           (m < best_metric st)%Q) /\
        best_metric_epoch st = 2 * (Z.of_nat i + 1) /\
        run_epochs IEEE.float64 count_step score_steps train_loader
          val_loader 2 3 2 0%nat [1 # 1000]%Q
          (Z.to_nat (best_metric_epoch st)) = Return st_i /\
        best_metric_model st = Some (weights st_i))).
Proof.
  intros train_loader val_loader.
  assert (H1 : 0 < 2) by lia.
  assert (H2 : 0 < 3) by lia.
  assert (H3 : ~ (2 == 0)%Q) by (intros H; discriminate H).
  assert (H4 : forall e, train_loader e <> []) by (intros e; discriminate).
  assert (H5 : val_loader <> []) by discriminate.
  split; [exact H1 |]. split; [exact H2 |]. split; [exact H3 |].
  split; [exact H4 |]. split; [exact H5 |].
  exact (best_metric_first_maximum IEEE.float64 count_step score_steps
           train_loader val_loader 4 2 3 2 H1 H2 H3 H4 H5 0%nat
           [1 # 1000]%Q).
Defined.

Lemma plot_at_validation_epochs_witness :
  let train_loader := fun _ : nat => [1 # 2; 1 # 4]%Q in
  let val_loader := [1 # 2]%Q in
  0 < 2 /\ 0 < 3 /\ ~ (2 == 0)%Q /\
  (forall e, train_loader e <> []) /\ val_loader <> [] /\
  exists st,
    run_training_algorithm IEEE.float64 count_step score_steps train_loader
      val_loader 4 2 3 2 0%nat [1 # 1000]%Q =
      Return (epoch_loss_values st, metric_values st, st) /\
    map scalar_metric (tb_scalars st) = metric_values st /\
    plot_loss_curve_and_mean_dice 2 (epoch_loss_values st)
      (metric_values st) =
    (combine (map (fun i => Z.of_nat i + 1) (seq 0 (Z.to_nat 4)))
       (epoch_loss_values st),
     combine (map (fun s => scalar_step s + 1) (tb_scalars st))
       (metric_values st)).
Proof.
  intros train_loader val_loader.
  assert (H1 : 0 < 2) by lia.
  assert (H2 : 0 < 3) by lia.
  assert (H3 : ~ (2 == 0)%Q) by (intros H; discriminate H).
  assert (H4 : forall e, train_loader e <> []) by (intros e; discriminate).
  assert (H5 : val_loader <> []) by discriminate.
  split; [exact H1 |]. split; [exact H2 |]. split; [exact H3 |].
  split; [exact H4 |]. split; [exact H5 |].
  exact (plot_at_validation_epochs IEEE.float64 count_step score_steps
           train_loader val_loader 4 2 3 2 H1 H2 H3 H4 H5 0%nat
           [1 # 1000]%Q).
Defined.


Lemma best_model_saved_witness :
  let train_loader := fun _ : nat => [1 # 2; 1 # 4]%Q in
  let val_loader := [1 # 2]%Q in
  0 < 2 /\ 0 < 3 /\ ~ (2 == 0)%Q /\
  (forall e, train_loader e <> []) /\ val_loader <> [] /\
  (forall w b, 0 <= fst (score_steps w b) <= 1)%Q /\
  2 * Z.of_nat (length val_loader) <= 2 ^ 53 /\
  exists st,
    run_training_algorithm IEEE.float64 count_step score_steps train_loader
      val_loader 4 2 3 2 0%nat [1 # 1000]%Q =
      Return (epoch_loss_values st, metric_values st, st) /\
    Forall (fun m => 0 <= m <= 1)%Q (metric_values st) /\
    (2 <= 4 ->
     (0 <= best_metric st <= 1)%Q /\
     2 <= best_metric_epoch st <= 4 /\
     exists st_i,
       run_epochs IEEE.float64 count_step score_steps train_loader
         val_loader 2 3 2 0%nat [1 # 1000]%Q
         (Z.to_nat (best_metric_epoch st)) = Return st_i /\
       best_metric_model st = Some (weights st_i)) /\
    (4 < 2 -> metric_values st = [] /\ best_metric_model st = None).
Proof.
  intros train_loader val_loader.
  assert (H1 : 0 < 2) by lia.
  assert (H2 : 0 < 3) by lia.
  assert (H3 : ~ (2 == 0)%Q) by (intros H; discriminate H).
  assert (H4 : forall e, train_loader e <> []) by (intros e; discriminate).
  assert (H5 : val_loader <> []) by discriminate.
  assert (H6 : (forall w b, 0 <= fst (score_steps w b) <= 1)%Q).
  { intros w b. unfold score_steps, Qle. cbn [fst Qnum Qden]. lia. }
  assert (H7 : 2 * Z.of_nat (length val_loader) <= 2 ^ 53).
  { apply Z.leb_le. reflexivity. }
  split; [exact H1 |]. split; [exact H2 |]. split; [exact H3 |].
  split; [exact H4 |]. split; [exact H5 |].
  split; [exact H6 |]. split; [exact H7 |].
  exact (best_model_saved count_step score_steps train_loader val_loader
           4 2 3 2 0%nat [1 # 1000]%Q H1 H2 H3 H4 H5 H6 H7).
Defined.

End TrainingLoop.

(** ** Writing masks to NIfTI files *)

Module MaskFiles.
Import VSparams.
Import PyErr.
Import Stdlib.Strings.Ascii.
Local Open Scope nat_scope.
Local Open Scope string_scope.

(** Strings: what is used of [++]. *)
Lemma string_app_cons (x : Ascii.ascii) (a b : string) :
  String x a ++ b = String x (a ++ b).
Proof. reflexivity. Qed.

Lemma string_app_assoc (a b c : string) : (a ++ b) ++ c = a ++ (b ++ c).
Proof.
  induction a as [| x a IH]; [reflexivity |].
  now rewrite !string_app_cons, IH.
Qed.

Lemma string_app_length (a b : string) :
  String.length (a ++ b) = String.length a + String.length b.
Proof.
  induction a as [| x a IH]; [reflexivity |].
  rewrite string_app_cons. cbn [String.length]. now rewrite IH.
Qed.

Lemma string_app_inv_head (a b c : string) : a ++ b = a ++ c -> b = c.
Proof.
  induction a as [| x a IH]; intros H; [exact H |].
  rewrite !string_app_cons in H. injection H as H. now apply IH.
Qed.

(** Two strings that agree, cut at the same position. *)
Lemma string_app_split (a b s t : string) :
  String.length a = String.length b -> a ++ s = b ++ t -> a = b /\ s = t.
Proof.
  revert b. induction a as [| x a IH]; intros [| y b] Hl H;
    try discriminate Hl.
  - split; [reflexivity | exact H].
  - rewrite !string_app_cons in H. cbn [String.length] in Hl.
    injection Hl as Hl. injection H as -> H.
    destruct (IH b Hl H) as [-> ->]. split; reflexivity.
Qed.

Lemma string_app_same_length (a b s t : string) :
  String.length s = String.length t -> a ++ s = b ++ t -> a = b /\ s = t.
Proof.
  intros Hl H. apply string_app_split; [| exact H].
  apply (f_equal String.length) in H. rewrite !string_app_length in H. lia.
Qed.

(** Reading [f"{i:03d}"] back gives [i]. *)
Lemma zeros_read (k : nat) (s : string) (d : Decimal.uint) :
  NilEmpty.uint_of_string s = Some d ->
  exists d',
    NilEmpty.uint_of_string (zeros k ++ s) = Some d' /\
    Nat.of_uint d' = Nat.of_uint d.
Proof.
  intros Hs. induction k as [| k (d' & E & Hd)].
  - exists d. split; [exact Hs | reflexivity].
  - exists (Decimal.D0 d'). split; [| exact Hd].
    change (zeros (S k) ++ s) with (String "0"%char (zeros k ++ s)).
    cbn [NilEmpty.uint_of_string]. rewrite E. reflexivity.
Qed.

Lemma format_03d_inj (i j : nat) : format_03d i = format_03d j -> i = j.
Proof.
  assert (R : forall n,
            option_map Nat.of_uint (NilEmpty.uint_of_string (format_03d n)) =
            Some n).
  { intros n. unfold format_03d, str.
    destruct (zeros_read
                (3 - String.length (NilEmpty.string_of_uint (Nat.to_uint n)))
                _ _ (NilEmpty.usu (Nat.to_uint n))) as (d' & -> & Hd).
    cbn [option_map]. now rewrite Hd, DecimalNat.Unsigned.of_to. }
  intros H. pose proof (R i) as Ri. rewrite H, R in Ri. now injection Ri.
Qed.

(** Joining a directory with names that start alike puts the same text
    in front of what follows the common start. *)
Lemma prefix_first (q rest : string) :
  q <> "" -> prefix "/" (q ++ rest) = prefix "/" q.
Proof.
  destruct q as [| a q]; [contradiction |]. intros _.
  rewrite string_app_cons. cbn [prefix].
  destruct (ascii_dec "/"%char a); [| reflexivity].
  destruct (q ++ rest); destruct q; reflexivity.
Qed.

Lemma join_same_start (output_dir p : string) :
  exists head, forall rest,
    os_path_join output_dir [(p ++ "_") ++ rest] = head ++ rest.
Proof.
  exists (if prefix "/" (p ++ "_") then p ++ "_"
          else if (output_dir =? "") || endswith_sep output_dir
               then output_dir ++ p ++ "_"
               else output_dir ++ "/" ++ p ++ "_").
  intros rest. unfold os_path_join. cbn [fold_left]. unfold join_step.
  rewrite prefix_first by (destruct p; discriminate).
  destruct (prefix "/" (p ++ "_")); [reflexivity |].
  destruct ((output_dir =? "") || endswith_sep output_dir);
    now rewrite !string_app_assoc.
Qed.

(** Lists built row by row. *)
Lemma NoDup_append {A} (l l' : list A) :
  NoDup l -> NoDup l' -> (forall a, In a l -> ~ In a l') -> NoDup (l ++ l').
Proof.
  intros Hl Hl' Hd. induction Hl as [| x l Hnin Hl IH]; [exact Hl' |].
  cbn [app]. constructor.
  - rewrite in_app_iff. intros [H | H]; [contradiction |].
    apply (Hd x); [left; reflexivity | exact H].
  - apply IH. intros a Ha. apply Hd. now right.
Qed.

Lemma NoDup_map_in {A B} (f : A -> B) (l : list A) :
  (forall x y, In x l -> In y l -> f x = f y -> x = y) ->
  NoDup l -> NoDup (map f l).
Proof.
  intros Hf Hl. induction Hl as [| x l Hnin Hl IH]; [constructor |].
  cbn [map]. constructor.
  - intros Hin. apply in_map_iff in Hin. destruct Hin as (y & E & Hy).
    assert (y = x) by (apply Hf; [now right | now left | exact E]).
    subst. contradiction.
  - apply IH. intros y z Hy Hz. apply Hf; now right.
Qed.

Lemma NoDup_rows {A B C} (f : A -> B -> C) (la : list A) (lb : list B) :
  NoDup la -> NoDup lb ->
  (forall a b a' b', In b lb -> In b' lb -> f a b = f a' b' ->
     a = a' /\ b = b') ->
  NoDup (flat_map (fun a => map (f a) lb) la).
Proof.
  intros Ha Hb Hf. induction Ha as [| a la Hnin Ha IH]; [constructor |].
  cbn [flat_map]. apply NoDup_append; [| exact IH |].
  - apply NoDup_map_in; [| exact Hb].
    intros b b' Hb1 Hb2 E. now destruct (Hf _ _ _ _ Hb1 Hb2 E).
  - intros c Hin Hin'. apply in_map_iff in Hin. destruct Hin as (b & <- & Hb1).
    apply in_flat_map in Hin'. destruct Hin' as (a' & Hina & Hin').
    apply in_map_iff in Hin'. destruct Hin' as (b' & E & Hb2).
    symmetry in E. destruct (Hf _ _ _ _ Hb1 Hb2 E) as [-> _]. contradiction.
Qed.

Lemma map_rows {A B C D} (g : C -> D) (f : A -> B -> C) (la : list A)
    (lb : list B) :
  map g (flat_map (fun a => map (f a) lb) la) =
  flat_map (fun a => map (fun b => g (f a b)) lb) la.
Proof.
  induction la as [| a la IH]; [reflexivity |].
  cbn [flat_map]. now rewrite map_app, map_map, IH.
Qed.

Lemma length_rows {A B C} (f : A -> B -> C) (la : list A) (lb : list B) :
  length (flat_map (fun a => map (f a) lb) la) = length la * length lb.
Proof.
  induction la as [| a la IH]; [reflexivity |].
  cbn [flat_map length]. now rewrite length_app, length_map, IH.
Qed.

Lemma list_prod_rows {A B} (la : list A) (lb : list B) :
  list_prod la lb = flat_map (fun a => map (pair a) lb) la.
Proof. induction la as [| a la IH]; [reflexivity |]. cbn. now rewrite IH. Qed.

Lemma nth_error_seq_lt (s m c : nat) :
  c < m -> nth_error (seq s m) c = Some (s + c).
Proof.
  intros Hc. rewrite (nth_error_nth' _ 0) by (rewrite length_seq; exact Hc).
  now rewrite seq_nth.
Qed.

Lemma nth_error_rows {C} (f : nat -> nat -> C) (n m i c : nat) :
  i < n -> c < m ->
  nth_error (flat_map (fun a => map (f a) (seq 0 m)) (seq 0 n)) (i * m + c) =
  Some (f i c).
Proof.
  intros Hi Hc.
  enough (G : forall s,
            nth_error (flat_map (fun a => map (f a) (seq 0 m)) (seq s n))
              (i * m + c) = Some (f (s + i) c)) by exact (G 0).
  revert i Hi. induction n as [| n IH]; intros i Hi s; [lia |].
  cbn [seq flat_map]. destruct i as [| i].
  - cbn [Nat.mul Nat.add].
    rewrite nth_error_app1 by (rewrite length_map, length_seq; exact Hc).
    rewrite (map_nth_error _ _ _ (nth_error_seq_lt 0 m c Hc)).
    now rewrite Nat.add_0_r.
  - rewrite nth_error_app2 by (rewrite length_map, length_seq; lia).
    rewrite length_map, length_seq.
    replace (S i * m + c - m) with (i * m + c) by lia.
    rewrite IH by lia. f_equal. f_equal. lia.
Qed.

(** The modality names: one per channel, of one length, no two alike. *)
Lemma modality_names_cases (num_channels : nat) (modality : option string) :
  num_channels = 1 \/ num_channels = 2 ->
  exists modality_names,
    (if (num_channels =? 1)%nat then Return [format_modality modality]
     else if (num_channels =? 2)%nat then Return ["t1"; "t2"]
     else Raises ValueError
            ("Unexpected number of channels: " ++ str num_channels ++
             ", expected 1 or 2")) = Return modality_names /\
    forall c c', c < num_channels -> c' < num_channels ->
      String.length (nth c modality_names "") =
        String.length (nth c' modality_names "") /\
      (nth c modality_names "" = nth c' modality_names "" -> c = c').
Proof.
  intros [-> | ->]; eexists; (split; [reflexivity |]); intros c c' Hc Hc'.
  - assert (c = 0) by lia. assert (c' = 0) by lia. subst.
    split; reflexivity.
  - assert (Hcs : c = 0 \/ c = 1) by lia. assert (Hcs' : c' = 0 \/ c' = 1) by lia.
    destruct Hcs as [-> | ->], Hcs' as [-> | ->]; cbn [nth];
      (split; [reflexivity |]); intros E; try reflexivity; discriminate E.
Qed.

(** The files planned for a mask with one or two channels and without
    patient ids. *)
Lemma save_mask_plan (num_patients num_channels : nat)
    (output_dir : string) (modality : option string) (file_prefix : string)
    (patient_ids reference_files : option (list string)) :
  num_channels = 1 \/ num_channels = 2 ->
  truthy patient_ids = false ->
  exists files,
    save_mask_as_nifti (num_patients, num_channels) output_dir modality
      file_prefix patient_ids reference_files = Return files /\
    map data files = list_prod (seq 0 num_patients) (seq 0 num_channels) /\
    NoDup (map file_name files).
Proof.
  intros HC Hp. unfold save_mask_as_nifti.
  destruct (modality_names_cases num_channels modality HC)
    as (names & -> & Hnames).
  cbn [bind]. eexists. split; [reflexivity |]. split.
  - rewrite map_rows, list_prod_rows. reflexivity.
  - rewrite map_rows. cbn [file_name]. rewrite Hp. cbn [andb].
    destruct (join_same_start output_dir file_prefix) as [head Hhead].
    apply NoDup_rows; [apply seq_NoDup | apply seq_NoDup |].
    intros i c i' c' Hc Hc' E.
    apply in_seq in Hc, Hc'.
    destruct (Hnames c c' ltac:(lia) ltac:(lia)) as [Hlen Hinj].
    rewrite !string_app_assoc in E.
    rewrite <- !(string_app_assoc file_prefix "_") in E.
    rewrite !Hhead in E. apply string_app_inv_head in E.
    apply string_app_same_length in E.
    + destruct E as [Ei Ec]. split; [now apply format_03d_inj |].
      apply Hinj. apply (string_app_inv_head "_") in Ec.
      now apply string_app_same_length in Ec.
    + rewrite !string_app_length. now rewrite Hlen.
Qed.

(** X25. Without patient ids ([None] or an empty list), the files that
    [save_mask_as_nifti] hands to [write_nifti], when its directory can
    be made and its file operations raise nothing, are the masks
    [mask[i, c]], each once, patient after patient and channel after
    channel, under pairwise different file names, whatever the output
    directory, the prefix and the modality are: no mask overwrites
    another. *)
Theorem save_mask_no_overwrite (num_patients num_channels : nat)
    (output_dir : string) (modality : option string) (file_prefix : string)
    (patient_ids reference_files : option (list string))
    (files : list NiftiFile) :
  save_mask_as_nifti (num_patients, num_channels) output_dir modality
    file_prefix patient_ids reference_files = Return files ->
  truthy patient_ids = false ->
  map data files = list_prod (seq 0 num_patients) (seq 0 num_channels) /\
  NoDup (map file_name files).
Proof.
  intros Hfiles Hp.
  assert (HC : num_channels = 1 \/ num_channels = 2).
  { unfold save_mask_as_nifti in Hfiles.
    destruct (Nat.eqb_spec num_channels 1) as [E1 | _]; [now left |].
    destruct (Nat.eqb_spec num_channels 2) as [E2 | _]; [now right |].
    discriminate Hfiles. }
  destruct (save_mask_plan num_patients num_channels output_dir modality
              file_prefix patient_ids reference_files HC Hp)
    as (files' & E & Hdata & Hnames).
  rewrite Hfiles in E. injection E as <-. split; assumption.
Qed.

Lemma save_mask_no_overwrite_witness :
  exists files,
    save_mask_as_nifti (3, 2) "out" None "case" None None = Return files /\
    truthy (@None (list string)) = false /\
    map data files = list_prod (seq 0 3) (seq 0 2) /\
    NoDup (map file_name files).
Proof.
  eexists.
  assert (H1 : save_mask_as_nifti (3, 2) "out" None "case" None None =
               Return _) by reflexivity.
  assert (H2 : truthy (@None (list string)) = false) by reflexivity.
  split; [exact H1 |]. split; [exact H2 |].
  exact (save_mask_no_overwrite 3 2 "out" None "case" None None _ H1 H2).
Defined.

(** X26. Patient ids are not checked for repetitions: when two patients
    [i < j] of a mask with one or two channels carry the same id,
    [save_mask_as_nifti] writes [mask[i, c]] and then [mask[j, c]] to
    the same file name, for every channel [c], so that the mask of
    patient [i] is overwritten. *)
Theorem save_mask_same_id_same_file (num_patients num_channels : nat)
    (output_dir : string) (modality : option string) (file_prefix : string)
    (patient_ids : list string) (reference_files : option (list string))
    (i j : nat) :
  num_channels = 1 \/ num_channels = 2 ->
  i < j < num_patients ->
  j < length patient_ids ->
  nth i patient_ids "" = nth j patient_ids "" ->
  exists files,
    save_mask_as_nifti (num_patients, num_channels) output_dir modality
      file_prefix (Some patient_ids) reference_files = Return files /\
    forall c, c < num_channels ->
      exists first second,
        nth_error files (i * num_channels + c) = Some first /\
        nth_error files (j * num_channels + c) = Some second /\
        data first = (i, c) /\ data second = (j, c) /\
        file_name first = file_name second.
Proof.
  intros HC Hij Hj Hid. unfold save_mask_as_nifti.
  destruct (modality_names_cases num_channels modality HC)
    as (names & -> & _).
  cbn [bind]. eexists. split; [reflexivity |].
  intros c Hc. do 2 eexists.
  split; [apply nth_error_rows; lia |].
  split; [apply nth_error_rows; lia |].
  cbn [data file_name]. split; [reflexivity |]. split; [reflexivity |].
  assert (Ht : truthy (Some patient_ids) = true).
  { destruct patient_ids; [simpl in Hj; lia | reflexivity]. }
  rewrite Ht. cbn [andb len item_of].
  replace (i <? length patient_ids)%nat with true
    by (symmetry; apply Nat.ltb_lt; lia).
  replace (j <? length patient_ids)%nat with true
    by (symmetry; apply Nat.ltb_lt; lia).
  now rewrite Hid.
Qed.

Lemma save_mask_same_id_same_file_witness :
  let patient_ids := ["vs_7"; "vs_8"; "vs_7"] in
  (1 = 1 \/ 1 = 2) /\
  0 < 2 < 3 /\
  2 < length patient_ids /\
  nth 0 patient_ids "" = nth 2 patient_ids "" /\
  exists files,
    save_mask_as_nifti (3, 1) "out" (Some "t2") "case" (Some patient_ids)
      None = Return files /\
    forall c, c < 1 ->
      exists first second,
        nth_error files (0 * 1 + c) = Some first /\
        nth_error files (2 * 1 + c) = Some second /\
        data first = (0, c) /\ data second = (2, c) /\
        file_name first = file_name second.
Proof.
  intros patient_ids.
  assert (H1 : 1 = 1 \/ 1 = 2) by (left; reflexivity).
  assert (H2 : 0 < 2 < 3) by lia.
  assert (H3 : 2 < length patient_ids) by (simpl; lia).
  assert (H4 : nth 0 patient_ids "" = nth 2 patient_ids "") by reflexivity.
  split; [exact H1 |]. split; [exact H2 |]. split; [exact H3 |].
  split; [exact H4 |].
  exact (save_mask_same_id_same_file 3 1 "out" (Some "t2") "case"
           patient_ids None 0 2 H1 H2 H3 H4).
Defined.

End MaskFiles.
